(** * OpenIFS SCM tile runner and post-processor: a shallow embedding

    The Python sources embedded here are [openifs_scm.py] (the
    [SCMTileRunner] class), [openifs_pp_main.py] (the post-processor)
    and [u_collect.py] (the collection of the results of an array job).
    Python exceptions are values of type [exn]; a computation that may
    raise returns [exn + A]; code that touches the file system, the model
    process or the logger is written in a state-and-exception monad over
    an abstract operating system (class [OS]). *)

From Stdlib Require Import ZArith NArith List String Ascii Bool Lia.
From Stdlib Require Import DecimalString Permutation Sorted.
Import ListNotations.
Open Scope string_scope.
Open Scope Z_scope.

Set Implicit Arguments.

(* ================================================================= *)
(** ** Python exceptions *)

Module Py.

(** The exception classes that occur in the two programs. *)
Inductive exn_class : Type :=
| TileRunError          (* scmtiles.exceptions.TileRunError *)
| SCMError              (* openifs_scm.SCMError(TileRunError) *)
| Error                 (* openifs_pp_main.Error(Exception) *)
| ConfigurationError    (* scmtiles.exceptions.ConfigurationError *)
| NameError
| UnboundLocalError     (* subclass of NameError *)
| OSError
| FileNotFoundError     (* subclass of OSError *)
| PermissionError       (* subclass of OSError *)
| RuntimeError
| ValueError
| IndexError
| KeyError.

Record exn : Type := Raise { exn_cls : exn_class; exn_msg : string }.

Definition class_eqb (a b : exn_class) : bool :=
  match a, b with
  | TileRunError, TileRunError | SCMError, SCMError | Error, Error
  | ConfigurationError, ConfigurationError
  | NameError, NameError | UnboundLocalError, UnboundLocalError
  | OSError, OSError | FileNotFoundError, FileNotFoundError
  | PermissionError, PermissionError | RuntimeError, RuntimeError
  | ValueError, ValueError | IndexError, IndexError
  | KeyError, KeyError => true
  | _, _ => false
  end.

(** [subclass a b]: class [a] is [b] or derives from it. *)
Definition subclass (a b : exn_class) : bool :=
  class_eqb a b ||
  match a, b with
  | SCMError, TileRunError => true
  | UnboundLocalError, NameError => true
  | FileNotFoundError, OSError => true
  | PermissionError, OSError => true
  | _, _ => false
  end.

Definition isinstance (e : exn) (c : exn_class) : bool :=
  subclass (exn_cls e) c.

(** [except (c1, c2, ...)] *)
Definition isinstance_any (e : exn) (cs : list exn_class) : bool :=
  existsb (isinstance e) cs.

(** ['{:04d}'.format(n)] and ['{:02d}'.format(n)] for a non-negative
    integer: decimal digits, zero-padded on the left to the width. *)
Fixpoint zeros (k : nat) : string :=
  match k with O => "" | S k' => String "0" (zeros k') end.

Definition str_N (n : N) : string := NilZero.string_of_uint (N.to_uint n).

Definition format_0wd (w : nat) (n : N) : string :=
  let s := str_N n in zeros (w - String.length s) ++ s.

(** [os.path.join(a, b)] on POSIX. *)
Fixpoint last_char (s : string) : option ascii :=
  match s with
  | EmptyString => None
  | String c EmptyString => Some c
  | String _ s' => last_char s'
  end.

Definition is_slash (c : option ascii) : bool :=
  match c with Some c => Ascii.eqb c "/" | None => false end.

Definition pjoin (a b : string) : string :=
  if is_slash (String.get 0 b) then b
  else if (String.eqb a "") || is_slash (last_char a) then a ++ b
  else a ++ "/" ++ b.

(** [os.path.splitext(name)] for a name without directory part: split
    at the last dot that is preceded by a character other than a dot. *)
Fixpoint splitext_from (seen_nondot : bool) (s : string)
  : string * string :=
  match s with
  | EmptyString => (EmptyString, EmptyString)
  | String c s' =>
      let is_dot := Ascii.eqb c "." in
      let '(root, ext) := splitext_from (seen_nondot || negb is_dot) s' in
      match ext with
      | EmptyString =>
          if is_dot && seen_nondot then (EmptyString, String c (root ++ ext))
          else (String c root, EmptyString)
      | _ => (String c root, ext)
      end
  end.

Definition splitext (s : string) : string * string :=
  splitext_from false s.

End Py.
Import Py.

(* ================================================================= *)
(** ** Dates and times *)

Module Time.

(** [datetime.datetime] *)
Record datetime : Type := Datetime {
  year : Z; month : Z; day : Z;
  hour : Z; minute : Z; second : Z; microsecond : Z }.

(** Days from 1970-01-01 to the given proleptic Gregorian date. *)
Definition days_from_civil (y m d : Z) : Z :=
  let y' := if m <=? 2 then y - 1 else y in
  let era := y' / 400 in
  let yoe := y' - era * 400 in
  let mp := if m <=? 2 then m + 9 else m - 3 in
  let doy := (153 * mp + 2) / 5 + d - 1 in
  let doe := yoe * 365 + yoe / 4 - yoe / 100 + doy in
  era * 146097 + doe - 719468.

(** Microseconds from the epoch to a (naive) datetime. *)
Definition to_microseconds (t : datetime) : Z :=
  (((days_from_civil (year t) (month t) (day t) * 24 + hour t) * 60
    + minute t) * 60 + second t) * 1000000 + microsecond t.

(** [(a - b).seconds]: a [timedelta] is normalised to days, seconds in
    [0, 86400) and microseconds in [0, 10^6). *)
Definition timedelta_seconds (a b : datetime) : Z :=
  ((to_microseconds a - to_microseconds b) / 1000000) mod 86400.

(** [t.strftime('%Y%m%d')]; the year is written with four digits. *)
Definition strftime_Ymd (t : datetime) : string :=
  format_0wd 4 (Z.to_N (year t)) ++ format_0wd 2 (Z.to_N (month t))
  ++ format_0wd 2 (Z.to_N (day t)).

(** [int(s)] for a string of decimal digits. *)
Definition digit_value (c : ascii) : Z := Z.of_nat (nat_of_ascii c) - 48.

Fixpoint int_from (acc : Z) (s : string) : Z :=
  match s with
  | EmptyString => acc
  | String c s' => int_from (acc * 10 + digit_value c) s'
  end.

Definition int (s : string) : Z := int_from 0 s.

(** [int(t.strftime('%Y%m%d'))] *)
Definition int_strftime_Ymd (t : datetime) : Z := int (strftime_Ymd t).

(** [t.strftime('%Y%m%d_%H%M%S')] *)
Definition strftime_Ymd_HMS (t : datetime) : string :=
  strftime_Ymd t ++ "_"
  ++ format_0wd 2 (Z.to_N (hour t)) ++ format_0wd 2 (Z.to_N (minute t))
  ++ format_0wd 2 (Z.to_N (second t)).

(** Rounding of the rational [x / den] ([den] positive) to the nearest
    integer, ties to the even one: the rounding of IEEE 754 arithmetic
    and of [np.round]. *)
Definition round_half_even (x den : Z) : Z :=
  let q := x / den in
  let r := x mod den in
  if 2 * r <? den then q
  else if den <? 2 * r then q + 1
  else if Z.even q then q else q + 1.

(** Rounding of the rational [n / d], not negative, to the nearest
    integer that has at most 53 significant bits. *)
Definition round_sig53 (n d : Z) : Z :=
  let s := Z.max (Z.log2 (n / d) - 52) 0 in
  round_half_even n (d * 2 ^ s) * 2 ^ s.

(** A float64 is kept as the integer number of units of 2^-1074, the
    smallest positive float64, that it holds: the finite float64 are
    the integers of at most 53 significant bits, with their sign. *)
Definition float64_unit : Z := 2 ^ 1074.

(** The float64 nearest to an integer, by its integer value. *)
Definition float64_of_int (x : Z) : Z :=
  Z.sgn x * round_sig53 (Z.abs x) 1.

(** [a / b] in float64, for float64 of integer values [a] and [b],
    [b] positive; the result in units of 2^-1074. *)
Definition float64_div (a b : Z) : Z :=
  Z.sgn a * round_sig53 (Z.abs a * float64_unit) b.

(** [np.round(f)] of a float64 given in units of 2^-1074, as an
    integer. *)
Definition np_round (f : Z) : Z := round_half_even f float64_unit.

Definition is_int64 (x : Z) : bool :=
  (- 2 ^ 63 <=? x) && (x <? 2 ^ 63).

(** [np.round(x / den)] in float64, for an integer [x] and a float [den]
    of integer value: [x] is converted to float64, divided in float64,
    and the quotient rounded. *)
Definition np_round_div_float64 (x den : Z) : Z :=
  np_round (float64_div (float64_of_int x) den).

(** [np.round(x / den)] for an element [x] of an int64 array and the
    float [den] (1.e9 in [_time_to_ifs]).  An int64 array holds no
    integer beyond the int64; for such an [x] the quotient is rounded as
    it is. *)
Definition np_round_div (x den : Z) : Z :=
  if is_int64 x then np_round_div_float64 x den
  else round_half_even x den.

Definition ns_per_s : Z := 1000000000.

(** The three coordinates that [_time_to_ifs] installs on the tile
    dataset: [time] is [timedelta64[s]], [second] is [timedelta64[s]],
    [date] is an integer. *)
Record ifs_coords : Type := IfsCoords {
  time_coord : list Z;
  date_coord : list Z;
  second_coord : list Z }.

(** [SCMTileRunner._time_to_ifs]; [tile_time] is the tile's time
    coordinate as [datetime64[ns]] integers. *)
Definition _time_to_ifs (start_time : datetime) (tile_time : list Z)
  : exn + ifs_coords :=
  let number_times := List.length tile_time in
  let reference_time := start_time in
  let reference_date :=
    Datetime (year reference_time) (month reference_time)
             (day reference_time) 0 0 0 0 in
  let date_values :=
    repeat (int_strftime_Ymd reference_date) number_times in
  let second_values :=
    repeat (timedelta_seconds reference_time reference_date)
           number_times in
  let time_int := tile_time in
  let time_rounded := map (fun x => np_round_div x ns_per_s) time_int in
  let time_rs := time_rounded in
  match time_rs with
  | [] =>
      inl (Raise IndexError
             "index 0 is out of bounds for axis 0 with size 0")
  | t0 :: _ =>
      let time_values := map (fun t => t - t0) time_rs in
      inr (IfsCoords time_values date_values second_values)
  end.

(** [np.datetime64('{}+0000'.format(start_time.strftime('%FT%T')))]:
    the reference time to the second, as [datetime64[s]]. *)
Definition base_time (start_time : datetime) : Z :=
  to_microseconds start_time / 1000000.

(** [dataset.coords['time'].values + base_time] in [post_process]. *)
Definition rebase_time (start_time : datetime) (values : list Z)
  : list Z :=
  map (fun v => v + base_time start_time) values.

(** The round trip of the two transforms on a time coordinate. *)
Definition time_round_trip (start_time : datetime) (tile_time : list Z)
  : exn + list Z :=
  match _time_to_ifs start_time tile_time with
  | inl e => inl e
  | inr c => inr (rebase_time start_time (time_coord c))
  end.

(** The fields of a [datetime] lie within these bounds. *)
Definition valid_datetime (t : datetime) : bool :=
  (1 <=? year t) && (year t <=? 9999) && (1 <=? month t)
  && (month t <=? 12) && (1 <=? day t) && (day t <=? 31)
  && (0 <=? hour t) && (hour t <? 24) && (0 <=? minute t)
  && (minute t <? 60) && (0 <=? second t) && (second t <? 60)
  && (0 <=? microsecond t) && (microsecond t <? 1000000).

(** [r] whole seconds is a nearest whole second to [t] nanoseconds. *)
Definition nearest_second (r t : Z) : Prop :=
  2 * Z.abs (r * ns_per_s - t) <= ns_per_s.

(** [t] rounded to the nearest whole second, as [datetime64[s]]. *)
Definition rounded_to_second (tile_time : list Z) : list Z :=
  map (fun x => round_half_even x ns_per_s) tile_time.

End Time.

(* ================================================================= *)
(** ** Data shared by the runner and the post-processor *)

(** [scmtiles.grid_manager.Cell]: global column and row index. *)
Record Cell : Type := MkCell { x_global : N; y_global : N }.

(** [scmtiles.grid_manager.RectangularTile]: [tile_cells] is the sequence
    that [tile.cells()] yields. *)
Record Tile : Type := MkTile { tile_id : N; tile_cells : list Cell }.

(** [scmtiles.config.SCMTilesConfig], the fields the programs read. *)
Record SCMTilesConfig : Type := MkConfig {
  start_time : Time.datetime;
  xsize : N;
  ysize : N;
  xname : string;
  yname : string;
  input_directory : string;
  output_directory : string;
  template_directory : string }.

(** [subprocess.CompletedProcess] *)
Record CompletedProcess : Type := MkCompleted {
  returncode : Z;
  stdout : string;
  stderr : string }.

(** [scmtiles.runner.CellResult]: [outputs] is [None] for a failed run. *)
Record CellResult : Type := MkCellResult {
  cell : Cell;
  outputs : option (list string) }.

(** The data of one cell after [pp_cell]: the variables of the three
    model output files and the scalar grid coordinates of the cell. *)
Record CellDataset : Type := MkCellDataset {
  cell_time : list Z;
  cell_vars : list string;
  cell_y : Z;
  cell_x : Z }.

(** A dataset with a row and a column dimension: [ds_rows] lists the
    rows along the row dimension, each row lists its cells along the
    column dimension. *)
Record Dataset : Type := MkDataset {
  ds_time : list Z;
  ds_rows : list (list CellDataset) }.

(** What [load_coordinate_templates] returns: the grid coordinate values
    by index. *)
Record Templates : Type := MkTemplates {
  x_coord : list Z;
  y_coord : list Z }.

Inductive level : Type := INFO | ERROR.

Definition log_record : Type := (level * string)%type.

(** The double quote character, for messages. *)
Definition dquote : string := String (ascii_of_nat 34) EmptyString.

(** ['y{:04d}x{:04d}'.format(cell.y_global, cell.x_global)] *)
Definition cell_id (c : Cell) : string :=
  "y" ++ format_0wd 4 (y_global c) ++ "x" ++ format_0wd 4 (x_global c).

(** [str] of a list of strings. *)
Fixpoint str_items (l : list string) : string :=
  match l with
  | [] => ""
  | [s] => "'" ++ s ++ "'"
  | s :: l' => "'" ++ s ++ "', " ++ str_items l'
  end.

Definition str_list (l : list string) : string := "[" ++ str_items l ++ "]".

(* ================================================================= *)
(** ** The operating system, the model process and the libraries *)

(** Everything outside the two programs: the file system, the model
    executable, and the [scmtiles] and [xarray] libraries.  [W] is the
    state of that world; an operation returns the new world and either
    an exception or a result.  Operations that only read return no
    world. *)
Class OS (W : Type) : Type := {
  (* scmtiles.runner.TileRunner *)
  create_run_directory : W -> W * (exn + string);
  link_template : string -> W -> W * (exn + unit);
  (* self.get_cell(cell) followed by cell_ds.to_netcdf(path) *)
  get_cell_to_netcdf : Cell -> string -> W -> W * (exn + unit);
  (* str(cell) *)
  cell_str : Cell -> string;
  (* subprocess.run(['./master1c.exe'], cwd=run_directory, ...) *)
  subprocess_run : string -> W -> W * (exn + CompletedProcess);
  (* os.stat(path).st_size *)
  os_stat_size : string -> W -> exn + N;
  (* open(path, 'wb'), and f.write(data) on the file opened at path *)
  open_wb : string -> W -> W * (exn + unit);
  file_write : string -> string -> W -> W * (exn + unit);
  shutil_move : string -> string -> W -> W * (exn + unit);
  shutil_rmtree : string -> W -> W * (exn + unit);
  (* SCMTilesConfig.from_file(path) *)
  config_from_file : string -> W -> exn + SCMTilesConfig;
  (* GridManager(xsize, ysize, ntiles).decompose_by_rows() *)
  decompose_by_rows : N -> N -> N -> list Tile;
  (* config.input_file_pattern.format(time=config.start_time) *)
  input_file_name : SCMTilesConfig -> string;
  (* the body of the try block of load_coordinate_templates, on the
     file at the given path *)
  open_coordinates : string -> SCMTilesConfig -> W -> exn + Templates;
  (* [var.strip() for var in open('dropvars.txt').readlines()] *)
  read_dropvars : W -> exn + list string;
  (* xr.open_dataset(path, drop_variables=drop_list): time coordinate
     and variables of one file *)
  xr_open_dataset : string -> list string -> W
                    -> exn + (list Z * string);
  (* dataset.transpose(...).to_netcdf(path) *)
  to_netcdf : string -> Dataset -> W -> W * (exn + unit);
  scmtiles_version : string }.

(* ================================================================= *)
(** ** State and exception monad *)

Section Monad.

Context {W : Type}.

(** The world together with the records logged so far (latest last). *)
Definition state : Type := (W * list log_record)%type.

Definition M (A : Type) : Type := state -> state * (exn + A).

Definition ret {A} (a : A) : M A := fun s => (s, inr a).

Definition raise {A} (c : exn_class) (msg : string) : M A :=
  fun s => (s, inl (Raise c msg)).

(** Bare [raise] of a caught exception. *)
Definition reraise {A} (e : exn) : M A := fun s => (s, inl e).

Definition bind {A B} (m : M A) (k : A -> M B) : M B :=
  fun s =>
    match m s with
    | (s', inl e) => (s', inl e)
    | (s', inr a) => k a s'
    end.

(** An operation of the world. *)
Definition call {A} (op : W -> W * (exn + A)) : M A :=
  fun s =>
    let '(w', r) := op (fst s) in ((w', snd s), r).

(** An operation that only reads the world. *)
Definition read {A} (op : W -> exn + A) : M A :=
  fun s => (s, op (fst s)).

Definition logger (l : level) (msg : string) : M unit :=
  fun s => ((fst s, (snd s ++ [(l, msg)])%list), inr tt).

(** An observation of the world that cannot fail. *)
Definition get {A} (f : W -> A) : M A :=
  fun s => (s, inr (f (fst s))).

(** [try: body except cs1: h1 except cs2: h2 ...]: the first clause
    whose classes match handles the exception; an exception raised by
    a handler propagates. *)
Fixpoint dispatch {A} (e : exn)
         (clauses : list (list exn_class * (exn -> M A))) : M A :=
  match clauses with
  | [] => reraise e
  | (classes, handler) :: rest =>
      if isinstance_any e classes then handler e else dispatch e rest
  end.

Definition try_except {A} (body : M A)
           (clauses : list (list exn_class * (exn -> M A))) : M A :=
  fun s =>
    match body s with
    | (s', inl e) => dispatch e clauses s'
    | r => r
    end.

(** Reading a local variable that may not have been assigned. *)
Definition local {A} (name : string) (v : option A) : M A :=
  match v with
  | Some a => ret a
  | None =>
      raise UnboundLocalError
            ("local variable '" ++ name
             ++ "' referenced before assignment")
  end.

End Monad.

Arguments state : clear implicits.
Arguments M : clear implicits.

Notation "x <- m ;; k" := (bind m (fun x => k))
  (at level 61, m at next level, right associativity).
Notation "m ;;; k" := (bind m (fun _ => k))
  (at level 61, right associativity).

(* ================================================================= *)
(** ** openifs_scm.py: class SCMTileRunner *)

Module SCM.

(** The instance variables of an [SCMTileRunner]. *)
Record SCMTileRunner : Type := MkRunner {
  config : SCMTilesConfig;
  archive_failed_runs : bool }.

Definition expected_files : list string :=
  ["onecol.r"; "progvar.nc"; "diagvar.nc"; "diagvar2.nc"].

Definition archive_files : list string :=
  ["diagvar.nc"; "diagvar2.nc"; "progvar.nc"].

(** [self.config.start_time.strftime('%Y%m%d_%H%M%S')] *)
Definition date_id (self : SCMTileRunner) : string :=
  Time.strftime_Ymd_HMS (start_time (config self)).

(** ['{}.{}.{}{}'.format(af_name, date_id, cell_id, af_ext)] *)
Definition target_name (self : SCMTileRunner) (c : Cell) (af : string)
  : string :=
  let '(af_name, af_ext) := splitext af in
  af_name ++ "." ++ date_id self ++ "." ++ cell_id c ++ af_ext.

(** ['failed.{}.{}'.format(date_id, cell_id)] *)
Definition archive_name (self : SCMTileRunner) (c : Cell) : string :=
  "failed." ++ date_id self ++ "." ++ cell_id c.

Section Runner.

Context {W : Type} {os : OS W}.

(** [os.path.exists(path)]: whether [os.stat] succeeds. *)
Definition os_path_exists (path : string) (w : W) : bool :=
  match os_stat_size path w with inr _ => true | inl _ => false end.

(** [os.stat(path).st_size] of a path that exists. *)
Definition st_size (path : string) (w : W) : N :=
  match os_stat_size path w with inr n => n | inl _ => 0%N end.

Definition write_scm_input (self : SCMTileRunner) (c : Cell)
           (run_directory : string) : M W string :=
  let scm_input_file_path := pjoin run_directory "scm_in.nc" in
  call (get_cell_to_netcdf c scm_input_file_path) ;;;
  ret scm_input_file_path.

Definition setup_openifs_scm (self : SCMTileRunner) (c : Cell)
  : M W string :=
  run_directory <- call create_run_directory ;;
  call (link_template run_directory) ;;;
  _ <- write_scm_input self c run_directory ;;
  ret run_directory.

Definition _scm_runner (self : SCMTileRunner) (run_directory : string)
  : M W CompletedProcess :=
  try_except
    (command_result <- call (subprocess_run run_directory) ;;
     ret command_result)
    [ ([FileNotFoundError], fun _ =>
         raise SCMError
           ("Cannot locate executable master1c.exe in the template "
            ++ "directory: " ++ template_directory (config self)));
      ([OSError], fun _ =>
         raise SCMError
           ("Failed to run the executable master1c.exe, check the "
            ++ "program to ensure it is working"));
      ([PermissionError], fun _ =>
         raise SCMError
           ("Cannot execute the master1c.exe program, check the file "
            ++ "has the exectuable bit set in: "
            ++ template_directory (config self))) ].

(** [not os.path.exists(f_path) or os.stat(f_path).st_size == 0] *)
Definition missing_or_empty (f_path : string) (w : W) : bool :=
  negb (os_path_exists f_path w) || N.eqb (st_size f_path w) 0.

(** The [for] loop of [_check_for_run_failures] over the files that
    remain to be checked. *)
Fixpoint check_files (run_directory : string) (files : list string)
  : M W unit :=
  match files with
  | [] => ret tt
  | file_name :: rest =>
      let f_path := pjoin run_directory file_name in
      bad <- get (missing_or_empty f_path) ;;
      if (bad : bool) then
        raise SCMError
          ("SCM run did not complete correctly, " ++ dquote ++ f_path
           ++ dquote ++ " missing or empty.")
      else check_files run_directory rest
  end.

Definition _check_for_run_failures (self : SCMTileRunner)
           (run_directory : string) : M W unit :=
  check_files run_directory expected_files.

(** The [try] block of [run_openifs_scm], with the local variable
    [command_result] as it is when the block is left: unbound when
    [_scm_runner] raised. *)
Definition run_openifs_scm_try (self : SCMTileRunner)
           (run_directory : string)
  : state W -> state W * option CompletedProcess * (exn + unit) :=
  fun s0 =>
    match _scm_runner self run_directory s0 with
    | (s1, inl e) => (s1, None, inl e)
    | (s1, inr command_result) =>
        let '(s2, r) :=
          ((if negb (returncode command_result =? 0) then
              (* msg.format(exit_code): no such name *)
              raise NameError "name 'exit_code' is not defined"
            else ret tt) ;;;
           _check_for_run_failures self run_directory) s1 in
        (s2, Some command_result, r)
    end.

(** The captured output of the model is written into the run
    directory; an unbound [command_result] ends this silently. *)
Definition dump_output (run_directory : string)
           (command_result : option CompletedProcess) : M W unit :=
  try_except
    (call (open_wb (pjoin run_directory "stdout.txt")) ;;;
     cr <- local "command_result" command_result ;;
     call (file_write (pjoin run_directory "stdout.txt") (stdout cr)) ;;;
     call (open_wb (pjoin run_directory "stderr.txt")) ;;;
     cr <- local "command_result" command_result ;;
     call (file_write (pjoin run_directory "stderr.txt") (stderr cr)))
    [ ([UnboundLocalError], fun _ => ret tt) ].

(** The run directory is moved to the output directory. *)
Definition relocate (self : SCMTileRunner) (c : Cell)
           (run_directory : string) : M W unit :=
  let archive_directory :=
    pjoin (output_directory (config self)) (archive_name self c) in
  try_except
    (call (shutil_move run_directory archive_directory))
    [ ([PermissionError; FileNotFoundError], fun _ => ret tt) ].

(** The handler of [except SCMError] in [run_openifs_scm], before the
    exception is raised again. *)
Definition archive_failed_run (self : SCMTileRunner) (c : Cell)
           (run_directory : string)
           (command_result : option CompletedProcess) : M W unit :=
  if archive_failed_runs self then
    dump_output run_directory command_result ;;;
    relocate self c run_directory
  else ret tt.

Definition run_openifs_scm (self : SCMTileRunner) (c : Cell)
           (run_directory : string) : M W unit :=
  fun s0 =>
    let '(s1, command_result, body) :=
      run_openifs_scm_try self run_directory s0 in
    match body with
    | inr tt => (s1, inr tt)
    | inl e =>
        (* except SCMError: *)
        if isinstance e SCMError then
          (archive_failed_run self c run_directory command_result ;;;
           reraise e) s1
        else (s1, inl e)
    end.

(** The [for] loop of [archive_results] over the files that remain,
    [archived] being the list built so far. *)
Fixpoint archive_loop (self : SCMTileRunner) (c : Cell)
         (run_directory : string) (files : list string)
         (archived : list string) : M W (list string) :=
  match files with
  | [] => ret archived
  | af :: rest =>
      let source := pjoin run_directory af in
      let target :=
        pjoin (output_directory (config self)) (target_name self c af) in
      try_except
        (call (shutil_move source target))
        [ ([PermissionError], fun _ =>
             raise SCMError
               ("Cannot archive data to " ++ dquote
                ++ output_directory (config self) ++ dquote
                ++ ", permission denied."));
          ([FileNotFoundError], fun _ =>
             raise SCMError
               ("Cannot archive data to " ++ dquote
                ++ output_directory (config self) ++ dquote
                ++ ", it may not exist.")) ] ;;;
      archive_loop self c run_directory rest (archived ++ [target])%list
  end.

Definition archive_results (self : SCMTileRunner) (c : Cell)
           (run_directory : string) : M W (list string) :=
  archive_loop self c run_directory archive_files [].

(** The [finally] block of [run_cell]. *)
Definition run_cell_finally (self : SCMTileRunner)
           (run_successful : option bool)
           (run_directory : option string) : M W unit :=
  ok <- local "run_successful" run_successful ;;
  if (ok : bool) || negb (archive_failed_runs self) then
    try_except
      (rd <- local "run_directory" run_directory ;;
       call (shutil_rmtree rd))
      [ ([UnboundLocalError], fun _ => ret tt) ]
  else ret tt.

(** The [try] block of [run_cell], with the local variable
    [run_directory] as it is when the block is left: unbound when
    [setup_openifs_scm] raised. *)
Definition run_cell_try (self : SCMTileRunner) (c : Cell)
  : state W -> state W * option string * (exn + CellResult) :=
  fun s0 =>
    match setup_openifs_scm self c s0 with
    | (s1, inl e) => (s1, None, inl e)
    | (s1, inr run_directory) =>
        let '(s2, r) :=
          (run_openifs_scm self c run_directory ;;;
           output_files <- archive_results self c run_directory ;;
           logger INFO ("Run completed successfully for cell: "
                        ++ cell_str c ++ ".") ;;;
           ret (MkCellResult c (Some output_files))) s1 in
        (s2, Some run_directory, r)
    end.

Definition run_cell (self : SCMTileRunner) (c : Cell)
  : M W CellResult :=
  fun s0 =>
    let '(s1, run_directory, body) := run_cell_try self c s0 in
    match body with
    | inr cell_result =>
        (run_cell_finally self (Some true) run_directory ;;;
         ret cell_result) s1
    | inl e =>
        if isinstance_any e [SCMError; TileRunError] then
          (* except (SCMError, TileRunError) as e: *)
          (logger ERROR ("Run failed for cell: " ++ cell_str c ++ " ("
                         ++ exn_msg e ++ ").") ;;;
           run_cell_finally self (Some false) run_directory ;;;
           ret (MkCellResult c None)) s1
        else
          (* no clause matches: finally runs, then e propagates *)
          (run_cell_finally self None run_directory ;;;
           reraise e) s1
    end.

End Runner.

End SCM.

(* ================================================================= *)
(** ** openifs_pp_main.py: the post-processor *)

Module PP.

Definition __version__ : string := "1.0.alpha1".

Definition SCM_OUT_FILES : list string :=
  ["diagvar.nc"; "diagvar2.nc"; "progvar.nc"].

(** An [OrderedDict] from row index to the list of cell datasets of
    that row: the keys are kept in the order of their first
    insertion. *)
Definition grid_rows_t : Type := list (N * list CellDataset).

(** [try: grid_rows[key].append(v) except KeyError: grid_rows[key] = [v]] *)
Fixpoint od_append (key : N) (v : CellDataset) (od : grid_rows_t)
  : grid_rows_t :=
  match od with
  | [] => [(key, [v])]
  | (k, row) :: rest =>
      if N.eqb k key then (k, (row ++ [v])%list) :: rest
      else (k, row) :: od_append key v rest
  end.

(** [xr.auto_combine(ds_list)] of the datasets of the files of one
    cell: they share the time coordinate, the variables are merged. *)
Definition auto_combine (ds_list : list (list Z * string))
  : list Z * list string :=
  (match ds_list with [] => [] | d :: _ => fst d end, map snd ds_list).

(** [xr.concat(row, dim=config.xname)]: the cells of a row side by
    side, in the order of the list. *)
Definition xr_concat_x (row : list CellDataset) : exn + Dataset :=
  match row with
  | [] =>
      inl (Raise ValueError
                 "must supply at least one object to concatenate")
  | c :: _ => inr (MkDataset (cell_time c) [row])
  end.

(** [xr.concat(datasets, dim=config.yname)]: the rows of the datasets
    one after the other, in the order of the list. *)
Definition xr_concat_y (datasets : list Dataset) : exn + Dataset :=
  match datasets with
  | [] =>
      inl (Raise ValueError
                 "must supply at least one object to concatenate")
  | d :: _ => inr (MkDataset (ds_time d) (flat_map ds_rows datasets))
  end.

(** [ds[config.yname].values.max()] *)
Definition y_values_max (ds : Dataset) : exn + Z :=
  match map cell_y (List.concat (ds_rows ds)) with
  | [] =>
      inl (Raise ValueError
                 "zero-size array to reduction operation maximum")
  | y :: ys => inr (fold_left Z.max ys y)
  end.

(** [sorted(l, key=...)] on a list already decorated with its keys:
    stable, ascending. *)
Fixpoint insert_by_key {A} (x : Z * A) (l : list (Z * A))
  : list (Z * A) :=
  match l with
  | [] => [x]
  | y :: l' =>
      if fst x <=? fst y then x :: y :: l'
      else y :: insert_by_key x l'
  end.

Definition sort_by_key {A} (l : list (Z * A)) : list (Z * A) :=
  fold_right insert_by_key [] l.

(** The key function is applied to every element first; an exception
    it raises propagates. *)
Fixpoint decorate {A} (key : A -> exn + Z) (l : list A)
  : exn + list (Z * A) :=
  match l with
  | [] => inr []
  | a :: l' =>
      match key a with
      | inl e => inl e
      | inr k =>
          match decorate key l' with
          | inl e => inl e
          | inr kl => inr ((k, a) :: kl)
          end
      end
  end.

Definition sorted {A} (key : A -> exn + Z) (l : list A)
  : exn + list A :=
  match decorate key l with
  | inl e => inl e
  | inr kl => inr (map snd (sort_by_key kl))
  end.

(** [xr.concat(sorted([ds for ds, _ in results], key=...), dim=yname)] *)
Definition assemble_grid (tile_datasets : list Dataset) : exn + Dataset :=
  match sorted y_values_max tile_datasets with
  | inl e => inl e
  | inr l => xr_concat_y l
  end.

(** [str(n)] of an integer. *)
Definition str_Z (n : Z) : string := NilZero.string_of_int (Z.to_int n).

Section PostProcessor.

Context {W : Type} {os : OS W}.

Definition load_coordinate_templates (config : SCMTilesConfig)
  : M W Templates :=
  let filename := input_file_name config in
  let filepath := pjoin (input_directory config) filename in
  try_except
    (read (open_coordinates filepath config))
    [ ([RuntimeError], fun e =>
         raise Error ("Failed to open input file " ++ dquote
                      ++ filepath ++ dquote ++ ": " ++ exn_msg e));
      ([ValueError], fun _ =>
         raise Error
           ("Failed to extract template coordinates, check grid "
            ++ "dimensions in configuration match those in the files"))
    ].

(** [[xr.open_dataset(fp, drop_variables=drop_list) for fp in filepaths]] *)
Fixpoint open_datasets (filepaths : list string)
         (drop_list : list string) : M W (list (list Z * string)) :=
  match filepaths with
  | [] => ret []
  | fp :: rest =>
      ds <- read (xr_open_dataset fp drop_list) ;;
      ds_list <- open_datasets rest drop_list ;;
      ret (ds :: ds_list)
  end.

(** [coordinate[i]] *)
Definition getitem (coordinate : list Z) (i : N) : M W Z :=
  match nth_error coordinate (N.to_nat i) with
  | Some v => ret v
  | None => raise IndexError "index out of bounds"
  end.

Definition pp_cell (c : Cell) (timestamp : string)
           (coordinate_templates : Templates)
           (drop_list : list string) (config : SCMTilesConfig)
  : M W (CellDataset * string) :=
  let dirname := timestamp ++ "." ++ cell_id c in
  let dirpath := pjoin (output_directory config) dirname in
  let filepaths :=
    map (fun filename => pjoin dirpath filename) SCM_OUT_FILES in
  cell_ds <-
    try_except
      (ds_list <- open_datasets filepaths drop_list ;;
       ret (auto_combine ds_list))
      [ ([OSError; RuntimeError], fun _ =>
           raise Error ("The input files " ++ dquote
                        ++ str_list filepaths ++ dquote
                        ++ " cannot be read, do they exist?")) ] ;;
  x_value <- getitem (x_coord coordinate_templates) (x_global c) ;;
  y_value <- getitem (y_coord coordinate_templates) (y_global c) ;;
  ret (MkCellDataset (fst cell_ds) (snd cell_ds) y_value x_value,
       dirpath).

(** The first [for] loop of [pp_tile], over the cells that remain. *)
Fixpoint pp_tile_cells (config : SCMTilesConfig) (timestamp : string)
         (coordinate_templates : Templates) (drop_list : list string)
         (cells : list Cell) (grid_rows : grid_rows_t)
         (filepaths : list string)
  : M W (grid_rows_t * list string) :=
  match cells with
  | [] => ret (grid_rows, filepaths)
  | c :: rest =>
      r <- pp_cell c timestamp coordinate_templates drop_list config ;;
      let '(cell_ds, cell_filepath) := r in
      pp_tile_cells config timestamp coordinate_templates drop_list
                    rest (od_append (y_global c) cell_ds grid_rows)
                    (filepaths ++ [cell_filepath])%list
  end.

(** The second [for] loop of [pp_tile]: every row is concatenated
    along the column dimension; the values of the dictionary in the
    order of its keys. *)
Fixpoint concat_rows (grid_rows : grid_rows_t) : M W (list Dataset) :=
  match grid_rows with
  | [] => ret []
  | (_, row) :: rest =>
      d <- read (fun _ => xr_concat_x row) ;;
      ds <- concat_rows rest ;;
      ret (d :: ds)
  end.

Definition pp_tile (config : SCMTilesConfig) (timestamp : string)
           (coordinate_templates : Templates) (drop_list : list string)
           (tile : Tile) : M W (Dataset * list string) :=
  r <- pp_tile_cells config timestamp coordinate_templates drop_list
                     (tile_cells tile) [] [] ;;
  let '(grid_rows, filepaths) := r in
  values <- concat_rows grid_rows ;;
  tile_ds <-
    (if (1 <? List.length values)%nat then
       read (fun _ => xr_concat_y values)
     else
       match values with
       | [d] => ret d
       | _ => raise ValueError "not enough values to unpack"
       end) ;;
  logger INFO ("processing of tile #" ++ str_N (tile_id tile)
               ++ " completed") ;;;
  ret (tile_ds, filepaths).

(** [process_pool.map(f, tiles)]: the results in the order of the
    tiles; an exception raised for a tile is raised again by [map]. *)
Fixpoint pool_map {A B} (f : A -> M W B) (l : list A) : M W (list B) :=
  match l with
  | [] => ret []
  | a :: l' =>
      b <- f a ;;
      bs <- pool_map f l' ;;
      ret (b :: bs)
  end.

(** The loops that delete the directories of the cells. *)
Fixpoint delete_directories (dirs : list string) : M W unit :=
  match dirs with
  | [] => ret tt
  | dp :: rest =>
      call (shutil_rmtree dp) ;;;
      logger INFO ("deleted: " ++ dp) ;;;
      delete_directories rest
  end.

Definition post_process (config_file_path : string)
           (num_processes : Z) (delete_cell_files : bool) : M W unit :=
  (if num_processes <? 1 then
     raise Error "number of processes must be positive"
   else ret tt) ;;;
  config <-
    try_except
      (read (config_from_file config_file_path))
      [ ([ConfigurationError], fun e => raise Error (exn_msg e)) ] ;;
  let tiles :=
    decompose_by_rows (xsize config) (ysize config) (ysize config) in
  logger INFO "loading coordinate templates" ;;;
  coordinate_templates <- load_coordinate_templates config ;;
  let timestamp := Time.strftime_Ymd_HMS (start_time config) in
  drop_list <-
    try_except (read read_dropvars)
               [ ([OSError], fun _ => ret []) ] ;;
  logger INFO ("dispatching tiles to " ++ str_Z num_processes
               ++ " workers") ;;;
  results <-
    pool_map (pp_tile config timestamp coordinate_templates drop_list)
             tiles ;;
  dataset <- read (fun _ => assemble_grid (map fst results)) ;;
  let dataset :=
    MkDataset (Time.rebase_time (start_time config) (ds_time dataset))
              (ds_rows dataset) in
  let output_filename := "scm_out." ++ timestamp ++ ".nc" in
  let output_filepath :=
    pjoin (output_directory config) output_filename in
  logger INFO ("writing combined output file: " ++ output_filepath) ;;;
  try_except
    (call (to_netcdf output_filepath dataset))
    [ ([RuntimeError], fun e =>
         (* Error('failed write grid to disk: ...') is built,
            nothing is raised *)
         ret tt) ] ;;;
  if delete_cell_files then
    logger INFO "deleting individual column files" ;;;
    delete_directories (List.concat (map snd results))
  else ret tt.

(** [main] after the parsing of the command line; the result is the
    exit status. *)
Definition main (argv0 : string) (config_file_path : string)
           (num_processes : Z) (delete : bool) : M W Z :=
  try_except
    (logger INFO ("Running " ++ argv0 ++ " at version " ++ __version__) ;;;
     logger INFO ("Backend scmtiles is version " ++ scmtiles_version) ;;;
     post_process config_file_path num_processes delete ;;;
     ret 0)
    [ ([Error], fun e =>
         logger ERROR ("error: " ++ exn_msg e) ;;;
         ret 1) ].

End PostProcessor.

End PP.

(* ================================================================= *)
(** ** A small file system on which the programs can be run *)

Module Disk.

Inductive node : Type :=
| File (data : string)
| Locked (data : string)   (* a file that can be neither replaced nor removed *)
| Dir (writable : bool).

(** What the model executable does when started in a directory: exit
    status, captured output, and the files it leaves there. *)
Record behaviour : Type := MkBehaviour {
  exit_status : Z;
  out : string;
  err : string;
  written : list (string * string) }.

Record world : Type := MkWorld {
  disk : list (string * node);
  (* the directories create_run_directory will hand out *)
  fresh : list string;
  (* the template directory that link_template links from *)
  template : string;
  (* the model's behaviour by working directory *)
  model : list (string * behaviour);
  (* configuration files by path *)
  configs : list (string * SCMTilesConfig);
  (* grid coordinates stored in input files, by path *)
  coordinates : list (string * Templates);
  (* the time coordinate the model writes to its output files *)
  output_time : list Z }.

Fixpoint assoc {A} (k : string) (l : list (string * A)) : option A :=
  match l with
  | [] => None
  | (k', a) :: l' => if String.eqb k k' then Some a else assoc k l'
  end.

Definition lookup (p : string) (w : world) : option node :=
  assoc p (disk w).

Definition set_disk (d : list (string * node)) (w : world) : world :=
  MkWorld d (fresh w) (template w) (model w) (configs w)
          (coordinates w) (output_time w).

(** [p] is [d] or lies below it. *)
Definition under (d p : string) : bool :=
  String.eqb p d || String.prefix (d ++ "/") p.

(** Position of the last slash of a path, if any. *)
Fixpoint last_slash (s : string) (i : nat) (found : option nat)
  : option nat :=
  match s with
  | EmptyString => found
  | String c s' =>
      last_slash s' (S i) (if Ascii.eqb c "/" then Some i else found)
  end.

Definition dirname (p : string) : string :=
  match last_slash p 0 None with
  | Some i => substring 0 i p
  | None => ""
  end.

Definition basename (p : string) : string :=
  match last_slash p 0 None with
  | Some i => substring (S i) (String.length p - S i) p
  | None => p
  end.

Definition remove (p : string) (d : list (string * node))
  : list (string * node) :=
  filter (fun e => negb (String.eqb (fst e) p)) d.

Definition put (p : string) (n : node) (d : list (string * node))
  : list (string * node) :=
  (remove p d ++ [(p, n)])%list.

Definition parent_check (p : string) (w : world) : option exn :=
  match lookup (dirname p) w with
  | Some (Dir true) => None
  | Some (Dir false) => Some (Raise PermissionError "Permission denied")
  | _ => Some (Raise FileNotFoundError "No such file or directory")
  end.

Definition stat_size (p : string) (w : world) : exn + N :=
  match lookup p w with
  | Some (File data) | Some (Locked data) =>
      inr (N.of_nat (String.length data))
  | Some (Dir _) => inr 4096%N
  | None => inl (Raise FileNotFoundError "No such file or directory")
  end.

Definition create_file (p : string) (data : string) (w : world)
  : world * (exn + unit) :=
  match lookup p w with
  | Some (Dir _) => (w, inl (Raise OSError "Is a directory"))
  | Some (Locked _) =>
      (w, inl (Raise PermissionError "Operation not permitted"))
  | _ =>
      match parent_check p w with
      | Some e => (w, inl e)
      | None => (set_disk (put p (File data) (disk w)) w, inr tt)
      end
  end.

Definition rmtree (d : string) (w : world) : world * (exn + unit) :=
  match lookup d w with
  | None => (w, inl (Raise FileNotFoundError "No such file or directory"))
  | Some (File _) | Some (Locked _) =>
      (w, inl (Raise OSError "Not a directory"))
  | Some (Dir _) =>
      if existsb (fun e => under d (fst e)
                           && match snd e with Locked _ => true | _ => false end)
                 (disk w)
      then (w, inl (Raise PermissionError "Operation not permitted"))
      else
        (set_disk (filter (fun e => negb (under d (fst e))) (disk w)) w,
         inr tt)
  end.

(** Rename the entry at [src], and everything below it, to [dst]. *)
Definition rebase_path (src dst p : string) : string :=
  dst ++ substring (String.length src)
                   (String.length p - String.length src) p.

Definition rename_tree (src dst : string) (d : list (string * node))
  : list (string * node) :=
  let moved := filter (fun e => under src (fst e)) d in
  let kept :=
    filter (fun e => negb (under src (fst e)) && negb (under dst (fst e)))
           d in
  (kept ++ map (fun e => (rebase_path src dst (fst e), snd e)) moved)%list.

Definition move (src dst : string) (w : world) : world * (exn + unit) :=
  match lookup src w with
  | None => (w, inl (Raise FileNotFoundError "No such file or directory"))
  | Some _ =>
      let into_dir :=
        match lookup dst w with Some (Dir _) => true | _ => false end in
      let real_dst := if into_dir then pjoin dst (basename src) else dst in
      match (if into_dir then lookup real_dst w else None),
            lookup real_dst w with
      | Some _, _ =>
          (w, inl (Raise OSError "Destination path already exists"))
      | None, Some (Locked _) =>
          (w, inl (Raise PermissionError "Operation not permitted"))
      | None, _ =>
          match parent_check real_dst w with
          | Some e => (w, inl e)
          | None =>
              (set_disk (rename_tree src real_dst (disk w)) w, inr tt)
          end
      end
  end.

Definition mkdtemp (w : world) : world * (exn + string) :=
  match fresh w with
  | [] => (w, inl (Raise TileRunError "cannot create run directory"))
  | d :: rest =>
      match parent_check d w with
      | Some _ =>
          (w, inl (Raise TileRunError "cannot create run directory"))
      | None =>
          (MkWorld (put d (Dir true) (disk w)) rest (template w) (model w)
                   (configs w) (coordinates w) (output_time w),
           inr d)
      end
  end.

Definition link (run_directory : string) (w : world)
  : world * (exn + unit) :=
  match lookup (pjoin (template w) "master1c.exe") w with
  | Some (File data) | Some (Locked data) =>
      create_file (pjoin run_directory "master1c.exe") data w
  | _ => (w, inl (Raise TileRunError "cannot link template"))
  end.

Fixpoint write_all (d : string) (files : list (string * string))
         (w : world) : world :=
  match files with
  | [] => w
  | (name, data) :: rest =>
      write_all d rest (fst (create_file (pjoin d name) data w))
  end.

Definition run_model (cwd : string) (w : world)
  : world * (exn + CompletedProcess) :=
  match lookup (pjoin cwd "master1c.exe") w with
  | None => (w, inl (Raise FileNotFoundError "No such file or directory"))
  | Some (Dir _) => (w, inl (Raise PermissionError "Permission denied"))
  | Some (File _) | Some (Locked _) =>
      match assoc cwd (model w) with
      | None => (w, inl (Raise OSError "Exec format error"))
      | Some b =>
          (write_all cwd (written b) w,
           inr (MkCompleted (exit_status b) (out b) (err b)))
      end
  end.

Definition open_dataset (p : string) (drop_list : list string)
           (w : world) : exn + (list Z * string) :=
  match lookup p w with
  | Some (File data) | Some (Locked data) =>
      if String.eqb data "" then inl (Raise OSError "Unknown file format")
      else inr (output_time w, data)
  | Some (Dir _) => inl (Raise OSError "Is a directory")
  | None => inl (Raise FileNotFoundError "No such file or directory")
  end.

Definition write_netcdf (p : string) (ds : Dataset) (w : world)
  : world * (exn + unit) :=
  match create_file p "netcdf" w with
  | (w', inl e) => (w', inl (Raise RuntimeError (exn_msg e)))
  | r => r
  end.

Definition one_tile_per_row (xs ys ntiles : N) : list Tile :=
  map (fun y =>
         MkTile (N.of_nat y)
                (map (fun x => MkCell (N.of_nat x) (N.of_nat y))
                     (seq 0 (N.to_nat xs))))
      (seq 0 (N.to_nat ys)).

#[export] Instance disk_os : OS world := {
  create_run_directory := mkdtemp;
  link_template := link;
  get_cell_to_netcdf := fun c path => create_file path "scm_in";
  cell_str := cell_id;
  subprocess_run := run_model;
  os_stat_size := stat_size;
  open_wb := fun path => create_file path "";
  file_write := fun path data => create_file path data;
  shutil_move := move;
  shutil_rmtree := rmtree;
  config_from_file := fun path w =>
    match assoc path (configs w) with
    | Some c => inr c
    | None => inl (Raise ConfigurationError "cannot read configuration")
    end;
  decompose_by_rows := one_tile_per_row;
  input_file_name := fun c =>
    "scm_in." ++ Time.strftime_Ymd_HMS (start_time c) ++ ".nc";
  open_coordinates := fun path c w =>
    match assoc path (coordinates w) with
    | Some t => inr t
    | None => inl (Raise RuntimeError "No such file or directory")
    end;
  read_dropvars := fun w =>
    match lookup "dropvars.txt" w with
    | Some (File data) | Some (Locked data) => inr [data]
    | _ => inl (Raise FileNotFoundError "No such file or directory")
    end;
  xr_open_dataset := open_dataset;
  to_netcdf := write_netcdf;
  scmtiles_version := "1.0" }.

End Disk.

(* ================================================================= *)
(** ** Vocabulary of the properties *)

(** ['{:0wd}'.format(n)] has [w] characters and [int] reads [n] back
    from it. *)
Definition reads_back (w : nat) (n : nat) : bool :=
  (String.length (format_0wd w (N.of_nat n)) =? w)%nat
  && (Time.int_from 0 (format_0wd w (N.of_nat n)) =? Z.of_nat n).

(** Ascending order of decorated elements by their key. *)
Definition key_le {A} (x y : Z * A) : Prop := fst x <= fst y.

(** Row-major order of cells: ascending [y_global], then ascending
    [x_global]. *)
Definition cell_lt (a b : Cell) : Prop :=
  (y_global a < y_global b
   \/ (y_global a = y_global b /\ x_global a < x_global b))%N.

(** A computation that leaves the world and the log as they are. *)
Definition reads {W A} (m : M W A) : Prop := forall s, fst (m s) = s.

Section RunnerVocabulary.

Context {W : Type} {os : OS W}.

(** The state once [shutil.rmtree(run_directory)] has been called. *)
Definition removed (run_directory : string) (s : state W) : state W :=
  (fst (shutil_rmtree run_directory (fst s)), snd s).

(** What [run_cell] returns after [shutil.rmtree(run_directory)] in its
    [finally] block: the result it had, unless the call raised. *)
Definition after_rmtree {A} (run_directory : string) (s : state W)
           (result : A) : exn + A :=
  match snd (shutil_rmtree run_directory (fst s)) with
  | inr _ => inr result
  | inl e => if isinstance e UnboundLocalError then inr result else inl e
  end.

(** The state once [shutil.move(src, dst)] has been called. *)
Definition moved_to (src dst : string) (s : state W) : state W :=
  (fst (shutil_move src dst (fst s)), snd s).

(** The moves of the listed (source, target) pairs, one after the other
    and each without an exception, lead from world [w] to world [w']. *)
Fixpoint moved (pairs : list (string * string)) (w w' : W) : Prop :=
  match pairs with
  | [] => w' = w
  | (src, dst) :: rest =>
      exists w1, shutil_move src dst w = (w1, inr tt) /\ moved rest w1 w'
  end.

(** [shutil.move(src, dst)] in world [w] returns, or raises one of the
    two exceptions that the relocation of a failed run swallows. *)
Definition move_ok_or_swallowed (src dst : string) (w : W) : Prop :=
  snd (shutil_move src dst w) = inr tt
  \/ exists e, snd (shutil_move src dst w) = inl e
               /\ isinstance_any e [PermissionError; FileNotFoundError]
                  = true.

(** The records that [run_cell] logs. *)
Definition success_record (c : Cell) : log_record :=
  (INFO, "Run completed successfully for cell: " ++ cell_str c ++ ".").

Definition failure_record (c : Cell) (e : exn) : log_record :=
  (ERROR, "Run failed for cell: " ++ cell_str c ++ " (" ++ exn_msg e ++ ").").

Definition logged (r : log_record) (s : state W) : state W :=
  (fst s, (snd s ++ [r])%list).

End RunnerVocabulary.

(** A cell together with what [pp_cell] returned for it. *)
Definition loaded_cell : Type := (Cell * (CellDataset * string))%type.

Definition row_index (p : loaded_cell) : N := y_global (fst p).

Definition column_index (p : loaded_cell) : N := x_global (fst p).

Definition dataset_of (p : loaded_cell) : CellDataset := fst (snd p).

(** One pass of the first loop of [pp_tile] on the dictionary. *)
Definition group_step (od : PP.grid_rows_t) (p : loaded_cell)
  : PP.grid_rows_t :=
  PP.od_append (row_index p) (dataset_of p) od.

(** A row of a tile: not empty, of a single row index, its cells in
    ascending column index. *)
Definition row_ok (row : list loaded_cell) : Prop :=
  row <> []
  /\ (forall p q, In p row -> In q row -> row_index p = row_index q)
  /\ StronglySorted (fun p q => (column_index p < column_index q)%N) row.

(** Every cell of the first row lies below every cell of the second. *)
Definition row_lt (r1 r2 : list loaded_cell) : Prop :=
  forall p q, In p r1 -> In q r2 -> (row_index p < row_index q)%N.

(** The dictionary that holds the given rows. *)
Definition dict_of_rows (rows : list (list loaded_cell)) : PP.grid_rows_t :=
  map (fun row => (match row with [] => 0%N | p :: _ => row_index p end,
                   map dataset_of row)) rows.

(** What the first loop of [pp_tile] has built after the cells [items],
    when they came in row-major order. *)
Definition grouped (od : PP.grid_rows_t) (items : list loaded_cell) : Prop :=
  exists rows,
    List.concat rows = items
    /\ od = dict_of_rows rows
    /\ Forall row_ok rows
    /\ StronglySorted row_lt rows.

(** The indices of the cell lie within the coordinates of the grid. *)
Definition in_grid (t : Templates) (c : Cell) : Prop :=
  (N.to_nat (x_global c) < List.length (x_coord t))%nat
  /\ (N.to_nat (y_global c) < List.length (y_coord t))%nat.

(** The directory in which [pp_cell] looks for the output of a cell. *)
Definition cell_directory (config : SCMTilesConfig) (c : Cell) : string :=
  pjoin (output_directory config)
        (Time.strftime_Ymd_HMS (start_time config) ++ "." ++ cell_id c).

(** The list of variables to drop that [post_process] works with. *)
Definition drop_list_in {W} {os : OS W} (w : W) : list string :=
  match read_dropvars w with inr l => l | inl _ => [] end.

(** The dataset of one row: its cells side by side. *)
Definition row_dataset (row : list loaded_cell) : Dataset :=
  MkDataset (match row with [] => [] | p :: _ => cell_time (dataset_of p) end)
            [map dataset_of row].

(* ================================================================= *)
(** ** Concrete runs *)

Module Scenario.

Import Disk.

(** Two tiles of one row each, with row coordinates 10 and 20. *)
Definition south_tile : Dataset :=
  MkDataset [0; 900]
    [[MkCellDataset [0; 900] ["d"; "d2"; "p"] 10 100;
      MkCellDataset [0; 900] ["d"; "d2"; "p"] 10 101]].

Definition north_tile : Dataset :=
  MkDataset [0; 900]
    [[MkCellDataset [0; 900] ["d"; "d2"; "p"] 20 100;
      MkCellDataset [0; 900] ["d"; "d2"; "p"] 20 101]].

Definition cfg : SCMTilesConfig :=
  MkConfig (Time.Datetime 2009 4 6 1 0 0 0) 2 2 "lon" "lat"
           "/in" "/out" "/tpl".

Definition grid : Templates := MkTemplates [100; 101] [10; 20].

(** The output of a cell as the post-processor looks for it. *)
Definition cell_output (c : Cell) : list (string * node) :=
  let d := "/out/20090406_010000." ++ cell_id c in
  [(d, Dir true); (d ++ "/diagvar.nc", File "d");
   (d ++ "/diagvar2.nc", File "d2"); (d ++ "/progvar.nc", File "p")].

Definition pp_world (cells : list Cell) : world :=
  MkWorld (("/out", Dir true) :: flat_map cell_output cells) []
          "/tpl" [] [("scm.cfg", cfg)]
          [("/in/scm_in.20090406_010000.nc", grid)] [0; 900].

Definition c00 : Cell := MkCell 0 0.
Definition c10 : Cell := MkCell 1 0.
Definition c01 : Cell := MkCell 0 1.
Definition c11 : Cell := MkCell 1 1.

(** The model run in a working directory: what a complete run leaves,
    a run whose diagvar.nc is empty, and a run that exits with
    status 1. *)
Definition complete_run : behaviour :=
  MkBehaviour 0 "out" "err"
    [("onecol.r", "r"); ("progvar.nc", "p"); ("diagvar.nc", "d");
     ("diagvar2.nc", "d2")].

Definition empty_diagvar : behaviour :=
  MkBehaviour 0 "out" "err"
    [("onecol.r", "r"); ("progvar.nc", "p"); ("diagvar.nc", "");
     ("diagvar2.nc", "d2")].

Definition exit_1 : behaviour := MkBehaviour 1 "out" "err" [].

(** A world in which the next run directories are /work/run0 to
    /work/run3, and the model behaves as given in each of them. *)
Definition run_world (extra : list (string * node))
           (b0 b1 b2 b3 : behaviour) : world :=
  MkWorld ([("/work", Dir true); ("/out", Dir true); ("/tpl", Dir true);
            ("/tpl/master1c.exe", File "exe")] ++ extra)%list
          ["/work/run0"; "/work/run1"; "/work/run2"; "/work/run3"]
          "/tpl"
          [("/work/run0", b0); ("/work/run1", b1); ("/work/run2", b2);
           ("/work/run3", b3)]
          [("scm.cfg", cfg)]
          [("/in/scm_in.20090406_010000.nc", grid)] [0; 900].

(** A world without the model executable in the template directory. *)
Definition no_template_world : world :=
  MkWorld [("/work", Dir true); ("/out", Dir true); ("/tpl", Dir true)]
          ["/work/run0"] "/tpl" [("/work/run0", complete_run)]
          [] [] [0; 900].

(** An output file of cell (1, 0) left by an earlier job, which cannot
    be replaced. *)
Definition locked_output : list (string * node) :=
  [("/out/diagvar.20090406_010000.y0000x0001.nc", Locked "old")].

Definition runner (archive_failed_runs : bool) : SCM.SCMTileRunner :=
  SCM.MkRunner cfg archive_failed_runs.

(** [scmtiles] runs the cells of a tile one after the other. *)
Fixpoint run_cells (self : SCM.SCMTileRunner) (cells : list Cell)
  : M world (list CellResult) :=
  match cells with
  | [] => ret []
  | c :: rest =>
      r <- SCM.run_cell self c ;;
      rs <- run_cells self rest ;;
      ret (r :: rs)
  end.

(** The outputs of all four cells are in place, and the path of the
    grid file is taken by a directory, so that it cannot be written. *)
Definition blocked_output_world : world :=
  set_disk (disk (pp_world [c00; c10; c01; c11])
            ++ [("/out/scm_out.20090406_010000.nc", Dir true)])%list
           (pp_world [c00; c10; c01; c11]).

(** What [pp_cell] returns for a cell whose output is in place. *)
Definition loaded (c : Cell) (y x : Z) : CellDataset * string :=
  (MkCellDataset [0; 900] ["d"; "d2"; "p"] y x,
   "/out/20090406_010000." ++ cell_id c).

End Scenario.

(** [r] is an integer nearest to the rational [x / den], and an even
    one when two integers are as near. *)
Definition nearest_even (x den r : Z) : Prop :=
  2 * Z.abs (r * den - x) < den
  \/ (2 * Z.abs (r * den - x) = den /\ Z.even r = true).

(** The number of low bits that [round_sig53] rounds away. *)
Definition dropped_bits (n d : Z) : Z := Z.max (Z.log2 (n / d) - 52) 0.

(** [m] is the maximum row-coordinate value present in the tile. *)
Definition max_row_coordinate (t : Dataset) (m : Z) : Prop :=
  (exists c, In c (List.concat (ds_rows t)) /\ cell_y c = m)
  /\ forall c, In c (List.concat (ds_rows t)) -> cell_y c <= m.

(** [r] whole seconds for the time point of [t] nanoseconds: within
    half a second and 4 microseconds of it, and the nearest second when
    the time point lies nearer than half a second less 4 microseconds
    to a whole second. *)
Definition rounded_within_4us (r t : Z) : Prop :=
  2 * Z.abs (r * Time.ns_per_s - t) <= Time.ns_per_s + 8000
  /\ forall k, 2 * Z.abs (k * Time.ns_per_s - t) + 8000 < Time.ns_per_s ->
               r = k.

(* ================================================================= *)
(** ** Further vocabulary *)

(** A computation that leaves the log as it is. *)
Definition silent {W A} (m : M W A) : Prop :=
  forall s, snd (fst (m s)) = snd s.

(** A computation that leaves the world as it is. *)
Definition keeps_world {W A} (m : M W A) : Prop :=
  forall s, fst (fst (m s)) = fst s.

(** The (source, target) pairs of the moves of [archive_results]. *)
Definition archive_pairs (self : SCM.SCMTileRunner) (c : Cell)
           (run_directory : string) (files : list string)
  : list (string * string) :=
  map (fun af => (pjoin run_directory af,
                  pjoin (output_directory (SCM.config self))
                        (SCM.target_name self c af))) files.

(** The key under which a row is kept in the dictionary of [pp_tile]. *)
Definition row_key (row : list loaded_cell) : N :=
  match row with [] => 0%N | p :: _ => row_index p end.

(** The rows after one more cell: it joins the row of its row index, or
    starts a new last row. *)
Fixpoint add_to_rows (p : loaded_cell) (rows : list (list loaded_cell))
  : list (list loaded_cell) :=
  match rows with
  | [] => [[p]]
  | row :: rest =>
      if N.eqb (row_key row) (row_index p) then (row ++ [p])%list :: rest
      else row :: add_to_rows p rest
  end.

(** A row of a tile, in whatever order its cells came: not empty and of
    a single row index. *)
Definition row_uniform (row : list loaded_cell) : Prop :=
  row <> [] /\ forall p, In p row -> row_index p = row_key row.

(** The elements of a decorated list that carry the key [k], in the
    order of the list. *)
Definition with_key {A} (k : Z) (l : list (Z * A)) : list (Z * A) :=
  filter (fun x => fst x =? k) l.

Section ExtraRunnerVocabulary.

Context {W : Type} {os : OS W}.

(** The calls [shutil.rmtree(dp)] for the listed directories, one after
    the other and each without an exception, lead from world [w] to
    world [w']. *)
Fixpoint removed_all (dirs : list string) (w w' : W) : Prop :=
  match dirs with
  | [] => w' = w
  | dp :: rest =>
      exists w1, shutil_rmtree dp w = (w1, inr tt) /\ removed_all rest w1 w'
  end.

End ExtraRunnerVocabulary.

(* ================================================================= *)
(** ** Further concrete runs *)

Module MoreScenarios.

Import Disk Scenario.

(** A run directory in which master1c.exe is a directory, so that it
    cannot be executed. *)
Definition not_executable_world : world :=
  MkWorld [("/work", Dir true); ("/work/run0", Dir true);
           ("/work/run0/master1c.exe", Dir true)]
          [] "/tpl" [] [] [] [].

(** An output file diagvar2 of cell (1, 0) left by an earlier job, which
    cannot be replaced. *)
Definition locked_diagvar2 : list (string * node) :=
  [("/out/diagvar2.20090406_010000.y0000x0001.nc", Locked "old")].

(** The state in /work/run0 once the model has run and its output has
    been verified, for cell (1, 0). *)
Definition verified (extra : list (string * node)) (b : behaviour)
  : state world :=
  let s0 := (run_world extra b complete_run complete_run complete_run,
             @nil log_record) in
  let s1 := fst (SCM.setup_openifs_scm (runner false) c10 s0) in
  fst (SCM._scm_runner (runner false) "/work/run0" s1).

(** A configuration of a grid without rows, and a world that holds it. *)
Definition empty_cfg : SCMTilesConfig :=
  MkConfig (Time.Datetime 2009 4 6 1 0 0 0) 2 0 "lon" "lat"
           "/in" "/out" "/tpl".

Definition empty_grid_world : world :=
  MkWorld [("/out", Dir true)] [] "/tpl" [] [("empty.cfg", empty_cfg)]
          [("/in/scm_in.20090406_010000.nc", grid)] [0; 900].

End MoreScenarios.

(** The element has the key [k]. *)
Definition has_key {A} (key : A -> exn + Z) (k : Z) (a : A) : bool :=
  match key a with inr k' => k' =? k | inl _ => false end.

(** The cell lies within the grid and its three output files open in
    world [w]. *)
Definition cell_loads {W} {os : OS W} (config : SCMTilesConfig)
           (templates : Templates) (drop_list : list string) (w : W)
           (c : Cell) : Prop :=
  in_grid templates c
  /\ forall f, In f PP.SCM_OUT_FILES ->
               exists d, xr_open_dataset (pjoin (cell_directory config c) f)
                                         drop_list w = inr d.

(* ================================================================= *)
(** ** The collection of the results of an array job ([u_collect.py]) *)

Module Collect.

(** The exceptions that occur in the program: its own classes [Error]
    and [Usage], and the built-in ones that its calls raise. *)
Inductive exc_class : Type :=
| IOError | ValueError | OverflowError | Error | Usage.

Record exc : Type := Exc { exc_cls : exc_class; exc_msg : string }.

(** What the program asks of Python and of the file system: [int(x)]
    of a string ([None] for a string that [int] rejects with a
    ValueError), [os.path.exists(path)], and the lines of a file opened
    for reading ([inl msg] for the IOError of message [msg]). *)
Class Host : Type := {
  int : string -> option Z;
  os_path_exists : string -> bool;
  readlines : string -> string + list string }.

(** [s.split(sep)] for a separator of one character. *)
Fixpoint split (sep : ascii) (s : string) : list string :=
  match s with
  | EmptyString => [EmptyString]
  | String c s' =>
      if Ascii.eqb c sep then EmptyString :: split sep s'
      else
        match split sep s' with
        | [] => [String c EmptyString]
        | x :: xs => String c x :: xs
        end
  end.

(** [sep.join(l)] *)
Fixpoint join (sep : string) (l : list string) : string :=
  match l with
  | [] => ""
  | [x] => x
  | x :: rest => x ++ sep ++ join sep rest
  end.

(** The proleptic Gregorian date that lies the given number of days
    after 1970-01-01. *)
Definition civil_from_days (z : Z) : Z * Z * Z :=
  let z := z + 719468 in
  let era := z / 146097 in
  let doe := z - era * 146097 in
  let yoe := (doe - doe / 1460 + doe / 36524 - doe / 146096) / 365 in
  let y := yoe + era * 400 in
  let doy := doe - (365 * yoe + yoe / 4 - yoe / 100) in
  let mp := (5 * doy + 2) / 153 in
  let d := doy - (153 * mp + 2) / 5 + 1 in
  let m := if mp <? 10 then mp + 3 else mp - 9 in
  (if m <=? 2 then y + 1 else y, m, d).

(** [t + timedelta(minutes=m)]; a date outside the years 1 to 9999
    is an OverflowError. *)
Definition add_minutes (t : Time.datetime) (m : Z) : exc + Time.datetime :=
  let us := Time.to_microseconds t + m * 60000000 in
  let days := us / 86400000000 in
  let rest := us mod 86400000000 in
  let '(y, mo, d) := civil_from_days days in
  if (1 <=? y) && (y <=? 9999) then
    inr (Time.Datetime y mo d (rest / 3600000000)
                       ((rest / 60000000) mod 60)
                       ((rest / 1000000) mod 60) (rest mod 1000000))
  else inl (Exc OverflowError "date value out of range").

(** [strftime] of Python 2.7 refuses the years before 1900. *)
Definition strftime (format : Time.datetime -> string) (t : Time.datetime)
  : exc + string :=
  if Time.year t <? 1900 then
    inl (Exc ValueError
             ("year=" ++ PP.str_Z (Time.year t) ++ " is before 1900; the "
              ++ "datetime strftime() methods require year >= 1900"))
  else inr (format t).

(** [t.strftime('%F %T')] for a year from 1900 on. *)
Definition format_F_T (t : Time.datetime) : string :=
  format_0wd 4 (Z.to_N (Time.year t)) ++ "-"
  ++ format_0wd 2 (Z.to_N (Time.month t)) ++ "-"
  ++ format_0wd 2 (Z.to_N (Time.day t)) ++ " "
  ++ format_0wd 2 (Z.to_N (Time.hour t)) ++ ":"
  ++ format_0wd 2 (Z.to_N (Time.minute t)) ++ ":"
  ++ format_0wd 2 (Z.to_N (Time.second t)).

Record JobInfo : Type := MkJobInfo {
  name : string;
  id : Z;
  run : option bool;
  pp_generate : option bool;
  pp_cleanup : option bool;
  date : Time.datetime }.

Definition set_run (v : bool) (j : JobInfo) : JobInfo :=
  MkJobInfo (name j) (id j) (Some v) (pp_generate j) (pp_cleanup j) (date j).

Definition set_pp_generate (v : bool) (j : JobInfo) : JobInfo :=
  MkJobInfo (name j) (id j) (run j) (Some v) (pp_cleanup j) (date j).

Definition set_pp_cleanup (v : bool) (j : JobInfo) : JobInfo :=
  MkJobInfo (name j) (id j) (run j) (pp_generate j) (Some v) (date j).

Definition date_from_job_id (job_id : Z) : exc + Time.datetime :=
  let reference_time := Time.Datetime 2009 4 6 1 0 0 0 in
  let offset_minutes := 15 * (job_id - 1) in
  add_minutes reference_time offset_minutes.

(** [JobInfo(name, jid)] *)
Definition __init__ (name : string) (jid : Z) : exc + JobInfo :=
  match date_from_job_id jid with
  | inl e => inl e
  | inr d => inr (MkJobInfo name jid None None None d)
  end.

(** [range(a, b)] *)
Definition range (a b : Z) : list Z :=
  map (fun i => a + Z.of_nat i) (seq 0 (Z.to_nat (b - a))).

(** [sorted(set(l))]: the distinct elements in ascending order. *)
Fixpoint insert_unique (x : Z) (l : list Z) : list Z :=
  match l with
  | [] => [x]
  | y :: l' =>
      if x <? y then x :: y :: l'
      else if x =? y then y :: l'
      else y :: insert_unique x l'
  end.

Definition sorted_set (l : list Z) : list Z := fold_right insert_unique [] l.

(** [translate_opt[v]] *)
Definition translate_opt (v : option bool) : option string :=
  match v with
  | None => None
  | Some true => Some "yes"
  | Some false => Some "no"
  end.

(** [filter(None, fields)]: the fields that are neither None nor the
    empty string. *)
Definition filter_None (fields : list (option string)) : list string :=
  flat_map (fun f => match f with
                     | Some s => if String.eqb s "" then [] else [s]
                     | None => []
                     end) fields.

Definition job_info_to_csv (job_info : JobInfo) : exc + string :=
  match strftime format_F_T (date job_info) with
  | inl e => inl e
  | inr d =>
      let fields :=
        [ Some (PP.str_Z (id job_info));
          Some d;
          translate_opt (run job_info);
          translate_opt (pp_generate job_info);
          translate_opt (pp_cleanup job_info) ] in
      inr (join "," (filter_None fields))
  end.

(** The loop of [collect_jobs] that prints a line for every job. *)
Fixpoint print_jobs (info : list JobInfo) (stdout : list string)
  : list string * (exc + unit) :=
  match info with
  | [] => (stdout, inr tt)
  | job_info :: rest =>
      match job_info_to_csv job_info with
      | inl e => (stdout, inl e)
      | inr line => print_jobs rest (stdout ++ [line])%list
      end
  end.

(** [filter(None, l)] on a list of jobs and None. *)
Definition filter_jobs (l : list (option JobInfo)) : list JobInfo :=
  flat_map (fun o => match o with Some j => [j] | None => [] end) l.

Section Program.

Context {host : Host}.

(** [[int(x) for x in l]] *)
Fixpoint ints (l : list string) : exc + list Z :=
  match l with
  | [] => inr []
  | x :: rest =>
      match int x with
      | None =>
          inl (Exc ValueError
                   ("invalid literal for int() with base 10: '" ++ x ++ "'"))
      | Some n =>
          match ints rest with
          | inl e => inl e
          | inr ns => inr (n :: ns)
          end
      end
  end.

(** The loop of [parse_array_spec] over the sub-specifications that
    remain. *)
Fixpoint parse_sub_specs (array_spec : string) (sub_specs : list string)
         (job_ids : list (list Z)) : exc + list (list Z) :=
  match sub_specs with
  | [] => inr job_ids
  | sub_spec :: rest =>
      match ints (split "-" sub_spec) with
      | inl e => inl e
      | inr items =>
          match items with
          | [a] => parse_sub_specs array_spec rest (job_ids ++ [[a]])%list
          | [a; b] =>
              parse_sub_specs array_spec rest
                              (job_ids ++ [range a (b + 1)])%list
          | _ =>
              inl (Exc Usage
                       ("invalid array specification: " ++ dquote
                        ++ sub_spec ++ dquote ++ " in " ++ dquote
                        ++ array_spec))
          end
      end
  end.

Definition parse_array_spec (array_spec : string) : exc + list Z :=
  match parse_sub_specs array_spec (split "," array_spec) [] with
  | inl e => inl e
  | inr job_ids => inr (sorted_set (List.concat job_ids))
  end.

Definition lsb_run_complete (log_file : string) : exc + bool :=
  let lsb_complete := "Successfully completed." in
  match readlines log_file with
  | inl e => inl (Exc Error e)
  | inr lines => inr (existsb (String.prefix lsb_complete) lines)
  end.

(** [from_name_and_id] from the look at the post-processing log on. *)
Definition pp_status (name : string) (jid : Z) (job_info : JobInfo)
  : exc + option JobInfo :=
  let pp_log := pjoin "logs" (name ++ "_pp." ++ PP.str_Z jid ++ ".log") in
  if negb (os_path_exists pp_log) then inr (Some job_info)
  else
    match lsb_run_complete pp_log with
    | inl e => inl e
    | inr false =>
        match strftime Time.strftime_Ymd_HMS (date job_info) with
        | inl e => inl e
        | inr stamp =>
            let pp_output := "scm_out." ++ stamp ++ ".nc" in
            if os_path_exists
                 (pjoin (pjoin (pjoin "../../.." "data") "scm_out")
                        pp_output)
            then
              inr (Some (set_pp_cleanup false
                                        (set_pp_generate true job_info)))
            else inr (Some (set_pp_generate false job_info))
        end
    | inr true =>
        inr (Some (set_pp_cleanup true (set_pp_generate true job_info)))
    end.

Definition from_name_and_id (name : string) (jid : Z) (pp_only : bool)
  : exc + option JobInfo :=
  match __init__ name jid with
  | inl e => inl e
  | inr job_info =>
      if pp_only then pp_status name jid (set_run true job_info)
      else
        let run_log :=
          pjoin "logs" (name ++ "_run." ++ PP.str_Z jid ++ ".log") in
        if negb (os_path_exists run_log) then inr None
        else
          match lsb_run_complete run_log with
          | inl e => inl e
          | inr false => inr (Some (set_run false job_info))
          | inr true => pp_status name jid (set_run true job_info)
          end
  end.

(** [[JobInfo.from_name_and_id(job_name, job_id, pp_only)
      for job_id in job_ids]] *)
Fixpoint all_jobs (job_name : string) (job_ids : list Z) (pp_only : bool)
  : exc + list (option JobInfo) :=
  match job_ids with
  | [] => inr []
  | job_id :: rest =>
      match from_name_and_id job_name job_id pp_only with
      | inl e => inl e
      | inr j =>
          match all_jobs job_name rest pp_only with
          | inl e => inl e
          | inr js => inr (j :: js)
          end
      end
  end.

(** The result is what has been printed and how the call ended. *)
Definition collect_jobs (job_name : string) (job_ids : list Z)
           (pp_only : bool) : list string * (exc + unit) :=
  match all_jobs job_name job_ids pp_only with
  | inl e => ([], inl e)
  | inr l => print_jobs (filter_jobs l) []
  end.

(** [main] after the parsing of the command line: what has been
    printed to the standard output and to the standard error, and the
    exit status. *)
Definition main (pp : bool) (job_name array_spec : string)
  : (list string * list string) * (exc + Z) :=
  let r :=
    match parse_array_spec array_spec with
    | inl e => ([], inl e)
    | inr job_ids => collect_jobs job_name job_ids pp
    end in
  match snd r with
  | inl e =>
      match exc_cls e with
      | Usage =>
          ((fst r, ["error: " ++ exc_msg e; "  use -h or --help for help"]),
           inr 1)
      | Error => ((fst r, ["error: " ++ exc_msg e]), inr 2)
      | _ => ((fst r, []), inl e)
      end
  | inr _ => ((fst r, []), inr 0)
  end.

(** The job id [x] is named by the sub-specification: it is the
    number, or lies between the two numbers. *)
Definition covers (sub_spec : string) (x : Z) : Prop :=
  (exists a, map int (split "-" sub_spec) = [Some a] /\ x = a)
  \/ (exists a b, map int (split "-" sub_spec) = [Some a; Some b]
                  /\ a <= x <= b).

(** The logs of a job. *)
Definition run_log (name : string) (jid : Z) : string :=
  pjoin "logs" (name ++ "_run." ++ PP.str_Z jid ++ ".log").

Definition pp_log (name : string) (jid : Z) : string :=
  pjoin "logs" (name ++ "_pp." ++ PP.str_Z jid ++ ".log").

End Program.

Definition yes_no (b : bool) : string := if b then "yes" else "no".

(** A host for examples: [int] reads strings of decimal digits, the
    files are those listed with their lines, and a file listed without
    lines exists but cannot be read. *)
Definition is_digits (s : string) : bool :=
  negb (String.eqb s "")
  && forallb (fun c => (48 <=? nat_of_ascii c)%nat
                       && (nat_of_ascii c <=? 57)%nat)
             (list_ascii_of_string s).

Definition listed_host (files : list (string * option (list string)))
  : Host :=
  {| int := fun s => if is_digits s then Some (Time.int s) else None;
     os_path_exists := fun p =>
       match Disk.assoc p files with Some _ => true | None => false end;
     readlines := fun p =>
       match Disk.assoc p files with
       | Some (Some lines) => inr lines
       | Some None => inl "[Errno 13] Permission denied"
       | None => inl "[Errno 2] No such file or directory"
       end |}.

(** The logs of an array job of three jobs: the first ran and was
    post-processed, the second ran only, the third did not start. *)
Definition three_jobs : Host :=
  listed_host
    [("logs/scm_run.1.log", Some ["Started"; "Successfully completed."]);
     ("logs/scm_pp.1.log", Some ["Successfully completed."]);
     ("logs/scm_run.2.log", Some ["Started"; "Successfully completed."])].

(** The same logs, the log of the second run being unreadable. *)
Definition unreadable_log : Host :=
  listed_host
    [("logs/scm_run.1.log", Some ["Started"; "Successfully completed."]);
     ("logs/scm_pp.1.log", Some ["Successfully completed."]);
     ("logs/scm_run.2.log", None)].

End Collect.

(* ================================================================= *)
(** * Properties *)

(** ** Computations that only read *)

Section Reads.

Context {W : Type}.

Lemma reads_ret {A} (a : A) : reads (@ret W A a).
Proof. intros s. reflexivity. Qed.

Lemma reads_raise {A} (c : exn_class) (msg : string) :
  reads (@raise W A c msg).
Proof. intros s. reflexivity. Qed.

Lemma reads_reraise {A} (e : exn) : reads (@reraise W A e).
Proof. intros s. reflexivity. Qed.

Lemma reads_read {A} (op : W -> exn + A) : reads (read op).
Proof. intros s. reflexivity. Qed.

Lemma reads_get {A} (f : W -> A) : reads (get f).
Proof. intros s. reflexivity. Qed.

Lemma reads_bind {A B} (m : M W A) (k : A -> M W B) :
  reads m -> (forall a, reads (k a)) -> reads (bind m k).
Proof.
  intros Hm Hk s. unfold bind. specialize (Hm s).
  destruct (m s) as [s' [e|a]]; cbn in Hm; subst s'; [reflexivity|].
  apply Hk.
Qed.

Lemma reads_dispatch {A} (e : exn)
      (clauses : list (list exn_class * (exn -> M W A))) :
  Forall (fun cl => forall e', reads (snd cl e')) clauses ->
  reads (dispatch e clauses).
Proof.
  induction 1 as [|[cs h] clauses Hh _ IH]; cbn [dispatch].
  - apply reads_reraise.
  - destruct (isinstance_any e cs); [apply Hh | exact IH].
Qed.

Lemma reads_try_except {A} (body : M W A)
      (clauses : list (list exn_class * (exn -> M W A))) :
  reads body ->
  Forall (fun cl => forall e', reads (snd cl e')) clauses ->
  reads (try_except body clauses).
Proof.
  intros Hb Hc s. unfold try_except. specialize (Hb s).
  destruct (body s) as [s' [e|a]]; cbn in Hb; subst s'; [|reflexivity].
  now apply reads_dispatch.
Qed.

End Reads.

(** ** The time coordinate transforms *)


Section Float64Rounding.

Import Time.

Lemma round_half_even_nearest_even (x den : Z) :
  0 < den -> nearest_even x den (round_half_even x den).
Proof.
  intros Hden. unfold nearest_even, round_half_even.
  assert (Hnz : den <> 0) by lia. pose proof (Z.div_mod x den Hnz) as Hdm.
  pose proof (Z.mod_pos_bound x den Hden) as Hb.
  set (q := x / den) in *. set (r := x mod den) in *.
  destruct (Z.ltb_spec (2 * r) den); [left; nia|].
  destruct (Z.ltb_spec den (2 * r)); [left; nia|].
  right. destruct (Z.even q) eqn:He.
  - split; [nia | exact He].
  - split; [nia|]. rewrite Z.even_add, He. reflexivity.
Qed.

Lemma nearest_even_unique (x den r1 r2 : Z) :
  0 < den -> nearest_even x den r1 -> nearest_even x den r2 -> r1 = r2.
Proof.
  intros Hden H1 H2.
  assert (Hc : r1 = r2 \/ r1 = r2 + 1 \/ r2 = r1 + 1).
  { destruct H1 as [H1|[H1 _]], H2 as [H2|[H2 _]]; nia. }
  destruct Hc as [Hc|[Hc|Hc]]; [exact Hc| |]; exfalso; subst.
  - destruct H1 as [H1|[H1 E1]], H2 as [H2|[H2 E2]]; try nia.
    rewrite Z.even_add, E2 in E1. discriminate.
  - destruct H1 as [H1|[H1 E1]], H2 as [H2|[H2 E2]]; try nia.
    rewrite Z.even_add, E1 in E2. discriminate.
Qed.

Lemma round_half_even_intro (x den k : Z) :
  0 < den -> nearest_even x den k -> round_half_even x den = k.
Proof.
  intros Hden Hk. eapply nearest_even_unique; eauto.
  now apply round_half_even_nearest_even.
Qed.

Lemma round_half_even_exact (k den : Z) :
  0 < den -> round_half_even (k * den) den = k.
Proof.
  intros Hden. apply round_half_even_intro; [exact Hden|].
  left. replace (k * den - k * den) with 0 by lia. cbn. lia.
Qed.

Lemma round_half_even_opp (x den : Z) :
  0 < den -> round_half_even (- x) den = - round_half_even x den.
Proof.
  intros Hden. apply round_half_even_intro; [exact Hden|].
  destruct (@round_half_even_nearest_even x den Hden) as [H|[H E]].
  - left. lia.
  - right. split; [lia|]. now rewrite Z.even_opp.
Qed.

(** Rounding keeps the order of the rationals. *)
Lemma round_half_even_monotone (n d n' d' : Z) :
  0 < d -> 0 < d' -> n * d' <= n' * d ->
  round_half_even n d <= round_half_even n' d'.
Proof.
  intros Hd Hd' Hle.
  pose proof (@round_half_even_nearest_even n d Hd) as H.
  pose proof (@round_half_even_nearest_even n' d' Hd') as H'.
  set (r := round_half_even n d) in *.
  set (r' := round_half_even n' d') in *.
  destruct (Z.le_gt_cases r r') as [|Hgt]; [assumption|exfalso].
  assert (H1 : (2 * r - 1) * d <= 2 * n)
    by (destruct H as [H|[H _]]; lia).
  assert (H2 : 2 * n' <= (2 * r' + 1) * d')
    by (destruct H' as [H'|[H' _]]; lia).
  assert (H3 : (2 * r - 1) * d * d' <= (2 * r' + 1) * d' * d).
  { apply Z.le_trans with (2 * n * d').
    - apply Z.mul_le_mono_nonneg_r; lia.
    - apply Z.le_trans with (2 * n' * d); [lia|].
      apply Z.mul_le_mono_nonneg_r; lia. }
  assert (Hr : r = r' + 1) by nia. 
  assert (E1 : 2 * n = (2 * r - 1) * d) by nia.
  assert (E2 : 2 * n' = (2 * r' + 1) * d') by nia.
  destruct H as [H|[_ E]]; [lia|].
  destruct H' as [H'|[_ E']]; [lia|].
  rewrite Hr, Z.even_add, E' in E. discriminate.
Qed.

Lemma round_half_even_nonneg (n d : Z) :
  0 < d -> 0 <= n -> 0 <= round_half_even n d.
Proof.
  intros Hd Hn.
  rewrite <- (@round_half_even_exact 0 d Hd).
  apply round_half_even_monotone; lia.
Qed.

Lemma div_monotone (n d n' d' : Z) :
  0 < d -> 0 < d' -> n * d' <= n' * d -> n / d <= n' / d'.
Proof.
  intros Hd Hd' Hle. apply Z.div_le_lower_bound; [exact Hd'|].
  pose proof (Z.mul_div_le n d Hd). nia.
Qed.

Lemma round_sig53_eq (n d : Z) :
  round_sig53 n d
  = round_half_even n (d * 2 ^ dropped_bits n d) * 2 ^ dropped_bits n d.
Proof. reflexivity. Qed.

Lemma dropped_bits_monotone (n d n' d' : Z) :
  0 < d -> 0 < d' -> n * d' <= n' * d ->
  dropped_bits n d <= dropped_bits n' d'.
Proof.
  intros Hd Hd' Hle. unfold dropped_bits.
  pose proof (Z.log2_le_mono _ _ (@div_monotone n d n' d' Hd Hd' Hle)). lia.
Qed.

Lemma round_sig53_upper (n d : Z) :
  0 <= n -> 0 < d ->
  round_sig53 n d <= 2 ^ (53 + dropped_bits n d).
Proof.
  intros Hn Hd. rewrite round_sig53_eq.
  set (s := dropped_bits n d).
  assert (Hs : 0 <= s) by (unfold s, dropped_bits; lia).
  assert (Hp : 0 < 2 ^ s) by (apply Z.pow_pos_nonneg; lia).
  rewrite Z.pow_add_r by lia.
  apply Z.mul_le_mono_nonneg_r; [lia|].
  rewrite <- (@round_half_even_exact (2 ^ 53) 1 Z.lt_0_1).
  apply round_half_even_monotone; [nia | lia |].
  (* n <= 2^53 * (d * 2^s) *)
  assert (Hq : n / d < 2 ^ (53 + s)).
  { destruct (Z.eq_dec (n / d) 0) as [->|Hq0].
    - apply Z.pow_pos_nonneg; lia.
    - assert (Hpos : 0 < n / d)
        by (pose proof (Z.div_pos n d Hn Hd); lia).
      destruct (Z.log2_spec _ Hpos) as [_ Hlt].
      eapply Z.lt_le_trans; [exact Hlt|].
      apply Z.pow_le_mono_r; [lia|]. unfold s, dropped_bits. lia. }
  rewrite Z.pow_add_r in Hq by lia.
  pose proof (Z.div_mod n d ltac:(lia)) as Hdm.
  pose proof (Z.mod_pos_bound n d Hd) as Hb.
  nia.
Qed.

Lemma round_sig53_lower (n d : Z) :
  0 < d -> 0 < dropped_bits n d ->
  2 ^ (52 + dropped_bits n d) <= round_sig53 n d.
Proof.
  intros Hd Hs. rewrite round_sig53_eq.
  set (s := dropped_bits n d) in *.
  assert (Hp : 0 < 2 ^ s) by (apply Z.pow_pos_nonneg; lia).
  rewrite Z.pow_add_r by lia.
  apply Z.mul_le_mono_nonneg_r; [lia|].
  rewrite <- (@round_half_even_exact (2 ^ 52) 1 Z.lt_0_1).
  apply round_half_even_monotone; [lia | nia |].
  assert (Hlog : Z.log2 (n / d) = s + 52)
    by (unfold s, dropped_bits in *; lia).
  assert (Hpos : 0 < n / d).
  { destruct (Z.lt_ge_cases 0 (n / d)) as [|Hle]; [assumption|].
    rewrite (Z.log2_nonpos _ Hle) in Hlog. lia. }
  destruct (Z.log2_spec _ Hpos) as [Hge _]. rewrite Hlog in Hge.
  rewrite Z.pow_add_r in Hge by lia.
  pose proof (Z.mul_div_le n d Hd). nia.
Qed.

(** [round_sig53] keeps the order of the rationals. *)
Lemma round_sig53_monotone (n d n' d' : Z) :
  0 <= n -> 0 < d -> 0 < d' -> n * d' <= n' * d ->
  round_sig53 n d <= round_sig53 n' d'.
Proof.
  intros Hn Hd Hd' Hle.
  pose proof (@dropped_bits_monotone n d n' d' Hd Hd' Hle) as Hs.
  assert (H0 : 0 <= dropped_bits n d) by (unfold dropped_bits; lia).
  destruct (Z.eq_dec (dropped_bits n d) (dropped_bits n' d')) as [E|E].
  - rewrite !round_sig53_eq, <- E.
    set (s := dropped_bits n d) in *.
    assert (Hp : 0 < 2 ^ s) by (apply Z.pow_pos_nonneg; lia).
    apply Z.mul_le_mono_nonneg_r; [lia|].
    apply round_half_even_monotone; nia.
  - apply Z.le_trans with (2 ^ (53 + dropped_bits n d));
      [now apply round_sig53_upper|].
    apply Z.le_trans with (2 ^ (52 + dropped_bits n' d'));
      [apply Z.pow_le_mono_r; lia|].
    apply round_sig53_lower; [exact Hd' | lia].
Qed.

(** An integer of at most 53 significant bits is kept. *)
Lemma round_sig53_fixed (m t d : Z) :
  0 < d -> 0 <= m < 2 ^ 53 -> 0 <= t ->
  round_sig53 (m * 2 ^ t * d) d = m * 2 ^ t.
Proof.
  intros Hd Hm Ht. rewrite round_sig53_eq.
  unfold dropped_bits. rewrite Z.div_mul by lia.
  set (s := Z.max (Z.log2 (m * 2 ^ t) - 52) 0).
  assert (Hs : 0 <= s <= t).
  { unfold s. destruct (Z.eq_dec m 0) as [->|Hm0]; [cbn; lia|].
    rewrite Z.log2_mul_pow2 by lia.
    assert (Z.log2 m < 53) by (apply Z.log2_lt_pow2; lia). lia. }
  replace (m * 2 ^ t * d) with (m * 2 ^ (t - s) * (d * 2 ^ s)).
  - rewrite round_half_even_exact.
    + rewrite <- Z.mul_assoc, <- Z.pow_add_r by lia. do 2 f_equal. lia.
    + assert (0 < 2 ^ s) by (apply Z.pow_pos_nonneg; lia). nia.
  - replace t with ((t - s) + s) at 2 by lia.
    rewrite Z.pow_add_r by lia. ring.
Qed.

Lemma round_sig53_nonneg (n d : Z) :
  0 <= n -> 0 < d -> 0 <= round_sig53 n d.
Proof.
  intros Hn Hd. rewrite round_sig53_eq.
  assert (0 <= dropped_bits n d) by (unfold dropped_bits; lia).
  assert (0 < 2 ^ dropped_bits n d) by (apply Z.pow_pos_nonneg; lia).
  apply Z.mul_nonneg_nonneg; [|lia].
  apply round_half_even_nonneg; [nia | exact Hn].
Qed.

Lemma float64_unit_pos : 0 < float64_unit.
Proof. unfold float64_unit. apply Z.pow_pos_nonneg; lia. Qed.

Lemma round_sig53_zero (d : Z) : 0 < d -> round_sig53 0 d = 0.
Proof.
  intros Hd. rewrite round_sig53_eq. unfold dropped_bits.
  rewrite Z.div_0_l by lia.
  change (Z.max (Z.log2 0 - 52) 0) with 0.
  rewrite Z.pow_0_r, !Z.mul_1_r.
  apply round_half_even_intro; [exact Hd|]. left. lia.
Qed.

Lemma float64_of_int_nonneg (x : Z) :
  0 <= x -> float64_of_int x = round_sig53 x 1.
Proof.
  intros Hx. unfold float64_of_int.
  destruct (Z.eq_dec x 0) as [->|Hne].
  - cbn [Z.sgn Z.abs]. rewrite Z.mul_0_l.
    symmetry. apply round_sig53_zero. lia.
  - rewrite Z.sgn_pos, Z.abs_eq by lia. lia.
Qed.

Lemma float64_of_int_opp (x : Z) :
  float64_of_int (- x) = - float64_of_int x.
Proof.
  unfold float64_of_int. rewrite Z.sgn_opp, Z.abs_opp. ring.
Qed.

Lemma float64_div_nonneg (a b : Z) :
  0 <= a -> 0 < b ->
  float64_div a b = round_sig53 (a * float64_unit) b.
Proof.
  intros Ha Hb. unfold float64_div.
  destruct (Z.eq_dec a 0) as [->|Hne].
  - cbn [Z.sgn Z.abs]. rewrite !Z.mul_0_l.
    symmetry. apply round_sig53_zero. exact Hb.
  - rewrite Z.sgn_pos, Z.abs_eq by lia. lia.
Qed.

Lemma float64_div_opp (a b : Z) :
  float64_div (- a) b = - float64_div a b.
Proof.
  unfold float64_div. rewrite Z.sgn_opp, Z.abs_opp. ring.
Qed.

Lemma np_round_div_float64_opp (x den : Z) :
  np_round_div_float64 (- x) den = - np_round_div_float64 x den.
Proof.
  unfold np_round_div_float64, np_round.
  rewrite float64_of_int_opp, float64_div_opp.
  apply round_half_even_opp. exact float64_unit_pos.
Qed.

Lemma np_round_div_float64_nonneg_eq (x den : Z) :
  0 <= x -> 0 < den ->
  np_round_div_float64 x den
  = round_half_even
      (round_sig53 (round_sig53 x 1 * float64_unit) den) float64_unit.
Proof.
  intros Hx Hden. unfold np_round_div_float64, np_round.
  rewrite float64_of_int_nonneg by exact Hx.
  rewrite float64_div_nonneg;
    [reflexivity | apply round_sig53_nonneg; lia | exact Hden].
Qed.

Lemma np_round_div_float64_monotone_nonneg (x y den : Z) :
  0 < den -> 0 <= x -> x <= y ->
  0 <= np_round_div_float64 x den <= np_round_div_float64 y den.
Proof.
  intros Hden Hx Hxy.
  pose proof float64_unit_pos as HU.
  rewrite !np_round_div_float64_nonneg_eq by lia.
  assert (H1 : 0 <= round_sig53 x 1)
    by (apply round_sig53_nonneg; lia).
  assert (H2 : round_sig53 x 1 <= round_sig53 y 1)
    by (apply round_sig53_monotone; lia).
  assert (H3 : 0 <= round_sig53 (round_sig53 x 1 * float64_unit) den)
    by (apply round_sig53_nonneg; nia).
  assert (H4 : round_sig53 (round_sig53 x 1 * float64_unit) den
               <= round_sig53 (round_sig53 y 1 * float64_unit) den).
  { apply round_sig53_monotone; [nia | lia | lia |].
    apply Z.mul_le_mono_nonneg_r; [lia|].
    apply Z.mul_le_mono_nonneg_r; lia. }
  split.
  - apply round_half_even_nonneg; assumption.
  - apply round_half_even_monotone; nia.
Qed.

(** The float64 computation keeps the order of the time points. *)
Lemma np_round_div_float64_monotone (x y den : Z) :
  0 < den -> x <= y -> np_round_div_float64 x den <= np_round_div_float64 y den.
Proof.
  intros Hden Hxy.
  destruct (Z.le_gt_cases 0 x) as [Hx|Hx].
  - now apply np_round_div_float64_monotone_nonneg.
  - rewrite <- (Z.opp_involutive x), np_round_div_float64_opp.
    destruct (Z.le_gt_cases 0 y) as [Hy|Hy].
    + pose proof (@np_round_div_float64_monotone_nonneg 0 (- x) den Hden
                    (Z.le_refl 0) ltac:(lia)).
      pose proof (@np_round_div_float64_monotone_nonneg 0 y den Hden
                    (Z.le_refl 0) Hy).
      lia.
    + rewrite <- (Z.opp_involutive y), (np_round_div_float64_opp (- y)).
      pose proof (@np_round_div_float64_monotone_nonneg (- y) (- x) den Hden
                    ltac:(lia) ltac:(lia)).
      lia.
Qed.

(** The float64 nearest to an int64 lies within 2^11 of it. *)
Lemma round_sig53_int64 (x : Z) :
  0 <= x <= 2 ^ 63 ->
  x - 2 ^ 11 < round_sig53 x 1 <= x + 2 ^ 11.
Proof.
  intros Hx.
  set (m := x / 2 ^ 11).
  assert (Hm : 0 <= m <= 2 ^ 52).
  { unfold m. split; [apply Z.div_pos; lia|].
    apply Z.div_le_upper_bound; lia. }
  pose proof (Z.div_mod x (2 ^ 11) ltac:(lia)) as Hdm.
  pose proof (Z.mod_pos_bound x (2 ^ 11) ltac:(lia)) as Hb.
  fold m in Hdm.
  assert (Hlo : round_sig53 (m * 2 ^ 11 * 1) 1 = m * 2 ^ 11)
    by (apply round_sig53_fixed; lia).
  assert (Hhi : round_sig53 ((m + 1) * 2 ^ 11 * 1) 1 = (m + 1) * 2 ^ 11)
    by (apply round_sig53_fixed; lia).
  assert (H1 : round_sig53 (m * 2 ^ 11 * 1) 1 <= round_sig53 x 1)
    by (apply round_sig53_monotone; lia).
  assert (H2 : round_sig53 x 1 <= round_sig53 ((m + 1) * 2 ^ 11 * 1) 1)
    by (apply round_sig53_monotone; lia).
  lia.
Qed.

(** A whole number of seconds, in nanoseconds, comes out as it is. *)
Lemma np_round_div_float64_exact_nonneg (k : Z) :
  0 <= k -> k * ns_per_s <= 2 ^ 63 ->
  np_round_div_float64 (k * ns_per_s) ns_per_s = k.
Proof.
  intros Hk Hx.
  destruct (Z.eq_dec k 0) as [->|Hk0]; [vm_compute; reflexivity|].
  unfold ns_per_s in *.
  rewrite np_round_div_float64_nonneg_eq by lia.
  pose proof (@round_sig53_int64 (k * 1000000000) ltac:(lia)) as Hv.
  set (v := round_sig53 (k * 1000000000) 1) in *.
  assert (HU : float64_unit = 4 * 2 ^ 1072) by reflexivity.
  assert (Hw : 0 < 2 ^ 1072) by (apply Z.pow_pos_nonneg; lia).
  set (w := 2 ^ 1072) in *.
  assert (Hlo : round_sig53 ((4 * k - 1) * 2 ^ 1072 * 1) 1
                = (4 * k - 1) * 2 ^ 1072)
    by (apply round_sig53_fixed; lia).
  assert (Hhi : round_sig53 ((4 * k + 1) * 2 ^ 1072 * 1) 1
                = (4 * k + 1) * 2 ^ 1072)
    by (apply round_sig53_fixed; lia).
  fold w in Hlo, Hhi. clearbody w.
  assert (H1 : round_sig53 ((4 * k - 1) * w * 1) 1
               <= round_sig53 (v * float64_unit) 1000000000).
  { apply round_sig53_monotone; [nia | lia | lia |]. rewrite HU. nia. }
  assert (H2 : round_sig53 (v * float64_unit) 1000000000
               <= round_sig53 ((4 * k + 1) * w * 1) 1).
  { apply round_sig53_monotone; [nia | lia | lia |]. rewrite HU. nia. }
  rewrite Hlo in H1. rewrite Hhi in H2.
  set (q := round_sig53 (v * float64_unit) 1000000000) in *.
  assert (HUpos : 0 < float64_unit) by lia.
  assert (L : round_half_even ((4 * k - 1) * w) float64_unit = k).
  { apply round_half_even_intro; [exact HUpos|]. left. rewrite HU. lia. }
  assert (R : round_half_even ((4 * k + 1) * w) float64_unit = k).
  { apply round_half_even_intro; [exact HUpos|]. left. rewrite HU. lia. }
  pose proof (@round_half_even_monotone
                ((4 * k - 1) * w) float64_unit q float64_unit
                HUpos HUpos ltac:(nia)) as M1.
  pose proof (@round_half_even_monotone
                q float64_unit ((4 * k + 1) * w) float64_unit
                HUpos HUpos ltac:(nia)) as M2.
  lia.
Qed.

Lemma is_int64_bounds (x : Z) :
  is_int64 x = true <-> - 2 ^ 63 <= x < 2 ^ 63.
Proof.
  unfold is_int64. rewrite andb_true_iff, Z.leb_le, Z.ltb_lt. tauto.
Qed.

Lemma np_round_div_exact (k : Z) :
  np_round_div (k * ns_per_s) ns_per_s = k.
Proof.
  unfold np_round_div. destruct (is_int64 (k * ns_per_s)) eqn:Hi.
  - apply is_int64_bounds in Hi.
    destruct (Z.le_gt_cases 0 k) as [Hk|Hk].
    + apply np_round_div_float64_exact_nonneg; lia.
    + replace (k * ns_per_s) with (- (- k * ns_per_s)) by lia.
      rewrite np_round_div_float64_opp.
      rewrite np_round_div_float64_exact_nonneg; lia.
  - apply round_half_even_exact. reflexivity.
Qed.

Lemma np_round_div_monotone (x y : Z) :
  x <= y -> np_round_div x ns_per_s <= np_round_div y ns_per_s.
Proof.
  intros Hxy. unfold np_round_div.
  assert (Hden : 0 < ns_per_s) by reflexivity.
  assert (Hmax : np_round_div_float64 (2 ^ 63 - 1) ns_per_s = 9223372037)
    by (vm_compute; reflexivity).
  assert (Hmin : np_round_div_float64 (- 2 ^ 63) ns_per_s = - 9223372037)
    by (vm_compute; reflexivity).
  assert (Hup : round_half_even (2 ^ 63) ns_per_s = 9223372037)
    by (vm_compute; reflexivity).
  assert (Hdown : round_half_even (- 2 ^ 63 - 1) ns_per_s = - 9223372037)
    by (vm_compute; reflexivity).
  destruct (is_int64 x) eqn:Hx, (is_int64 y) eqn:Hy.
  - now apply np_round_div_float64_monotone.
  - apply is_int64_bounds in Hx.
    assert (Hy' : 2 ^ 63 <= y).
    { destruct (Z.le_gt_cases (2 ^ 63) y); [assumption|].
      assert (is_int64 y = true) by (apply is_int64_bounds; lia).
      congruence. }
    pose proof (@np_round_div_float64_monotone x (2 ^ 63 - 1) ns_per_s Hden
                  ltac:(lia)).
    pose proof (@round_half_even_monotone (2 ^ 63) ns_per_s y ns_per_s
                  Hden Hden ltac:(nia)).
    lia.
  - apply is_int64_bounds in Hy.
    assert (Hx' : x <= - 2 ^ 63 - 1).
    { destruct (Z.le_gt_cases x (- 2 ^ 63 - 1)); [assumption|].
      assert (is_int64 x = true) by (apply is_int64_bounds; lia).
      congruence. }
    pose proof (@np_round_div_float64_monotone (- 2 ^ 63) y ns_per_s Hden
                  ltac:(lia)).
    pose proof (@round_half_even_monotone x ns_per_s (- 2 ^ 63 - 1)
                  ns_per_s Hden Hden ltac:(nia)).
    lia.
  - apply round_half_even_monotone; nia.
Qed.

(** The float64 computation is off the exact quotient by less than
    4000 ns. *)
Lemma np_round_div_float64_near (x : Z) :
  0 <= x <= 2 ^ 63 ->
  round_half_even (x - 4000) ns_per_s
  <= np_round_div_float64 x ns_per_s
  <= round_half_even (x + 4000) ns_per_s.
Proof.
  intros Hx. unfold ns_per_s.
  rewrite np_round_div_float64_nonneg_eq by lia.
  pose proof (@round_sig53_int64 x Hx) as Hv.
  set (v := round_sig53 x 1) in *.
  assert (Hv0 : 0 <= v) by (apply round_sig53_nonneg; lia).
  assert (HU : float64_unit = 524288 * 2 ^ 1055) by reflexivity.
  assert (Hw : 0 < 2 ^ 1055) by (apply Z.pow_pos_nonneg; lia).
  assert (HUpos : 0 < float64_unit) by exact float64_unit_pos.
  assert (Hq0 : 0 <= round_sig53 (v * float64_unit) 1000000000)
    by (apply round_sig53_nonneg; nia).
  pose proof (@round_half_even_nearest_even (x - 4000) 1000000000
                ltac:(lia)) as Hn.
  pose proof (@round_half_even_nearest_even (x + 4000) 1000000000
                ltac:(lia)) as Hn'.
  set (n := round_half_even (x - 4000) 1000000000) in *.
  set (n' := round_half_even (x + 4000) 1000000000) in *.
  assert (Hn1 : 2 * Z.abs (n * 1000000000 - (x - 4000)) <= 1000000000)
    by (destruct Hn as [Hn|[Hn _]]; lia).
  assert (Hn2 : 2 * Z.abs (n' * 1000000000 - (x + 4000)) <= 1000000000)
    by (destruct Hn' as [Hn'|[Hn' _]]; lia).
  clear Hn Hn'. split.
  - destruct (Z.le_gt_cases n 0) as [Hle|Hgt].
    + pose proof (@round_half_even_nonneg
                    (round_sig53 (v * float64_unit) 1000000000)
                    float64_unit HUpos Hq0).
      lia.
    + assert (Hfix : round_sig53
                       (((2 * n - 1) * 262144 + 1) * 2 ^ 1055 * 1) 1
                     = ((2 * n - 1) * 262144 + 1) * 2 ^ 1055)
        by (apply round_sig53_fixed; lia).
      set (w := 2 ^ 1055) in *. clearbody w.
      assert (Hlin : ((2 * n - 1) * 262144 + 1) * 1000000000
                     <= v * 524288) by lia.
      assert (H1 : round_sig53 (((2 * n - 1) * 262144 + 1) * w * 1) 1
                   <= round_sig53 (v * float64_unit) 1000000000).
      { apply round_sig53_monotone; [nia | lia | lia |].
        rewrite HU. nia. }
      rewrite Hfix in H1.
      assert (L : round_half_even (((2 * n - 1) * 262144 + 1) * w)
                                  float64_unit = n).
      { apply round_half_even_intro; [exact HUpos|]. left.
        rewrite HU. nia. }
      apply Z.le_trans
        with (round_half_even (((2 * n - 1) * 262144 + 1) * w)
                              float64_unit);
        [now rewrite L|].
      apply round_half_even_monotone; [exact HUpos | exact HUpos |].
      apply Z.mul_le_mono_nonneg_r; lia.
  - assert (Hn'0 : 0 <= n').
    { unfold n'. apply round_half_even_nonneg; lia. }
    assert (Hfix : round_sig53
                     (((2 * n' + 1) * 262144 - 1) * 2 ^ 1055 * 1) 1
                   = ((2 * n' + 1) * 262144 - 1) * 2 ^ 1055)
      by (apply round_sig53_fixed; lia).
    set (w := 2 ^ 1055) in *. clearbody w.
    assert (Hlin : v * 524288
                   <= ((2 * n' + 1) * 262144 - 1) * 1000000000) by lia.
    assert (H1 : round_sig53 (v * float64_unit) 1000000000
                 <= round_sig53 (((2 * n' + 1) * 262144 - 1) * w * 1) 1).
    { apply round_sig53_monotone; [nia | lia | lia |].
      rewrite HU. nia. }
    rewrite Hfix in H1.
    assert (R : round_half_even (((2 * n' + 1) * 262144 - 1) * w)
                                float64_unit = n').
    { apply round_half_even_intro; [exact HUpos|]. left.
      rewrite HU. nia. }
    apply Z.le_trans
      with (round_half_even (((2 * n' + 1) * 262144 - 1) * w) float64_unit);
      [|now rewrite R].
    apply round_half_even_monotone; [exact HUpos | exact HUpos |].
    apply Z.mul_le_mono_nonneg_r; lia.
Qed.

Lemma np_round_div_near (x : Z) :
  round_half_even (x - 4000) ns_per_s
  <= np_round_div x ns_per_s
  <= round_half_even (x + 4000) ns_per_s.
Proof.
  assert (Hden : 0 < ns_per_s) by reflexivity.
  unfold np_round_div. destruct (is_int64 x) eqn:Hi.
  - apply is_int64_bounds in Hi.
    destruct (Z.le_gt_cases 0 x) as [Hx|Hx].
    + apply np_round_div_float64_near. lia.
    + pose proof (@np_round_div_float64_near (- x) ltac:(lia)) as H.
      rewrite np_round_div_float64_opp in H.
      replace (- x - 4000) with (- (x + 4000)) in H by lia.
      replace (- x + 4000) with (- (x - 4000)) in H by lia.
      rewrite !round_half_even_opp in H by exact Hden. lia.
  - split; apply round_half_even_monotone; lia.
Qed.

End Float64Rounding.

Section TimeProperties.

Import Time.

Lemma np_round_div_rounds_within (t : Z) :
  rounded_within_4us (np_round_div t ns_per_s) t.
Proof.
  assert (Hden : 0 < ns_per_s) by reflexivity.
  pose proof (np_round_div_near t) as [Hlo Hhi].
  pose proof (@round_half_even_nearest_even (t - 4000) ns_per_s Hden) as Hn.
  pose proof (@round_half_even_nearest_even (t + 4000) ns_per_s Hden)
    as Hn'.
  unfold rounded_within_4us. unfold ns_per_s in *. split.
  - destruct Hn as [Hn|[Hn _]], Hn' as [Hn'|[Hn' _]]; lia.
  - intros k Hk.
    assert (E1 : round_half_even (t - 4000) 1000000000 = k)
      by (apply round_half_even_intro; [lia|]; left; lia).
    assert (E2 : round_half_even (t + 4000) 1000000000 = k)
      by (apply round_half_even_intro; [lia|]; left; lia).
    lia.
Qed.

Lemma valid_datetime_bounds (t : datetime) :
  valid_datetime t = true ->
  (1 <= year t <= 9999 /\ 1 <= month t <= 12 /\ 1 <= day t <= 31)
  /\ (0 <= hour t < 24 /\ 0 <= minute t < 60 /\ 0 <= second t < 60
      /\ 0 <= microsecond t < 1000000).
Proof.
  unfold valid_datetime. intros H. repeat rewrite andb_true_iff in H.
  repeat rewrite Z.leb_le in H. repeat rewrite Z.ltb_lt in H. lia.
Qed.

Lemma timedelta_seconds_since_midnight (t : datetime) :
  valid_datetime t = true ->
  timedelta_seconds t (Datetime (year t) (month t) (day t) 0 0 0 0)
  = hour t * 3600 + minute t * 60 + second t.
Proof.
  intros H. apply valid_datetime_bounds in H. destruct H as [_ H].
  unfold timedelta_seconds, to_microseconds. cbn.
  set (d := days_from_civil (year t) (month t) (day t)).
  replace ((((d * 24 + hour t) * 60 + minute t) * 60 + second t) * 1000000
           + microsecond t
           - ((((d * 24 + 0) * 60 + 0) * 60 + 0) * 1000000 + 0))
    with ((hour t * 3600 + minute t * 60 + second t) * 1000000
          + microsecond t) by lia.
  rewrite Z.div_add_l by lia.
  rewrite (Z.div_small (microsecond t)) by lia.
  rewrite Z.add_0_r. apply Z.mod_small. lia.
Qed.

Lemma int_from_app (s1 s2 : string) (acc : Z) :
  int_from acc (s1 ++ s2) = int_from (int_from acc s1) s2.
Proof.
  revert acc. induction s1 as [|c s1 IH]; intros acc; cbn; [reflexivity|].
  apply IH.
Qed.

Lemma int_from_shift (s : string) (acc : Z) :
  int_from acc s = acc * 10 ^ Z.of_nat (String.length s) + int_from 0 s.
Proof.
  revert acc. induction s as [|c s IH]; intros acc.
  - cbn. lia.
  - cbn [int_from String.length]. rewrite (IH (acc * 10 + digit_value c)).
    rewrite (IH (0 * 10 + digit_value c)).
    rewrite Nat2Z.inj_succ, Z.pow_succ_r by lia. lia.
Qed.

(** Printing a number below 10^w with ['{:0wd}'] gives w digits that
    read back as the number: checked for every such number. *)
Lemma format_reads_back (w : nat) (bound : nat) (n : Z) :
  forallb (reads_back w) (seq 0 bound) = true ->
  0 <= n < Z.of_nat bound ->
  String.length (format_0wd w (Z.to_N n)) = w
  /\ int_from 0 (format_0wd w (Z.to_N n)) = n.
Proof.
  intros Hall Hn. rewrite forallb_forall in Hall.
  specialize (Hall (Z.to_nat n)).
  unfold reads_back in Hall.
  replace (N.of_nat (Z.to_nat n)) with (Z.to_N n) in Hall by lia.
  rewrite andb_true_iff, Nat.eqb_eq, Z.eqb_eq in Hall.
  rewrite Z2Nat.id in Hall by lia.
  apply Hall. apply in_seq. lia.
Qed.

Lemma format_02d_reads_back (n : Z) (H : 0 <= n < 100) :
  String.length (format_0wd 2 (Z.to_N n)) = 2%nat
  /\ int_from 0 (format_0wd 2 (Z.to_N n)) = n.
Proof.
  apply (format_reads_back 2 100); [vm_compute; reflexivity|].
  change (Z.of_nat 100) with 100. exact H.
Qed.

Lemma format_04d_reads_back (n : Z) (H : 0 <= n < 10000) :
  String.length (format_0wd 4 (Z.to_N n)) = 4%nat
  /\ int_from 0 (format_0wd 4 (Z.to_N n)) = n.
Proof.
  apply (format_reads_back 4 (100 * 100)); [vm_compute; reflexivity|].
  change (Z.of_nat (100 * 100)) with 10000. exact H.
Qed.

(** The date of a datetime read as an integer is YYYYMMDD. *)
Lemma int_strftime_Ymd_value (t : datetime) :
  valid_datetime t = true ->
  int_strftime_Ymd (Datetime (year t) (month t) (day t) 0 0 0 0)
  = year t * 10000 + month t * 100 + day t.
Proof.
  intros H. apply valid_datetime_bounds in H. destruct H as [H _].
  unfold int_strftime_Ymd, int, strftime_Ymd. cbn [year month day].
  destruct (@format_04d_reads_back (year t)) as [_ Hy]; [lia|].
  destruct (@format_02d_reads_back (month t)) as [Lm Hm]; [lia|].
  destruct (@format_02d_reads_back (day t)) as [Ld Hd]; [lia|].
  rewrite !int_from_app.
  rewrite (int_from_shift (format_0wd 2 (Z.to_N (day t)))).
  rewrite (int_from_shift (format_0wd 2 (Z.to_N (month t)))).
  rewrite Hy, Hm, Hd, Lm, Ld. change (10 ^ Z.of_nat 2) with 100. lia.
Qed.

Lemma nth_error_map_sub (f : Z -> Z) (l : list Z) (i : nat) (x : Z) :
  nth_error l i = Some x -> nth_error (map f l) i = Some (f x).
Proof.
  intros H. rewrite nth_error_map, H. reflexivity.
Qed.

(** On a time coordinate of length n (at least one time point) the
    transform to model form yields three coordinates of length n: the
    date coordinate is the constant YYYYMMDD integer of the reference
    date, the second coordinate is the constant number of seconds from
    midnight of the reference date to the reference time, and element
    i of the time coordinate is time point i in whole seconds minus the
    first time point in whole seconds, where the whole seconds of a
    time point lie within half a second and 4 microseconds of it and
    are the nearest second unless the time point lies within 4
    microseconds of a half second. *)
Theorem time_to_ifs_coordinates (ref : datetime) (tile_time : list Z) :
  valid_datetime ref = true ->
  tile_time <> [] ->
  exists c,
    _time_to_ifs ref tile_time = inr c
    /\ List.length (time_coord c) = List.length tile_time
    /\ date_coord c
       = repeat (year ref * 10000 + month ref * 100 + day ref)
                (List.length tile_time)
    /\ second_coord c
       = repeat (hour ref * 3600 + minute ref * 60 + second ref)
                (List.length tile_time)
    /\ forall i ti t0,
         nth_error tile_time i = Some ti ->
         nth_error tile_time 0 = Some t0 ->
         exists ri r0,
           rounded_within_4us ri ti /\ rounded_within_4us r0 t0
           /\ nth_error (time_coord c) i = Some (ri - r0).
Proof.
  intros Hv Hne. destruct tile_time as [|t0 rest]; [congruence|].
  unfold _time_to_ifs. cbn [map].
  eexists. split; [reflexivity|]. cbn [time_coord date_coord second_coord].
  split; [| split; [| split]].
  - cbn [List.length]. now rewrite !length_map.
  - now rewrite int_strftime_Ymd_value.
  - now rewrite timedelta_seconds_since_midnight.
  - intros i ti t0' Hi H0. cbn in H0. injection H0 as <-.
    exists (np_round_div ti ns_per_s), (np_round_div t0 ns_per_s).
    split; [apply np_round_div_rounds_within|].
    split; [apply np_round_div_rounds_within|].
    change (np_round_div t0 ns_per_s - np_round_div t0 ns_per_s
            :: map (fun t => t - np_round_div t0 ns_per_s)
                   (map (fun x => np_round_div x ns_per_s) rest))
      with (map (fun t => t - np_round_div t0 ns_per_s)
                (map (fun x => np_round_div x ns_per_s) (t0 :: rest))).
    rewrite map_map.
    now apply (nth_error_map_sub
                 (fun x => np_round_div x ns_per_s
                           - np_round_div t0 ns_per_s)).
Qed.

Lemma time_to_ifs_coordinates_witness :
  exists c,
    _time_to_ifs (Datetime 2009 4 6 1 0 0 0)
                 [1238979600000000000; 1238980500400000000;
                  1238981400600000000] = inr c
    /\ time_coord c = [0; 900; 1801]
    /\ date_coord c = [20090406; 20090406; 20090406]
    /\ second_coord c = [3600; 3600; 3600].
Proof.
  destruct (@time_to_ifs_coordinates
              (Datetime 2009 4 6 1 0 0 0)
              [1238979600000000000; 1238980500400000000;
               1238981400600000000]) as [c [Hc _]];
    [reflexivity | discriminate |].
  exists c. split; [exact Hc|].
  vm_compute in Hc. injection Hc as <-. repeat split.
Defined.

(** C6: the time point 2009-04-06T01:15:00.500000001 is nearer to the
    second 01:15:01 than to 01:15:00, and rounded to the nearest second
    it lies 901 seconds after the first time point 01:00:00; the
    transform to model form gives 900: the quotient of the division by
    1.e9 in float64 is exactly 1238980500.5, which [np.round] takes to
    the even second below. *)
Theorem time_to_ifs_rounds_away_from_nearest_second :
  (exists c,
      _time_to_ifs (Datetime 2009 4 6 1 0 0 0)
                   [1238979600000000000; 1238980500500000001] = inr c
      /\ time_coord c = [0; 900])
  /\ float64_div (float64_of_int 1238980500500000001) ns_per_s * 2
     = 2477961001 * float64_unit
  /\ forall r0 r1,
       nearest_second r0 1238979600000000000 ->
       nearest_second r1 1238980500500000001 ->
       r1 - r0 = 901.
Proof.
  split; [|split].
  - eexists. split; vm_compute; reflexivity.
  - vm_compute. reflexivity.
  - unfold nearest_second, ns_per_s. intros r0 r1 H0 H1. lia.
Qed.

(** The value of the round trip on the code: every time point comes
    back as its rounded distance from the rounded first time point,
    added to the reference time. *)
Lemma time_round_trip_value (ref : datetime) (t0 : Z) (rest : list Z) :
  time_round_trip ref (t0 :: rest)
  = inr (map (fun t => np_round_div t ns_per_s
                       - np_round_div t0 ns_per_s + base_time ref)
             (t0 :: rest)).
Proof.
  unfold time_round_trip, _time_to_ifs, rebase_time.
  cbn [map time_coord]. rewrite !map_map. reflexivity.
Qed.

(** The round trip gives back the rounded time points when the first
    of them, rounded, is the reference time. *)
Lemma time_round_trip_from_reference (ref : datetime) (t0 : Z)
      (rest : list Z) :
  np_round_div t0 ns_per_s = base_time ref ->
  time_round_trip ref (t0 :: rest)
  = inr (map (fun t => np_round_div t ns_per_s) (t0 :: rest)).
Proof.
  intros H. rewrite time_round_trip_value.
  f_equal. apply map_ext. intros t. lia.
Qed.

(** C3: for the time coordinate [1970-01-01T00:00:05] and the reference
    time 1970-01-01T00:00:00 the transform to model form followed by
    the rebase yields [1970-01-01T00:00:00], which is not the time
    coordinate rounded to the second. *)
Theorem time_round_trip_loses_offset :
  time_round_trip (Datetime 1970 1 1 0 0 0 0) [5000000000] = inr [0]
  /\ rounded_to_second [5000000000] = [5].
Proof.
  split; vm_compute; reflexivity.
Qed.

End TimeProperties.

(** ** Grid assembly: sorting the tiles *)

Section GridAssembly.

Import PP.

Variable A : Type.

Lemma insert_by_key_perm (x : Z * A) (l : list (Z * A)) :
  Permutation (x :: l) (insert_by_key x l).
Proof.
  induction l as [|y l IH]; cbn; [reflexivity|].
  destruct (fst x <=? fst y); [reflexivity|].
  rewrite perm_swap. now apply perm_skip.
Qed.

Lemma sort_by_key_perm (l : list (Z * A)) :
  Permutation l (sort_by_key l).
Proof.
  induction l as [|x l IH]; cbn; [constructor|].
  rewrite <- insert_by_key_perm. now apply perm_skip.
Qed.

Lemma insert_by_key_sorted (x : Z * A) (l : list (Z * A)) :
  StronglySorted key_le l -> StronglySorted key_le (insert_by_key x l).
Proof.
  induction 1 as [|y l Hs IH Hall]; cbn.
  - repeat constructor.
  - destruct (Z.leb_spec (fst x) (fst y)) as [Hle|Hgt].
    + constructor; [now constructor|].
      constructor; [exact Hle|].
      eapply Forall_impl; [|exact Hall].
      intros z Hz. unfold key_le in *. lia.
    + constructor; [exact IH|].
      eapply Permutation_Forall; [apply insert_by_key_perm|].
      constructor; [unfold key_le; lia | exact Hall].
Qed.

Lemma sort_by_key_sorted (l : list (Z * A)) :
  StronglySorted key_le (sort_by_key l).
Proof.
  induction l as [|x l IH]; cbn; [constructor|].
  now apply insert_by_key_sorted.
Qed.

(** A list that is already in ascending key order is left as it is. *)
Lemma sort_by_key_ascending (l : list (Z * A)) :
  StronglySorted key_le l -> sort_by_key l = l.
Proof.
  induction 1 as [|x l Hs IH Hall]; [reflexivity|].
  unfold sort_by_key in *. cbn [fold_right]. rewrite IH.
  destruct l as [|y l]; [reflexivity|]. cbn [insert_by_key].
  inversion Hall as [|? ? Hxy _]; subst. unfold key_le in Hxy.
  destruct (Z.leb_spec (fst x) (fst y)); [reflexivity | lia].
Qed.

(** Two ascending lists with the same elements and distinct keys are
    the same list. *)
Lemma ascending_unique (l1 l2 : list (Z * A)) :
  StronglySorted key_le l1 -> StronglySorted key_le l2 ->
  NoDup (map fst l1) -> Permutation l1 l2 -> l1 = l2.
Proof.
  intros S1. revert l2.
  induction S1 as [|a l1 S1 IH Ha]; intros l2 S2 Hnd Hp.
  - apply Permutation_nil in Hp. now subst.
  - destruct l2 as [|b l2];
      [apply Permutation_sym, Permutation_nil in Hp; discriminate|].
    inversion S2 as [|? ? S2' Hb]; subst.
    cbn in Hnd. inversion Hnd as [|? ? Hna Hnd']; subst.
    assert (Hab : a = b).
    { assert (Hin : In a (b :: l2))
        by (eapply Permutation_in; [exact Hp | now left]).
      destruct Hin as [->|Hin]; [reflexivity|].
      assert (Hin' : In b (a :: l1))
        by (eapply Permutation_in;
            [apply Permutation_sym; exact Hp | now left]).
      destruct Hin' as [->|Hin']; [reflexivity|].
      rewrite Forall_forall in Ha, Hb.
      specialize (Ha _ Hin'). specialize (Hb _ Hin).
      unfold key_le in *.
      exfalso. apply Hna.
      replace (fst a) with (fst b) by lia.
      now apply in_map. }
    subst b. f_equal. apply IH; auto.
    now apply Permutation_cons_inv in Hp.
Qed.

Lemma sort_by_key_permutation_invariant (l1 l2 : list (Z * A)) :
  NoDup (map fst l1) -> Permutation l1 l2 ->
  sort_by_key l1 = sort_by_key l2.
Proof.
  intros Hnd Hp. apply ascending_unique.
  - apply sort_by_key_sorted.
  - apply sort_by_key_sorted.
  - eapply Permutation_NoDup; [|exact Hnd].
    apply Permutation_map, sort_by_key_perm.
  - rewrite <- (sort_by_key_perm l1), <- (sort_by_key_perm l2).
    exact Hp.
Qed.

Variable key : A -> exn + Z.

Lemma decorate_keys (l : list A) (kl : list (Z * A)) :
  decorate key l = inr kl ->
  map snd kl = l /\ map key l = map (fun p => inr (fst p)) kl.
Proof.
  revert kl. induction l as [|a l IH]; cbn; intros kl H.
  - injection H as <-. now split.
  - destruct (key a) as [e|k] eqn:Hk; [discriminate|].
    destruct (decorate key l) as [e|kl'] eqn:Hd; [discriminate|].
    injection H as <-. destruct (IH _ eq_refl) as [Hs Hm].
    cbn. rewrite Hs, Hm. now split.
Qed.

Lemma decorate_fails (l : list A) (e : exn) :
  decorate key l = inl e -> exists a, In a l /\ key a = inl e.
Proof.
  induction l as [|a l IH]; cbn; [discriminate|].
  destruct (key a) as [e'|k] eqn:Hk.
  - intros H. injection H as <-. exists a. auto.
  - destruct (decorate key l) as [e'|kl]; [|discriminate].
    intros H. injection H as <-.
    destruct (IH eq_refl) as [a' [Hin Ha']]. exists a'. auto.
Qed.

Lemma decorate_perm (l1 l2 : list A) (kl1 : list (Z * A)) :
  Permutation l1 l2 -> decorate key l1 = inr kl1 ->
  exists kl2, decorate key l2 = inr kl2 /\ Permutation kl1 kl2.
Proof.
  intros Hp. revert kl1.
  induction Hp as [|a l1 l2 Hp IH|a b l|l1 l2 l3 H12 IH12 H23 IH23];
    intros kl1; cbn.
  - intros H. injection H as <-. eauto.
  - destruct (key a) as [e|k]; [discriminate|].
    destruct (decorate key l1) as [e|kl] eqn:Hd; [discriminate|].
    intros H. injection H as <-.
    destruct (IH _ eq_refl) as [kl2 [-> Hp2]]. eauto using perm_skip.
  - destruct (key b) as [e|kb]; [discriminate|].
    destruct (key a) as [e|ka]; [discriminate|].
    destruct (decorate key l) as [e|kl]; [discriminate|].
    intros H. injection H as <-. eexists. split; [reflexivity|].
    apply perm_swap.
  - intros H. destruct (IH12 _ H) as [kl2 [H2 Hp2]].
    destruct (IH23 _ H2) as [kl3 [H3 Hp3]].
    exists kl3. split; [exact H3|]. now transitivity kl2.
Qed.

End GridAssembly.

Section GridOrder.

Import PP.

Lemma y_values_max_error (d : Dataset) (e : exn) :
  y_values_max d = inl e ->
  e = Raise ValueError "zero-size array to reduction operation maximum".
Proof.
  unfold y_values_max.
  destruct (map cell_y (List.concat (ds_rows d))); intros H;
    [now injection H as <- | discriminate].
Qed.

Lemma sorted_permutation_invariant (ts ts' : list Dataset) :
  Permutation ts ts' -> NoDup (map y_values_max ts) ->
  sorted y_values_max ts = sorted y_values_max ts'.
Proof.
  intros Hp Hnd. unfold sorted.
  destruct (decorate y_values_max ts) as [e|kl] eqn:Hd.
  - destruct (decorate y_values_max ts') as [e'|kl'] eqn:Hd'.
    + apply decorate_fails in Hd, Hd'.
      destruct Hd as [a [_ Ha]], Hd' as [a' [_ Ha']].
      apply y_values_max_error in Ha, Ha'. now subst.
    + destruct (decorate_perm y_values_max (Permutation_sym Hp) Hd')
        as [kl2 [Hkl2 _]]. congruence.
  - destruct (decorate_perm y_values_max Hp Hd) as [kl' [-> Hp']].
    rewrite (@sort_by_key_permutation_invariant _ kl kl'); auto.
    destruct (decorate_keys y_values_max _ Hd) as [_ Hm]. rewrite Hm in Hnd.
    rewrite <- (map_map fst (fun k => @inr exn Z k)) in Hnd.
    eapply NoDup_map_inv. exact Hnd.
Qed.

Lemma fold_left_max_spec (ys : list Z) (y : Z) :
  In (fold_left Z.max ys y) (y :: ys)
  /\ forall z, In z (y :: ys) -> z <= fold_left Z.max ys y.
Proof.
  revert y. induction ys as [|a ys IH]; intros y; cbn [fold_left].
  - split; [now left|]. intros z [<-|[]]. lia.
  - destruct (IH (Z.max y a)) as [Hin Hub]. split.
    + destruct Hin as [Hm|Hin]; [|now right; right].
      rewrite <- Hm. destruct (Z.max_spec y a) as [[_ ->]|[_ ->]];
        [right; now left | now left].
    + intros z Hz.
      assert (Hza : z <= Z.max y a \/ In z ys).
      { destruct Hz as [<-|[<-|Hz]]; [left; lia | left; lia | now right]. }
      destruct Hza as [Hle|Hz'].
      * pose proof (Hub (Z.max y a) (or_introl eq_refl)). lia.
      * apply Hub. now right.
Qed.

(** The key by which the tiles are sorted is the maximum row
    coordinate of the tile. *)
Lemma y_values_max_is_maximum (t : Dataset) (m : Z) :
  max_row_coordinate t m <-> y_values_max t = inr m.
Proof.
  unfold max_row_coordinate, y_values_max.
  destruct (map cell_y (List.concat (ds_rows t))) as [|y ys] eqn:Hys.
  - split; [|discriminate]. intros [[c [Hc _]] _].
    apply (in_map cell_y) in Hc. rewrite Hys in Hc. contradiction.
  - destruct (fold_left_max_spec ys y) as [Hin Hub].
    rewrite <- Hys in Hin, Hub. split.
    + intros [[c [Hc Hm]] Hmax]. f_equal.
      apply in_map_iff in Hin. destruct Hin as [c' [Hc' Hin']].
      pose proof (Hmax c' Hin'). rewrite Hc' in *.
      pose proof (Hub (cell_y c) (in_map cell_y _ _ Hc)). lia.
    + intros H. injection H as <-. split.
      * apply in_map_iff in Hin. destruct Hin as [c [Hc Hin]]. eauto.
      * intros c Hc. apply Hub. now apply in_map.
Qed.

Lemma decorate_of_keys (ts : list Dataset) (keys : list Z) :
  Forall2 max_row_coordinate ts keys ->
  decorate y_values_max ts = inr (combine keys ts).
Proof.
  induction 1 as [|t k ts keys Hk _ IH]; [reflexivity|].
  cbn. apply y_values_max_is_maximum in Hk. now rewrite Hk, IH.
Qed.

Lemma NoDup_map_inr (l : list Z) :
  NoDup l -> NoDup (map (fun k => @inr exn Z k) l).
Proof.
  induction 1 as [|k l Hk _ IH]; cbn; constructor; [|exact IH].
  intros Hin. apply in_map_iff in Hin. destruct Hin as [k' [E Hin]].
  injection E as ->. contradiction.
Qed.

Lemma StronglySorted_strict (l : list Z) :
  StronglySorted Z.le l -> NoDup l -> StronglySorted Z.lt l.
Proof.
  induction 1 as [|x l Hs IH Hall]; intros Hnd; [constructor|].
  inversion Hnd as [|? ? Hx Hnd']; subst.
  constructor; [now apply IH|].
  apply Forall_forall. intros y Hy.
  pose proof (proj1 (Forall_forall _ _) Hall y Hy).
  assert (x <> y) by (intros ->; contradiction). lia.
Qed.

(** C5: the tiles are sorted by the maximum row-coordinate value
    present in each tile before they are concatenated along the row
    dimension: for tile datasets whose maxima are distinct, every
    permutation assembles to the same grid, which is the concatenation
    of the tiles taken in strictly ascending order of their maximum
    row coordinate, and which is also what assembling the tiles
    pre-sorted in that order gives. *)
Theorem assemble_grid_order_independent (ts ts' : list Dataset)
        (keys : list Z) :
  Forall2 max_row_coordinate ts keys ->
  NoDup keys ->
  Permutation ts ts' ->
  exists ordered okeys,
    Permutation ts ordered
    /\ Forall2 max_row_coordinate ordered okeys
    /\ StronglySorted Z.lt okeys
    /\ assemble_grid ts' = xr_concat_y ordered
    /\ assemble_grid ts = xr_concat_y ordered
    /\ assemble_grid ordered = xr_concat_y ordered.
Proof.
  intros Hkeys Hnd Hp.
  pose proof (decorate_of_keys Hkeys) as Hd.
  assert (Hlen : List.length ts = List.length keys)
    by (eapply Forall2_length; exact Hkeys).
  set (kl := combine keys ts) in *.
  assert (Hfst : map fst kl = keys).
  { unfold kl. clear -Hlen. revert ts Hlen.
    induction keys as [|k keys IH]; intros [|t ts] H;
      try discriminate; [reflexivity|]. cbn. f_equal. apply IH.
    now injection H. }
  assert (Hsnd : map snd kl = ts)
    by (now destruct (decorate_keys y_values_max _ Hd)).
  assert (Hall : Forall (fun p => max_row_coordinate (snd p) (fst p)) kl).
  { unfold kl. clear -Hkeys.
    induction Hkeys as [|t k ts keys Hk _ IH]; constructor; auto. }
  pose proof (sort_by_key_perm kl) as Hperm.
  pose proof (sort_by_key_sorted kl) as Hsorted.
  assert (Hall' : Forall (fun p => max_row_coordinate (snd p) (fst p))
                         (sort_by_key kl))
    by (eapply Permutation_Forall; eassumption).
  assert (Hnd' : NoDup (map y_values_max ts)).
  { destruct (decorate_keys y_values_max _ Hd) as [_ ->].
    rewrite <- (map_map fst (fun k => @inr exn Z k)), Hfst.
    apply NoDup_map_inr. exact Hnd. }
  assert (Hts : assemble_grid ts
                = xr_concat_y (map snd (sort_by_key kl))).
  { unfold assemble_grid, sorted. now rewrite Hd. }
  exists (map snd (sort_by_key kl)), (map fst (sort_by_key kl)).
  split; [|split; [|split; [|split; [|split]]]].
  - rewrite <- Hsnd at 1. now apply Permutation_map.
  - clear -Hall'. induction Hall' as [|p l Hp _ IH]; constructor; auto.
  - apply StronglySorted_strict.
    + clear -Hsorted.
      induction Hsorted as [|p l _ IH Hp]; cbn; constructor; auto.
      rewrite Forall_map. exact Hp.
    + eapply Permutation_NoDup; [|rewrite <- Hfst in Hnd; exact Hnd].
      now apply Permutation_map.
  - rewrite <- Hts. unfold assemble_grid.
    now rewrite (sorted_permutation_invariant Hp Hnd').
  - exact Hts.
  - unfold assemble_grid, sorted.
    assert (Hd' : decorate y_values_max (map snd (sort_by_key kl))
                  = inr (sort_by_key kl)).
    { clear -Hall'. induction Hall' as [|p l Hp _ IH]; [reflexivity|].
      cbn. apply y_values_max_is_maximum in Hp. rewrite Hp, IH.
      now destruct p. }
    rewrite Hd'. rewrite sort_by_key_ascending by exact Hsorted.
    reflexivity.
Qed.

Lemma assemble_grid_order_independent_witness :
  assemble_grid [Scenario.north_tile; Scenario.south_tile]
  = xr_concat_y [Scenario.south_tile; Scenario.north_tile]
  /\ exists ordered okeys,
       Permutation [Scenario.south_tile; Scenario.north_tile] ordered
       /\ Forall2 max_row_coordinate ordered okeys
       /\ StronglySorted Z.lt okeys
       /\ assemble_grid [Scenario.north_tile; Scenario.south_tile]
          = xr_concat_y ordered
       /\ assemble_grid [Scenario.south_tile; Scenario.north_tile]
          = xr_concat_y ordered
       /\ assemble_grid ordered = xr_concat_y ordered.
Proof.
  split; [vm_compute; reflexivity|].
  apply (@assemble_grid_order_independent
           [Scenario.south_tile; Scenario.north_tile]
           [Scenario.north_tile; Scenario.south_tile]
           [10; 20]).
  - repeat constructor; cbn;
      try (eexists; split; [left; reflexivity | reflexivity]);
      intros c [<-|[<-|[]]]; cbn; lia.
  - repeat constructor; cbn; intuition discriminate.
  - apply perm_swap.
Defined.

End GridOrder.

(** ** Tile assembly: grouping the cells into rows *)

Section TileGrouping.

Import PP.
Local Open Scope list_scope.

Lemma od_append_new (od : grid_rows_t) (k : N) (v : CellDataset) :
  Forall (fun e => fst e <> k) od ->
  od_append k v od = (od ++ [(k, [v])])%list.
Proof.
  induction 1 as [|[k' row] od Hk _ IH]; cbn; [reflexivity|].
  cbn in Hk. destruct (N.eqb_spec k' k); [contradiction|].
  now rewrite IH.
Qed.

Lemma od_append_last (od : grid_rows_t) (k : N)
      (row : list CellDataset) (v : CellDataset) :
  Forall (fun e => fst e <> k) od ->
  od_append k v (od ++ [(k, row)])
  = (od ++ [(k, (row ++ [v])%list)])%list.
Proof.
  induction 1 as [|[k' row'] od Hk _ IH]; cbn.
  - now rewrite N.eqb_refl.
  - cbn in Hk. destruct (N.eqb_spec k' k); [contradiction|].
    now rewrite IH.
Qed.

Lemma dict_of_rows_app (r1 r2 : list (list loaded_cell)) :
  dict_of_rows (r1 ++ r2) = (dict_of_rows r1 ++ dict_of_rows r2)%list.
Proof. apply map_app. Qed.

Lemma grouped_nil : grouped [] [].
Proof. exists []. repeat split; constructor. Qed.

Lemma StronglySorted_snoc {A} (R : A -> A -> Prop) (l : list A) (a : A) :
  StronglySorted R l -> Forall (fun b => R b a) l ->
  StronglySorted R (l ++ [a]).
Proof.
  induction 1 as [|b l Hs IH Hb]; intros Ha; cbn.
  - repeat constructor.
  - inversion Ha; subst. constructor; [now apply IH|].
    apply Forall_app. split; [exact Hb | now constructor].
Qed.

Lemma StronglySorted_snoc_inv {A} (R : A -> A -> Prop) (l : list A)
      (a : A) :
  StronglySorted R (l ++ [a]) ->
  StronglySorted R l /\ Forall (fun b => R b a) l.
Proof.
  induction l as [|b l IH]; cbn; intros H.
  - split; constructor.
  - inversion H as [|? ? Hs Hb]; subst.
    destruct (IH Hs) as [Hl Ha].
    apply Forall_app in Hb. destruct Hb as [Hb Hba].
    inversion Hba; subst. split; constructor; auto.
Qed.

Lemma grouped_step (od : grid_rows_t) (items : list loaded_cell)
      (p : loaded_cell) :
  grouped od items ->
  Forall (fun q => cell_lt (fst q) (fst p)) items ->
  grouped (group_step od p) (items ++ [p]).
Proof.
  intros [rows [Hc [-> [Hok Hs]]]] Hlt. unfold group_step.
  assert (Hrow_p : row_ok [p]).
  { repeat split; [discriminate | | repeat constructor].
    intros a b [<-|[]] [<-|[]]. reflexivity. }
  destruct rows as [|r0 rows0] using rev_ind.
  - cbn in Hc. subst items. exists [[p]]. cbn.
    repeat split; repeat constructor; apply Hrow_p.
  - clear IHrows0. subst items.
    apply Forall_app in Hok. destruct Hok as [Hok0 Hokr].
    inversion Hokr as [|? ? Hr0 _]; subst. clear Hokr.
    apply StronglySorted_snoc_inv in Hs. destruct Hs as [Hs0 Hlast].
    destruct Hr0 as [Hne [Hsame Hcols]].
    destruct r0 as [|q0 r0]; [contradiction|].
    rewrite concat_app in Hlt. cbn in Hlt. rewrite app_nil_r in Hlt.
    apply Forall_app in Hlt. destruct Hlt as [Hlt0 Hltr].
    assert (Hinit : forall k,
               (row_index q0 <= k)%N ->
               Forall (fun e => fst e <> k) (dict_of_rows rows0)).
    { intros k Hk. unfold dict_of_rows. rewrite Forall_map.
      rewrite Forall_forall in Hlast, Hok0 |- *.
      intros row Hrow. cbn.
      destruct (Hok0 _ Hrow) as [Hne' _].
      destruct row as [|q row]; [contradiction|].
      specialize (Hlast _ Hrow q q0 (or_introl eq_refl)
                        (or_introl eq_refl)).
      lia. }
    assert (Hq0p : (row_index q0 <= row_index p)%N).
    { inversion Hltr as [|? ? Hq _]; subst.
      unfold cell_lt, row_index in *. lia. }
    rewrite dict_of_rows_app. cbn [dict_of_rows map].
    destruct (N.eq_dec (row_index q0) (row_index p)) as [Heq|Hneq].
    + (* the cell continues the last row *)
      rewrite Heq. rewrite od_append_last
        by (apply Hinit; lia).
      exists (rows0 ++ [(q0 :: r0) ++ [p]])%list.
      split; [|split; [|split]].
      * rewrite !concat_app. cbn. rewrite !app_nil_r.
        now rewrite <- !app_assoc.
      * rewrite dict_of_rows_app. cbn. now rewrite Heq, map_app.
      * apply Forall_app. split; [exact Hok0|]. constructor; [|constructor].
        repeat split; [discriminate | |].
        -- intros a b Ha Hb. apply in_app_iff in Ha, Hb.
           assert (Hin0 : In q0 (q0 :: r0)) by now left.
           destruct Ha as [Ha|[<-|[]]], Hb as [Hb|[<-|[]]]; auto.
           ++ rewrite <- Heq. auto.
           ++ rewrite <- Heq. auto.
        -- apply StronglySorted_snoc; [exact Hcols|].
           rewrite Forall_forall in Hltr |- *. intros a Ha.
           specialize (Hltr _ Ha).
           assert (Hya : row_index a = row_index p)
             by (rewrite <- Heq; apply Hsame; [exact Ha | now left]).
           unfold cell_lt, row_index, column_index in *. lia.
      * apply StronglySorted_snoc; [exact Hs0|].
        rewrite Forall_forall in Hlast |- *. intros row Hrow a b Ha Hb.
        apply in_app_iff in Hb. destruct Hb as [Hb|[<-|[]]].
        -- now apply (Hlast _ Hrow).
        -- rewrite <- Heq. apply (Hlast _ Hrow); [exact Ha | now left].
    + (* the cell starts a new row *)
      assert (Hq0p' : (row_index q0 < row_index p)%N) by lia.
      rewrite od_append_new.
      2:{ apply Forall_app. split; [apply Hinit; lia|].
          constructor; [cbn; lia | constructor]. }
      exists ((rows0 ++ [q0 :: r0]) ++ [[p]])%list.
      split; [|split; [|split]].
      * rewrite !concat_app. cbn. now rewrite !app_nil_r.
      * rewrite !dict_of_rows_app. reflexivity.
      * apply Forall_app. split; [apply Forall_app; split|].
        -- exact Hok0.
        -- constructor; [|constructor]. repeat split; auto.
        -- constructor; [exact Hrow_p | constructor].
      * apply StronglySorted_snoc.
        -- apply StronglySorted_snoc; assumption.
        -- apply Forall_app. split.
           ++ rewrite Forall_forall in Hlast |- *.
              intros row Hrow a b Ha [<-|[]].
              specialize (Hlast _ Hrow a q0 Ha (or_introl eq_refl)). lia.
           ++ constructor; [|constructor].
              intros a b Ha [<-|[]].
              rewrite (Hsame a q0 Ha (or_introl eq_refl)). exact Hq0p'.
Qed.

Lemma grouped_fold (items done : list loaded_cell) (od : grid_rows_t) :
  grouped od done ->
  StronglySorted (fun a b => cell_lt (fst a) (fst b)) (done ++ items) ->
  grouped (fold_left group_step items od) (done ++ items).
Proof.
  revert done od. induction items as [|p items IH]; intros done od Hg Hs.
  - now rewrite app_nil_r.
  - cbn [fold_left].
    replace (done ++ p :: items)%list with ((done ++ [p]) ++ items)%list
      in * by now rewrite <- app_assoc.
    apply IH; [|exact Hs].
    apply grouped_step; [exact Hg|].
    clear -Hs. induction done as [|q done IHd]; [constructor|].
    cbn in Hs. inversion Hs as [|? ? Hs' Hq]; subst.
    constructor; [|now apply IHd].
    rewrite Forall_forall in Hq. apply Hq.
    apply in_app_iff. left. apply in_app_iff. right. now left.
Qed.

End TileGrouping.

Section TileAssembly.

Import PP.
Local Open Scope list_scope.

Context {W : Type} {os : OS W}.

Variables (config : SCMTilesConfig) (timestamp : string)
          (templates : Templates) (drop_list : list string).

Lemma open_datasets_reads (fps : list string) :
  reads (open_datasets fps drop_list).
Proof.
  induction fps as [|fp fps IH]; cbn [open_datasets].
  - apply reads_ret.
  - apply reads_bind; [apply reads_read|]. intros ds.
    apply reads_bind; [exact IH|]. intros l. apply reads_ret.
Qed.

(** [pp_cell] only reads. *)
Lemma pp_cell_state (c : Cell) (s : state W) :
  fst (pp_cell c timestamp templates drop_list config s) = s.
Proof.
  revert s. change (reads (pp_cell c timestamp templates drop_list config)).
  unfold pp_cell.
  apply reads_bind.
  - apply reads_try_except.
    + apply reads_bind; [apply open_datasets_reads|].
      intros l. apply reads_ret.
    + constructor; [|constructor]. intros e. apply reads_raise.
  - intros cell_ds. unfold getitem.
    apply reads_bind; [destruct nth_error; [apply reads_ret|apply reads_raise]|].
    intros x. apply reads_bind;
      [destruct nth_error; [apply reads_ret|apply reads_raise]|].
    intros y. apply reads_ret.
Qed.

Lemma pp_tile_cells_ok (cells : list Cell)
      (results : list (CellDataset * string)) (s : state W) :
  Forall2 (fun c r =>
             snd (pp_cell c timestamp templates drop_list config s)
             = inr r) cells results ->
  forall od fps,
    pp_tile_cells config timestamp templates drop_list cells od fps s
    = (s, inr (fold_left group_step (combine cells results) od,
               fps ++ map snd results)).
Proof.
  induction 1 as [|c r cells results Hc _ IH]; intros od fps.
  - cbn. now rewrite app_nil_r.
  - cbn [pp_tile_cells]. unfold bind at 1.
    pose proof (pp_cell_state c s) as Hs.
    destruct (pp_cell c timestamp templates drop_list config s)
      as [s' r']. cbn in Hs, Hc. subst s' r'.
    destruct r as [cell_ds cell_filepath].
    rewrite IH. cbn. now rewrite <- app_assoc.
Qed.

Lemma concat_rows_ok (rows : list (list loaded_cell)) (s : state W) :
  Forall (fun row => row <> []) rows ->
  concat_rows (dict_of_rows rows) s = (s, inr (map row_dataset rows)).
Proof.
  induction 1 as [|row rows Hne _ IH]; [reflexivity|].
  cbn [dict_of_rows map concat_rows]. unfold bind at 1, read at 1.
  destruct row as [|p row]; [contradiction|]. cbn [xr_concat_x map].
  unfold bind. unfold dict_of_rows in IH. rewrite IH. reflexivity.
Qed.

Lemma flat_map_row_dataset (rows : list (list loaded_cell)) :
  flat_map ds_rows (map row_dataset rows) = map (map dataset_of) rows.
Proof.
  induction rows as [|row rows IH]; cbn; [reflexivity|]. now rewrite IH.
Qed.

Lemma combine_row_major (cells : list Cell)
      (results : list (CellDataset * string)) :
  StronglySorted cell_lt cells ->
  StronglySorted (fun a b : loaded_cell => cell_lt (fst a) (fst b))
                 (combine cells results).
Proof.
  intros Hs. revert results.
  induction Hs as [|c cells Hs IH Hc]; intros [|r results];
    cbn; try constructor.
  - apply IH.
  - rewrite Forall_forall in Hc |- *. intros [c' r'] Hin. cbn.
    apply Hc. eapply in_combine_l. exact Hin.
Qed.

(** C4, as amended: when every cell of a tile loads and [tile.cells()]
    yields the cells in ascending (y_global, x_global) order, [pp_tile]
    returns a tile dataset whose rows are in ascending y_global order
    and whose cells within each row are in ascending x_global order:
    the rows, one after the other, are the cells in the order in which
    they were supplied. *)
Theorem pp_tile_row_major (tile : Tile)
        (results : list (CellDataset * string)) (s : state W) :
  tile_cells tile <> [] ->
  Forall2 (fun c r =>
             snd (pp_cell c timestamp templates drop_list config s)
             = inr r) (tile_cells tile) results ->
  StronglySorted cell_lt (tile_cells tile) ->
  exists tile_ds rows,
    pp_tile config timestamp templates drop_list tile s
    = ((fst s,
        snd s ++ [(INFO, ("processing of tile #" ++ str_N (tile_id tile)
                          ++ " completed")%string)]),
       inr (tile_ds, map snd results))
    /\ List.concat rows = combine (tile_cells tile) results
    /\ ds_rows tile_ds = map (map dataset_of) rows
    /\ Forall row_ok rows
    /\ StronglySorted row_lt rows.
Proof.
  intros Hne Hall Hsorted.
  destruct (@grouped_fold (combine (tile_cells tile) results) [] []
              grouped_nil (combine_row_major results Hsorted))
    as [rows [Hc [Hod [Hok Hs]]]].
  cbn [app] in Hc, Hod.
  assert (Hrows : rows <> []).
  { intros ->. cbn in Hc. destruct Hall; [now apply Hne|discriminate]. }
  assert (Hnonempty : Forall (fun row : list loaded_cell => row <> []) rows).
  { eapply Forall_impl; [|exact Hok]. now intros row [H _]. }
  unfold pp_tile. unfold bind at 1.
  erewrite pp_tile_cells_ok by exact Hall. cbn [app]. rewrite Hod.
  unfold bind at 1. erewrite concat_rows_ok by exact Hnonempty.
  rewrite length_map.
  destruct rows as [|row0 [|row1 rows]]; [now contradiction Hrows| |].
  - exists (row_dataset row0), [row0].
    split; [reflexivity|]. split; [exact Hc|]. split; [reflexivity|].
    split; assumption.
  - eexists. exists (row0 :: row1 :: rows).
    split; [reflexivity|]. split; [exact Hc|].
    split; [|split; assumption].
    cbn [ds_rows]. apply flat_map_row_dataset.
Qed.

End TileAssembly.

Section TileExamples.

Import PP Disk Scenario.

Lemma pp_tile_row_major_witness :
  exists tile_ds paths,
    snd (pp_tile cfg "20090406_010000" grid []
                 (MkTile 0 [c00; c10; c01; c11])
                 (pp_world [c00; c10; c01; c11], []))
    = inr (tile_ds, paths)
    /\ map (map cell_x) (ds_rows tile_ds) = [[100; 101]; [100; 101]]
    /\ map (map cell_y) (ds_rows tile_ds) = [[10; 10]; [20; 20]].
Proof.
  edestruct (@pp_tile_row_major
               Disk.world Disk.disk_os cfg "20090406_010000" grid []
               (MkTile 0 [c00; c10; c01; c11])
               [loaded c00 10 100; loaded c10 10 101;
                loaded c01 20 100; loaded c11 20 101]
               (pp_world [c00; c10; c01; c11], []))
    as [tile_ds [rows [H _]]].
  - discriminate.
  - cbn [tile_cells].
    repeat (constructor; [vm_compute; reflexivity|]). constructor.
  - cbn [tile_cells]. unfold cell_lt.
    repeat constructor; cbn; lia.
  - exists tile_ds. eexists. rewrite H. split; [reflexivity|].
    vm_compute in H. injection H as <-. split; reflexivity.
Defined.

(** C4, as stated, fails: the two cells of a row supplied in the order
    x_global = 1, x_global = 0 are assembled in that order, which is
    not the tile assembled from the cells in ascending order. *)
Lemma pp_tile_depends_on_cell_order :
  Permutation [c10; c00] [c00; c10]
  /\ exists d1 d2 paths1 paths2,
       snd (pp_tile cfg "20090406_010000" grid [] (MkTile 0 [c10; c00])
                    (pp_world [c00; c10], []))
       = inr (d1, paths1)
       /\ snd (pp_tile cfg "20090406_010000" grid [] (MkTile 0 [c00; c10])
                       (pp_world [c00; c10], []))
          = inr (d2, paths2)
       /\ map (map cell_x) (ds_rows d1) = [[101; 100]]
       /\ map (map cell_x) (ds_rows d2) = [[100; 101]]
       /\ d1 <> d2.
Proof.
  split; [apply perm_swap|].
  do 4 eexists.
  split; [vm_compute; reflexivity|].
  split; [vm_compute; reflexivity|].
  split; [reflexivity|]. split; [reflexivity|]. discriminate.
Qed.

End TileExamples.

(** ** The runner: how [run_cell] ends *)

Section RunnerLemmas.

Import SCM.
Local Open Scope list_scope.

Context {W : Type} {os : OS W}.

Lemma bind_inl {A B} (m : M W A) (k : A -> M W B) (s s' : state W)
      (e : exn) :
  m s = (s', inl e) -> bind m k s = (s', inl e).
Proof. intros H. unfold bind. now rewrite H. Qed.

Lemma bind_inr {A B} (m : M W A) (k : A -> M W B) (s s' : state W)
      (a : A) :
  m s = (s', inr a) -> bind m k s = k a s'.
Proof. intros H. unfold bind. now rewrite H. Qed.

Lemma bind_inv_inr {A B} (m : M W A) (k : A -> M W B) (s s' : state W)
      (b : B) :
  bind m k s = (s', inr b) ->
  exists s1 a, m s = (s1, inr a) /\ k a s1 = (s', inr b).
Proof.
  unfold bind. destruct (m s) as [s1 [e|a]]; [discriminate|]. eauto.
Qed.

Lemma bind_inv_inl {A B} (m : M W A) (k : A -> M W B) (s s' : state W)
      (e : exn) :
  bind m k s = (s', inl e) ->
  m s = (s', inl e)
  \/ exists s1 a, m s = (s1, inr a) /\ k a s1 = (s', inl e).
Proof.
  unfold bind. destruct (m s) as [s1 [e'|a]]; intros H;
    [injection H as -> ->; now left | eauto].
Qed.

Lemma try_except_inr {A} (body : M W A)
      (clauses : list (list exn_class * (exn -> M W A)))
      (s s' : state W) (a : A) :
  body s = (s', inr a) -> try_except body clauses s = (s', inr a).
Proof. intros H. unfold try_except. now rewrite H. Qed.

Lemma try_except_inl {A} (body : M W A)
      (clauses : list (list exn_class * (exn -> M W A)))
      (s s' : state W) (e : exn) :
  body s = (s', inl e) -> try_except body clauses s = dispatch e clauses s'.
Proof. intros H. unfold try_except. now rewrite H. Qed.

(** The verification loop stops at the first file that is missing or
    empty. *)
Lemma check_files_find (rd : string) (files : list string) (s : state W) :
  check_files rd files s
  = (s, match find (fun f => missing_or_empty (pjoin rd f) (fst s)) files with
        | Some f =>
            inl (Raise SCMError
                       ("SCM run did not complete correctly, " ++ dquote
                        ++ pjoin rd f ++ dquote ++ " missing or empty."))
        | None => inr tt
        end).
Proof.
  induction files as [|f files IH]; [reflexivity|].
  cbn [check_files find]. unfold bind, get.
  destruct (missing_or_empty (pjoin rd f) (fst s)); [reflexivity | exact IH].
Qed.

Lemma check_files_passes (rd : string) (files : list string)
      (s s' : state W) :
  check_files rd files s = (s', inr tt) ->
  s' = s
  /\ forall f, In f files -> missing_or_empty (pjoin rd f) (fst s) = false.
Proof.
  rewrite check_files_find.
  destruct (find _ files) as [f|] eqn:Hf; [discriminate|].
  intros H. injection H as <-. split; [reflexivity|].
  intros f Hin. exact (find_none _ _ Hf f Hin).
Qed.

(** A handler that ends by raising the exception again never returns. *)
Lemma then_reraise_inl {A B} (m : M W A) (e : exn) (s : state W) :
  exists s' e', (m ;;; @reraise W B e) s = (s', inl e').
Proof.
  unfold bind, reraise. destruct (m s) as [s' [e'|a]]; eauto.
Qed.

Lemma run_openifs_scm_returns (self : SCMTileRunner) (c : Cell)
      (rd : string) (s s' : state W) (u : unit) :
  run_openifs_scm self c rd s = (s', inr u) ->
  exists cr,
    _scm_runner self rd s = (s', inr cr)
    /\ returncode cr = 0
    /\ forall f, In f expected_files ->
                 missing_or_empty (pjoin rd f) (fst s') = false.
Proof.
  unfold run_openifs_scm, run_openifs_scm_try.
  destruct (_scm_runner self rd s) as [s1 [e|cr]] eqn:Hrun.
  - destruct (isinstance e SCMError); [|discriminate].
    destruct (then_reraise_inl (B:=unit)
                (archive_failed_run self c rd None) e s1)
      as [s2 [e' ->]]. discriminate.
  - destruct (Z.eqb_spec (returncode cr) 0) as [Hrc|Hrc]; cbn [negb].
    + unfold bind at 1. unfold ret at 1. unfold _check_for_run_failures.
      rewrite check_files_find.
      destruct (find _ expected_files) as [f|] eqn:Hf.
      * destruct (isinstance _ SCMError); [|discriminate].
        match goal with
        | |- context [(?m ;;; reraise ?e) s1] =>
            destruct (then_reraise_inl (B:=unit) m e s1) as [s2 [e' ->]]
        end. discriminate.
      * intros H. injection H as <-. exists cr.
        repeat split; auto. intros f Hin. exact (find_none _ _ Hf f Hin).
    + unfold bind at 1. unfold raise at 1.
      cbn [isinstance subclass exn_cls class_eqb orb]. discriminate.
Qed.

Lemma archive_loop_returns (self : SCMTileRunner) (c : Cell) (rd : string)
      (files : list string) :
  forall (archived : list string) (s s' : state W) (out : list string),
    archive_loop self c rd files archived s = (s', inr out) ->
    out = archived
          ++ map (fun af =>
                    pjoin (output_directory (config self))
                          (target_name self c af)) files
    /\ moved (map (fun af =>
                     (pjoin rd af,
                      pjoin (output_directory (config self))
                            (target_name self c af))) files)
             (fst s) (fst s')
    /\ snd s' = snd s.
Proof.
  induction files as [|af files IH]; intros archived s s' out H.
  - cbn in H. injection H as <- <-. cbn. now rewrite app_nil_r.
  - cbn [archive_loop] in H.
    apply bind_inv_inr in H. destruct H as [s1 [[] [Hmove Hrest]]].
    unfold try_except, call in Hmove.
    destruct (shutil_move (pjoin rd af) _ (fst s)) as [w1 [e|[]]] eqn:Hm.
    + cbn [dispatch] in Hmove.
      destruct (isinstance_any e [PermissionError]); [discriminate|].
      destruct (isinstance_any e [FileNotFoundError]); discriminate.
    + injection Hmove as <-.
      destruct (IH _ _ _ _ Hrest) as [-> [Hmoved Hlog]].
      cbn [map moved fst snd] in *. rewrite <- app_assoc.
      split; [reflexivity|]. split; [|exact Hlog].
      exists w1. split; [exact Hm | exact Hmoved].
Qed.

(** The [finally] block when both local variables are bound. *)
Lemma run_cell_finally_bound {A} (self : SCMTileRunner) (ok : bool)
      (rd : string) (s : state W) (result : A) :
  (run_cell_finally self (Some ok) (Some rd) ;;; ret result) s
  = if ok || negb (archive_failed_runs self)
    then (removed rd s, after_rmtree rd s result)
    else (s, inr result).
Proof.
  unfold run_cell_finally, local. unfold bind at 1 2. unfold ret at 1.
  destruct (ok || negb (archive_failed_runs self)); [|reflexivity].
  unfold try_except, bind, ret, call, removed, after_rmtree.
  destruct (shutil_rmtree rd (fst s)) as [w [e|[]]]; [|reflexivity].
  cbn [dispatch isinstance_any existsb fst snd]. rewrite orb_false_r.
  destruct (isinstance e UnboundLocalError); reflexivity.
Qed.

End RunnerLemmas.

Section RunnerCleanup.

Import SCM.
Local Open Scope list_scope.

Context {W : Type} {os : OS W}.

Lemma bind_logger {A} (l : level) (msg : string) (k : M W A)
      (s : state W) :
  (logger l msg ;;; k) s = k (logged (l, msg) s).
Proof. reflexivity. Qed.

Lemma run_cell_try_body (self : SCMTileRunner) (c : Cell) (rd : string)
      (s1 : state W) :
  (run_openifs_scm self c rd ;;;
   output_files <- archive_results self c rd ;;
   logger INFO ("Run completed successfully for cell: "
                ++ cell_str c ++ ".")%string ;;;
   ret (MkCellResult c (Some output_files))) s1
  = match (run_openifs_scm self c rd ;;; archive_results self c rd) s1 with
    | (s2, inr files) =>
        (logged (success_record c) s2, inr (MkCellResult c (Some files)))
    | (s2, inl e) => (s2, inl e)
    end.
Proof.
  unfold bind.
  destruct (run_openifs_scm self c rd s1) as [sa [e|[]]]; [reflexivity|].
  destruct (archive_results self c rd sa) as [sb [e|files]]; reflexivity.
Qed.

(** How [run_cell] ends once the run directory has been set up, by the
    outcome of the run and of the archiving. *)
Lemma run_cell_staged (self : SCMTileRunner) (c : Cell)
      (s s1 : state W) (rd : string) :
  setup_openifs_scm self c s = (s1, inr rd) ->
  run_cell self c s
  = match (run_openifs_scm self c rd ;;; archive_results self c rd) s1 with
    | (s2, inr files) =>
        (removed rd (logged (success_record c) s2),
         after_rmtree rd (logged (success_record c) s2)
                      (MkCellResult c (Some files)))
    | (s2, inl e) =>
        if isinstance_any e [SCMError; TileRunError] then
          if archive_failed_runs self then
            (logged (failure_record c e) s2, inr (MkCellResult c None))
          else
            (removed rd (logged (failure_record c e) s2),
             after_rmtree rd (logged (failure_record c e) s2)
                          (MkCellResult c None))
        else
          (s2, inl (Raise UnboundLocalError
                          ("local variable 'run_successful' referenced "
                           ++ "before assignment")%string))
    end.
Proof.
  intros Hsetup. unfold run_cell, run_cell_try. rewrite Hsetup.
  rewrite run_cell_try_body.
  destruct ((run_openifs_scm self c rd ;;; archive_results self c rd) s1)
    as [s2 [e|files]]; cbv beta iota zeta.
  - destruct (isinstance_any e [SCMError; TileRunError]).
    + rewrite bind_logger, run_cell_finally_bound. cbn [orb].
      destruct (archive_failed_runs self); reflexivity.
    + reflexivity.
  - rewrite run_cell_finally_bound. reflexivity.
Qed.

(** A failure of the staging that [run_cell] catches: [run_directory]
    is unbound, nothing is deleted or moved. *)
Lemma run_cell_not_staged (self : SCMTileRunner) (c : Cell)
      (s s1 : state W) (e : exn) :
  setup_openifs_scm self c s = (s1, inl e) ->
  isinstance_any e [SCMError; TileRunError] = true ->
  run_cell self c s
  = (logged (failure_record c e) s1, inr (MkCellResult c None)).
Proof.
  intros Hsetup He. unfold run_cell, run_cell_try. rewrite Hsetup, He.
  rewrite bind_logger.
  unfold run_cell_finally, local, bind, ret, try_except, raise.
  destruct (archive_failed_runs self); reflexivity.
Qed.

Lemma run_cell_not_staged_other (self : SCMTileRunner) (c : Cell)
      (s s1 : state W) (e : exn) :
  setup_openifs_scm self c s = (s1, inl e) ->
  isinstance_any e [SCMError; TileRunError] = false ->
  exists e', run_cell self c s = (s1, inl e').
Proof.
  intros Hsetup He. unfold run_cell, run_cell_try. rewrite Hsetup, He.
  eexists. reflexivity.
Qed.

(** The relocation of the run directory of a failed run. *)
Lemma relocate_swallows (self : SCMTileRunner) (c : Cell) (rd : string)
      (s : state W) :
  move_ok_or_swallowed
    rd (pjoin (output_directory (config self)) (archive_name self c))
    (fst s) ->
  relocate self c rd s
  = (moved_to rd (pjoin (output_directory (config self))
                        (archive_name self c)) s, inr tt).
Proof.
  intros H. unfold relocate, try_except, call, moved_to.
  unfold move_ok_or_swallowed in H.
  destruct (shutil_move rd _ (fst s)) as [w [e|[]]]; cbn [fst snd] in *.
  - destruct H as [H|[e' [H He']]]; [discriminate|].
    injection H as ->. cbn [dispatch]. now rewrite He'.
  - reflexivity.
Qed.

Lemma dump_output_bound (rd : string) (cr : CompletedProcess)
      (s : state W) (w1 w2 w3 w4 : W) :
  open_wb (pjoin rd "stdout.txt") (fst s) = (w1, inr tt) ->
  file_write (pjoin rd "stdout.txt") (stdout cr) w1 = (w2, inr tt) ->
  open_wb (pjoin rd "stderr.txt") w2 = (w3, inr tt) ->
  file_write (pjoin rd "stderr.txt") (stderr cr) w3 = (w4, inr tt) ->
  dump_output rd (Some cr) s = ((w4, snd s), inr tt).
Proof.
  intros H1 H2 H3 H4.
  unfold dump_output, try_except, bind, call, local, ret.
  rewrite H1. cbn [fst snd]. rewrite H2. cbn [fst snd].
  rewrite H3. cbn [fst snd]. rewrite H4. reflexivity.
Qed.

Lemma dump_output_unbound (rd : string) (s : state W) (w1 : W) :
  open_wb (pjoin rd "stdout.txt") (fst s) = (w1, inr tt) ->
  dump_output rd None s = ((w1, snd s), inr tt).
Proof.
  intros H1. unfold dump_output, try_except, bind, call, local, raise.
  rewrite H1. reflexivity.
Qed.

(** The run fails in [run_openifs_scm] with an [SCMError] and failed
    runs are kept: the handler has run when the exception arrives in
    [run_cell]. *)
Lemma run_openifs_scm_keeps (self : SCMTileRunner) (c : Cell) (rd : string)
      (s1 s2 s3 : state W) (cro : option CompletedProcess) (e : exn) :
  archive_failed_runs self = true ->
  run_openifs_scm_try self rd s1 = (s2, cro, inl e) ->
  isinstance e SCMError = true ->
  dump_output rd cro s2 = (s3, inr tt) ->
  move_ok_or_swallowed
    rd (pjoin (output_directory (config self)) (archive_name self c))
    (fst s3) ->
  run_openifs_scm self c rd s1
  = (moved_to rd (pjoin (output_directory (config self))
                        (archive_name self c)) s3, inl e).
Proof.
  intros Hkeep Htry He Hdump Hmove.
  unfold run_openifs_scm. rewrite Htry, He.
  unfold archive_failed_run. rewrite Hkeep.
  unfold bind at 1. unfold bind at 1. rewrite Hdump.
  erewrite relocate_swallows by exact Hmove. reflexivity.
Qed.

Lemma SCMError_is_caught (e : exn) :
  isinstance e SCMError = true ->
  isinstance_any e [SCMError; TileRunError] = true.
Proof. intros H. cbn. now rewrite H. Qed.

(** Once the working directory is staged, [run_cell] deletes it when
    the run succeeded and when the run failed while failed runs are not
    kept; when failed runs are kept, a run that failed in the execution
    or the verification has the captured output written to stdout.txt
    and stderr.txt in the working directory (only an empty stdout.txt
    when the model could not be started) and the directory moved to
    failed.<timestamp>.<cell-id> in the output directory, a
    PermissionError or FileNotFoundError of that move being swallowed. *)
Theorem run_cell_cleanup_policy (self : SCMTileRunner) (c : Cell)
        (s s1 : state W) (rd : string) :
  setup_openifs_scm self c s = (s1, inr rd) ->
  let archive_directory :=
    pjoin (output_directory (config self))
          ("failed." ++ date_id self ++ "." ++ cell_id c)%string in
  (forall s2 files,
      (run_openifs_scm self c rd ;;; archive_results self c rd) s1
      = (s2, inr files) ->
      run_cell self c s
      = (removed rd (logged (success_record c) s2),
         after_rmtree rd (logged (success_record c) s2)
                      (MkCellResult c (Some files))))
  /\ (forall s2 e,
         (run_openifs_scm self c rd ;;; archive_results self c rd) s1
         = (s2, inl e) ->
         isinstance_any e [SCMError; TileRunError] = true ->
         archive_failed_runs self = false ->
         run_cell self c s
         = (removed rd (logged (failure_record c e) s2),
            after_rmtree rd (logged (failure_record c e) s2)
                         (MkCellResult c None)))
  /\ (forall s2 cr e w1 w2 w3 w4,
         archive_failed_runs self = true ->
         run_openifs_scm_try self rd s1 = (s2, Some cr, inl e) ->
         isinstance e SCMError = true ->
         open_wb (pjoin rd "stdout.txt") (fst s2) = (w1, inr tt) ->
         file_write (pjoin rd "stdout.txt") (stdout cr) w1 = (w2, inr tt) ->
         open_wb (pjoin rd "stderr.txt") w2 = (w3, inr tt) ->
         file_write (pjoin rd "stderr.txt") (stderr cr) w3 = (w4, inr tt) ->
         move_ok_or_swallowed rd archive_directory w4 ->
         run_cell self c s
         = (logged (failure_record c e)
                   (fst (shutil_move rd archive_directory w4), snd s2),
            inr (MkCellResult c None)))
  /\ (forall s2 e w1,
         archive_failed_runs self = true ->
         run_openifs_scm_try self rd s1 = (s2, None, inl e) ->
         isinstance e SCMError = true ->
         open_wb (pjoin rd "stdout.txt") (fst s2) = (w1, inr tt) ->
         move_ok_or_swallowed rd archive_directory w1 ->
         run_cell self c s
         = (logged (failure_record c e)
                   (fst (shutil_move rd archive_directory w1), snd s2),
            inr (MkCellResult c None))).
Proof.
  intros Hsetup archive_directory.
  pose proof Hsetup as Hrun. apply run_cell_staged in Hrun.
  split; [|split; [|split]].
  - intros s2 files H. now rewrite Hrun, H.
  - intros s2 e H He Hkeep. now rewrite Hrun, H, He, Hkeep.
  - intros s2 cr e w1 w2 w3 w4 Hkeep Htry He H1 H2 H3 H4 Hmove.
    rewrite Hrun.
    erewrite bind_inl.
    2:{ eapply run_openifs_scm_keeps; eauto.
        - eapply dump_output_bound; eauto.
        - exact Hmove. }
    rewrite SCMError_is_caught by exact He. now rewrite Hkeep.
  - intros s2 e w1 Hkeep Htry He H1 Hmove.
    rewrite Hrun.
    erewrite bind_inl.
    2:{ eapply run_openifs_scm_keeps; eauto.
        - eapply dump_output_unbound; eauto.
        - exact Hmove. }
    rewrite SCMError_is_caught by exact He. now rewrite Hkeep.
Qed.

End RunnerCleanup.

Section RunnerClaims.

Import SCM.
Local Open Scope list_scope.

Context {W : Type} {os : OS W}.

Lemma string_app_inv_head (p x y : string) :
  (p ++ x)%string = (p ++ y)%string -> x = y.
Proof.
  induction p as [|a p IH]; cbn; intros H; [exact H|].
  injection H as H. now apply IH.
Qed.

(** [os.path.join] with the same directory keeps different relative
    names apart. *)
Lemma pjoin_relative_inj (rd x y : string) :
  is_slash (String.get 0 x) = false ->
  is_slash (String.get 0 y) = false ->
  pjoin rd x = pjoin rd y -> x = y.
Proof.
  intros Hx Hy. unfold pjoin. rewrite Hx, Hy.
  destruct (String.eqb rd "" || is_slash (last_char rd)); intros H.
  - now apply string_app_inv_head in H.
  - apply string_app_inv_head in H. now injection H.
Qed.

Lemma run_cell_returns_outputs (self : SCMTileRunner) (c : Cell)
      (s s' : state W) (r : CellResult) (files : list string) :
  run_cell self c s = (s', inr r) ->
  outputs r = Some files ->
  exists s1 rd s2 s3,
    setup_openifs_scm self c s = (s1, inr rd)
    /\ run_openifs_scm self c rd s1 = (s2, inr tt)
    /\ archive_results self c rd s2 = (s3, inr files)
    /\ r = MkCellResult c (Some files)
    /\ s' = removed rd (logged (success_record c) s3).
Proof.
  intros Hrun Hout.
  destruct (setup_openifs_scm self c s) as [s1 [e|rd]] eqn:Hsetup.
  - destruct (isinstance_any e [SCMError; TileRunError]) eqn:He.
    + erewrite run_cell_not_staged in Hrun by eassumption.
      injection Hrun as <- <-. discriminate.
    + pose proof Hsetup as H.
      eapply run_cell_not_staged_other in H; [|exact He].
      destruct H as [e' H]. rewrite H in Hrun. discriminate.
  - erewrite run_cell_staged in Hrun by exact Hsetup.
    unfold bind in Hrun.
    destruct (run_openifs_scm self c rd s1) as [s2 [e|[]]] eqn:Hr.
    + destruct (isinstance_any e [SCMError; TileRunError]);
        [destruct (archive_failed_runs self)|];
        try discriminate.
      * injection Hrun as <- <-. discriminate.
      * unfold after_rmtree in Hrun. injection Hrun as <- Hres.
        destruct (snd (shutil_rmtree rd _)) as [e'|[]];
          [destruct (isinstance e' UnboundLocalError)|];
          try discriminate; injection Hres as <-; discriminate.
    + destruct (archive_results self c rd s2) as [s3 [e|files']] eqn:Ha.
      * destruct (isinstance_any e [SCMError; TileRunError]);
          [destruct (archive_failed_runs self)|];
          try discriminate.
        -- injection Hrun as <- <-. discriminate.
        -- unfold after_rmtree in Hrun. injection Hrun as <- Hres.
           destruct (snd (shutil_rmtree rd _)) as [e'|[]];
             [destruct (isinstance e' UnboundLocalError)|];
             try discriminate; injection Hres as <-; discriminate.
      * unfold after_rmtree in Hrun. injection Hrun as <- Hres.
        assert (Hr' : r = MkCellResult c (Some files')).
        { destruct (snd (shutil_rmtree rd _)) as [e'|[]];
            [destruct (isinstance e' UnboundLocalError)|];
            try discriminate; now injection Hres as <-. }
        subst r. cbn in Hout. injection Hout as ->.
        exists s1, rd, s2, s3. repeat split; auto.
Qed.


(** C10: when [run_cell] returns a result with outputs, these are the
    three paths <base>.<timestamp>.<cell-id><ext> in the output
    directory for diagvar.nc, diagvar2.nc and progvar.nc, in this order;
    between the verification and the deletion of the run directory the
    program moves exactly these three files to these paths and nothing
    else; onecol.r, which the verification found in the run directory,
    is not among the files moved, and [shutil.rmtree] is then called on
    the run directory. *)
Theorem successful_run_archives_three_files (self : SCMTileRunner)
        (c : Cell) (s s' : state W) (r : CellResult)
        (files : list string) :
  run_cell self c s = (s', inr r) ->
  outputs r = Some files ->
  let target base ext :=
    pjoin (output_directory (config self))
          (base ++ "." ++ date_id self ++ "." ++ cell_id c ++ ext)%string in
  exists rd (s2 : state W) (w3 : W),
    missing_or_empty (pjoin rd "onecol.r") (fst s2) = false
    /\ files = [target "diagvar" ".nc"; target "diagvar2" ".nc";
                target "progvar" ".nc"]
    /\ moved [(pjoin rd "diagvar.nc", target "diagvar" ".nc");
              (pjoin rd "diagvar2.nc", target "diagvar2" ".nc");
              (pjoin rd "progvar.nc", target "progvar" ".nc")]
             (fst s2) w3
    /\ ~ In (pjoin rd "onecol.r")
            [pjoin rd "diagvar.nc"; pjoin rd "diagvar2.nc";
             pjoin rd "progvar.nc"]
    /\ fst s' = fst (shutil_rmtree rd w3).
Proof.
  intros Hrun Hout target.
  pose proof Hrun as Hx.
  eapply run_cell_returns_outputs in Hx; [|exact Hout].
  destruct Hx as [s1 [rd [s2 [s3 [Hsetup [Hr [Ha [_ ->]]]]]]]].
  apply run_openifs_scm_returns in Hr.
  destruct Hr as [cr [_ [_ Hfiles]]].
  apply archive_loop_returns in Ha. destruct Ha as [-> [Hmoved _]].
  exists rd, s2, (fst s3). split; [|split; [|split; [|split]]].
  - apply Hfiles. now left.
  - reflexivity.
  - exact Hmoved.
  - intros [H|[H|[H|[]]]];
      apply pjoin_relative_inj in H; try reflexivity; discriminate.
  - reflexivity.
Qed.

End RunnerClaims.

Section RunnerExamples.

Import SCM Disk Scenario.

Lemma run_cell_cleanup_policy_witness :
  exists s',
    run_cell (runner true) c10
             (run_world [] empty_diagvar complete_run complete_run
                        complete_run, [])
    = (s', inr (MkCellResult c10 None))
    /\ lookup "/out/failed.20090406_010000.y0000x0001/stdout.txt" (fst s')
       = Some (File "out")
    /\ lookup "/out/failed.20090406_010000.y0000x0001/stderr.txt" (fst s')
       = Some (File "err")
    /\ lookup "/work/run0" (fst s') = None.
Proof.
  set (s := (run_world [] empty_diagvar complete_run complete_run
                       complete_run, @nil log_record)).
  destruct (@run_cell_cleanup_policy
              world disk_os (runner true) c10 s
              (fst (setup_openifs_scm (runner true) c10 s)) "/work/run0")
    as (_ & _ & H & _); [vm_compute; reflexivity|].
  eexists. split.
  - eapply H.
    + reflexivity.
    + lazy. reflexivity.
    + reflexivity.
    + lazy. reflexivity.
    + lazy. reflexivity.
    + lazy. reflexivity.
    + lazy. reflexivity.
    + left. lazy. reflexivity.
  - split; [|split]; vm_compute; reflexivity.
Defined.

(** C7: a failed run can leave its run directory behind, neither
    deleted nor archived.  When failed runs are kept and the archiving
    of the results fails (here an output file of an earlier job cannot
    be replaced), [run_cell] logs the failure and returns a result
    without outputs, but the run directory stays where it is: it is
    not moved to failed.<timestamp>.<cell-id>, although that move would
    succeed.  When failed runs are not kept and the staging fails after
    the run directory was created (here the template has no executable
    to link), the directory is not deleted. *)
Theorem run_cell_leaves_run_directory :
  (exists s',
      run_cell (runner false) c10 (no_template_world, [])
      = (s', inr (MkCellResult c10 None))
      /\ lookup "/work/run0" (fst s') = Some (Dir true))
  /\ (exists s',
         run_cell (runner true) c10
                  (run_world locked_output complete_run complete_run
                             complete_run complete_run, [])
         = (s', inr (MkCellResult c10 None))
         /\ lookup "/work/run0" (fst s') = Some (Dir true)
         /\ lookup "/work/run0/onecol.r" (fst s') = Some (File "r")
         /\ lookup "/out/failed.20090406_010000.y0000x0001" (fst s') = None
         /\ snd (move "/work/run0" "/out/failed.20090406_010000.y0000x0001"
                      (fst s'))
            = inr tt).
Proof.
  split; eexists; (split; [vm_compute; reflexivity|]);
    repeat split; vm_compute; reflexivity.
Qed.


Lemma successful_run_archives_three_files_witness :
  let s := (run_world [] complete_run complete_run complete_run
                      complete_run, @nil log_record) in
  exists rd (s2 : state world) (w3 : world),
    missing_or_empty (pjoin rd "onecol.r") (fst s2) = false
    /\ moved [(pjoin rd "diagvar.nc",
               "/out/diagvar.20090406_010000.y0000x0001.nc");
              (pjoin rd "diagvar2.nc",
               "/out/diagvar2.20090406_010000.y0000x0001.nc");
              (pjoin rd "progvar.nc",
               "/out/progvar.20090406_010000.y0000x0001.nc")]
             (fst s2) w3
    /\ fst (fst (run_cell (runner false) c10 s)) = fst (rmtree rd w3)
    /\ lookup "/work/run0/onecol.r" (fst (fst (run_cell (runner false) c10 s)))
       = None.
Proof.
  intros s.
  destruct (@successful_run_archives_three_files
              world disk_os (runner false) c10 s
              (fst (run_cell (runner false) c10 s))
              (MkCellResult c10
                 (Some ["/out/diagvar.20090406_010000.y0000x0001.nc";
                        "/out/diagvar2.20090406_010000.y0000x0001.nc";
                        "/out/progvar.20090406_010000.y0000x0001.nc"]))
              ["/out/diagvar.20090406_010000.y0000x0001.nc";
               "/out/diagvar2.20090406_010000.y0000x0001.nc";
               "/out/progvar.20090406_010000.y0000x0001.nc"])
    as [rd [s2 [w3 [H1 [_ [H3 [_ H5]]]]]]].
  - vm_compute. reflexivity.
  - reflexivity.
  - exists rd, s2, w3. repeat split; auto; vm_compute; reflexivity.
Defined.

(** C1: the model process exits with status 1.  [run_cell] does not
    return a result: the name exit_code in the message of the SCMError
    is not defined, the NameError is caught by no clause, and the
    [finally] block then reads run_successful, which is unbound.  No
    diagnostic is logged and the run directory stays. *)
Theorem run_cell_raises_on_nonzero_exit :
  exists s',
    run_cell (runner false) c10
             (run_world [] exit_1 complete_run complete_run complete_run, [])
    = (s', inl (Raise UnboundLocalError
                      "local variable 'run_successful' referenced before assignment"))
    /\ snd s' = []
    /\ lookup "/work/run0" (fst s') = Some (Dir true).
Proof.
  eexists. split; [vm_compute; reflexivity|].
  split; vm_compute; reflexivity.
Qed.

End RunnerExamples.

(** ** The post-processor and a cell without output *)

Section Unreadable.

Import PP.
Local Open Scope list_scope.

Context {W : Type} {os : OS W}.

Variables (config : SCMTilesConfig) (timestamp : string)
          (templates : Templates) (drop_list : list string) (w : W).

(** [xr.open_dataset] fails with an OSError or a RuntimeError only. *)
Hypothesis open_errors :
  forall p e, xr_open_dataset p drop_list w = inl e ->
              isinstance_any e [OSError; RuntimeError] = true.

Lemma read_at (A : Type) (op : W -> exn + A) (s : state W) :
  fst s = w -> read op s = (s, op w).
Proof. intros <-. reflexivity. Qed.

Lemma open_datasets_result (fps : list string) (s : state W) :
  fst s = w ->
  (exists l, open_datasets fps drop_list s = (s, inr l))
  \/ (exists e, open_datasets fps drop_list s = (s, inl e)
                /\ isinstance_any e [OSError; RuntimeError] = true).
Proof.
  intros Hw. induction fps as [|fp fps IH]; cbn [open_datasets].
  - left. eexists. reflexivity.
  - pose proof (read_at (xr_open_dataset fp drop_list) s Hw) as Hr.
    destruct (xr_open_dataset fp drop_list w) as [e|ds] eqn:Hfp.
    + right. exists e. split; [now apply bind_inl|].
      eapply open_errors; eauto.
    + erewrite bind_inr by exact Hr.
      destruct IH as [[l Hl]|[e [Hl He]]].
      * left. eexists. erewrite bind_inr by exact Hl. reflexivity.
      * right. exists e. split; [now apply bind_inl | exact He].
Qed.

Lemma open_datasets_unreadable (fps : list string) (s : state W)
      (f : string) (e0 : exn) :
  fst s = w -> In f fps -> xr_open_dataset f drop_list w = inl e0 ->
  exists e, open_datasets fps drop_list s = (s, inl e)
            /\ isinstance_any e [OSError; RuntimeError] = true.
Proof.
  intros Hw Hin Hf. induction fps as [|fp fps IH]; [contradiction|].
  cbn [open_datasets].
  pose proof (read_at (xr_open_dataset fp drop_list) s Hw) as Hr.
  destruct (xr_open_dataset fp drop_list w) as [e|ds] eqn:Hfp.
  - exists e. split; [now apply bind_inl|]. eapply open_errors; eauto.
  - destruct Hin as [->|Hin]; [congruence|].
    destruct (IH Hin) as [e [Hl He]]. exists e.
    split; [|exact He]. erewrite bind_inr by exact Hr. now apply bind_inl.
Qed.

Lemma getitem_in_range (l : list Z) (i : N) (s : state W) :
  (N.to_nat i < List.length l)%nat ->
  exists v, getitem l i s = (s, inr v).
Proof.
  intros H. unfold getitem.
  destruct (nth_error l (N.to_nat i)) as [v|] eqn:Hn.
  - eexists. reflexivity.
  - apply nth_error_None in Hn. lia.
Qed.

(** A cell of the grid either loads or raises Error. *)
Lemma pp_cell_result (c : Cell) (s : state W) :
  fst s = w -> in_grid templates c ->
  (exists r, pp_cell c timestamp templates drop_list config s = (s, inr r))
  \/ (exists e, pp_cell c timestamp templates drop_list config s
                = (s, inl e)
                /\ isinstance e Error = true).
Proof.
  intros Hw [Hx Hy]. unfold pp_cell.
  match goal with
  | |- context [open_datasets ?fps drop_list] =>
      destruct (open_datasets_result fps s Hw) as [[l Hl]|[e [Hl He]]]
  end.
  - erewrite bind_inr.
    2:{ apply try_except_inr. erewrite bind_inr by exact Hl. reflexivity. }
    destruct (getitem_in_range (x_coord templates) (x_global c) s Hx)
      as [x Hgx].
    destruct (getitem_in_range (y_coord templates) (y_global c) s Hy)
      as [y Hgy].
    erewrite bind_inr by exact Hgx. erewrite bind_inr by exact Hgy.
    left. eexists. reflexivity.
  - right. eexists. split.
    + apply bind_inl. erewrite try_except_inl by (apply bind_inl; exact Hl).
      cbn [dispatch]. rewrite He. reflexivity.
    + reflexivity.
Qed.

(** A cell one of whose output files cannot be opened raises Error. *)
Lemma pp_cell_unreadable (c : Cell) (s : state W) (f : string) (e0 : exn) :
  fst s = w -> In f SCM_OUT_FILES ->
  xr_open_dataset
    (pjoin (pjoin (output_directory config)
                  (timestamp ++ "." ++ cell_id c)%string) f)
    drop_list w = inl e0 ->
  exists e, pp_cell c timestamp templates drop_list config s = (s, inl e)
            /\ isinstance e Error = true.
Proof.
  intros Hw Hin Hf. unfold pp_cell.
  match goal with
  | |- context [open_datasets ?fps drop_list] =>
      destruct (@open_datasets_unreadable fps s _ e0 Hw
                  (in_map _ _ _ Hin) Hf) as [e [Hl He]]
  end.
  eexists. split.
  - apply bind_inl. erewrite try_except_inl by (apply bind_inl; exact Hl).
    cbn [dispatch]. rewrite He. reflexivity.
  - reflexivity.
Qed.

Lemma od_append_rows (k : N) (v : CellDataset) (od : grid_rows_t) :
  Forall (fun e => snd e <> []) od ->
  Forall (fun e => snd e <> []) (od_append k v od)
  /\ od_append k v od <> [].
Proof.
  induction 1 as [|[k' row] od Hrow Hod IH]; cbn.
  - split; [repeat constructor|]; discriminate.
  - destruct (N.eqb k' k); split; try discriminate.
    + constructor; [|exact Hod]. cbn. now destruct row.
    + constructor; [exact Hrow | apply IH].
Qed.

(** The loop over the cells of a tile either loads them all or stops
    with an Error. *)
Lemma pp_tile_cells_result (cells : list Cell) (s : state W) :
  fst s = w -> Forall (in_grid templates) cells ->
  forall od fps,
    Forall (fun e => snd e <> []) od ->
    (exists od' fps',
        pp_tile_cells config timestamp templates drop_list cells od fps s
        = (s, inr (od', fps'))
        /\ Forall (fun e => snd e <> []) od'
        /\ (od <> [] \/ cells <> [] -> od' <> []))
    \/ (exists e,
           pp_tile_cells config timestamp templates drop_list cells od fps s
           = (s, inl e)
           /\ isinstance e Error = true).
Proof.
  intros Hw Hall. induction Hall as [|c cells Hc _ IH]; intros od fps Hod.
  - left. exists od, fps. repeat split; auto. intros [H|H]; congruence.
  - cbn [pp_tile_cells].
    destruct (pp_cell_result s Hw Hc) as [[[cell_ds fp] Hpp]|[e [Hpp He]]].
    + erewrite bind_inr by exact Hpp.
      destruct (od_append_rows (y_global c) cell_ds Hod) as [Hod' Hne].
      destruct (IH (od_append (y_global c) cell_ds od) (fps ++ [fp]) Hod')
        as [[od' [fps' [Hl [Hrows Hnonempty]]]]|[e [Hl He]]].
      * left. exists od', fps'. repeat split; auto.
      * right. eauto.
    + right. exists e. split; [now apply bind_inl | exact He].
Qed.

Lemma pp_tile_cells_unreadable (cells : list Cell) (s : state W) (c : Cell)
      (f : string) (e0 : exn) :
  fst s = w -> Forall (in_grid templates) cells ->
  In c cells -> In f SCM_OUT_FILES ->
  xr_open_dataset
    (pjoin (pjoin (output_directory config)
                  (timestamp ++ "." ++ cell_id c)%string) f)
    drop_list w = inl e0 ->
  forall od fps,
  exists e,
    pp_tile_cells config timestamp templates drop_list cells od fps s
    = (s, inl e)
    /\ isinstance e Error = true.
Proof.
  intros Hw Hall Hin Hf Hopen.
  induction Hall as [|c' cells Hc _ IH]; [contradiction|]; intros od fps.
  cbn [pp_tile_cells].
  destruct Hin as [->|Hin].
  - edestruct pp_cell_unreadable as [e [Hpp He]];
      [exact Hw | exact Hf | exact Hopen |].
    exists e. split; [now apply bind_inl | exact He].
  - destruct (pp_cell_result s Hw Hc) as [[[cell_ds fp] Hpp]|[e [Hpp He]]].
    + erewrite bind_inr by exact Hpp. apply IH. exact Hin.
    + exists e. split; [now apply bind_inl | exact He].
Qed.

Lemma concat_rows_nonempty (od : grid_rows_t) (s : state W) :
  Forall (fun e => snd e <> []) od ->
  exists values, concat_rows od s = (s, inr values)
                 /\ List.length values = List.length od.
Proof.
  induction 1 as [|[k row] od Hrow _ IH]; cbn [concat_rows].
  - exists []. split; reflexivity.
  - destruct IH as [values [Hv Hlen]].
    destruct row as [|cd row]; [now contradiction Hrow|].
    eexists. split.
    + erewrite bind_inr by reflexivity.
      erewrite bind_inr by exact Hv. reflexivity.
    + cbn. now rewrite Hlen.
Qed.

(** A tile of the grid with at least one cell either is assembled, with
    nothing but a log record added to the state, or stops with an
    Error. *)
Lemma pp_tile_result (tile : Tile) (s : state W) :
  fst s = w -> Forall (in_grid templates) (tile_cells tile) ->
  tile_cells tile <> [] ->
  (exists s' r, pp_tile config timestamp templates drop_list tile s
                = (s', inr r) /\ fst s' = w)
  \/ (exists e, pp_tile config timestamp templates drop_list tile s
                = (s, inl e) /\ isinstance e Error = true).
Proof.
  intros Hw Hall Hne. unfold pp_tile.
  edestruct (@pp_tile_cells_result (tile_cells tile) s Hw Hall [] [])
    as [[od [fps [Hl [Hrows Hnonempty]]]]|[e [Hl He]]];
    [constructor | |].
  - erewrite bind_inr by exact Hl.
    edestruct concat_rows_nonempty as [values [Hv Hlen]]; [exact Hrows|].
    erewrite bind_inr by exact Hv.
    assert (Hod : od <> []) by (apply Hnonempty; now right).
    left.
    destruct values as [|d [|d' values]].
    + destruct od; [contradiction | discriminate].
    + do 2 eexists. split; [reflexivity | exact Hw].
    + do 2 eexists. split; [reflexivity | exact Hw].
  - right. exists e. split; [now apply bind_inl | exact He].
Qed.

Lemma pp_tile_unreadable (tile : Tile) (s : state W) (c : Cell)
      (f : string) (e0 : exn) :
  fst s = w -> Forall (in_grid templates) (tile_cells tile) ->
  In c (tile_cells tile) -> In f SCM_OUT_FILES ->
  xr_open_dataset
    (pjoin (pjoin (output_directory config)
                  (timestamp ++ "." ++ cell_id c)%string) f)
    drop_list w = inl e0 ->
  exists e, pp_tile config timestamp templates drop_list tile s = (s, inl e)
            /\ isinstance e Error = true.
Proof.
  intros Hw Hall Hin Hf Hopen. unfold pp_tile.
  edestruct pp_tile_cells_unreadable as [e [Hl He]];
    [exact Hw | exact Hall | exact Hin | exact Hf | exact Hopen |].
  exists e. split; [apply bind_inl; exact Hl | exact He].
Qed.

(** The tiles are processed up to the first one that stops with an
    Error; only log records are added to the state. *)
Lemma pool_map_unreadable (tiles : list Tile) (tile : Tile) (c : Cell)
      (f : string) (e0 : exn) :
  Forall (fun t => Forall (in_grid templates) (tile_cells t)
                   /\ tile_cells t <> []) tiles ->
  In tile tiles -> In c (tile_cells tile) -> In f SCM_OUT_FILES ->
  xr_open_dataset
    (pjoin (pjoin (output_directory config)
                  (timestamp ++ "." ++ cell_id c)%string) f)
    drop_list w = inl e0 ->
  forall s, fst s = w ->
  exists s' e,
    pool_map (pp_tile config timestamp templates drop_list) tiles s
    = (s', inl e)
    /\ fst s' = w /\ isinstance e Error = true.
Proof.
  intros Hall Hin Hc Hf Hopen.
  induction Hall as [|t tiles [Ht Hne] _ IH]; [contradiction|]; intros s Hw.
  cbn [pool_map].
  destruct Hin as [->|Hin].
  - edestruct pp_tile_unreadable as [e [Hl He]];
      [exact Hw | exact Ht | exact Hc | exact Hf | exact Hopen |].
    exists s, e. repeat split; auto. now apply bind_inl.
  - edestruct pp_tile_result as [[s1 [r [Hl Hw1]]]|[e [Hl He]]];
      [exact Hw | exact Ht | exact Hne | |].
    + erewrite bind_inr by exact Hl.
      destruct (IH Hin s1 Hw1) as [s' [e [Hp [Hw' He]]]].
      exists s', e. repeat split; auto. now apply bind_inl.
    + exists s, e. repeat split; auto. now apply bind_inl.
Qed.

End Unreadable.

Section AssemblyFailure.

Import SCM PP.
Local Open Scope list_scope.

Context {W : Type} {os : OS W}.

Lemma find_some_of_exists {A} (p : A -> bool) (l : list A) (a : A) :
  In a l -> p a = true -> exists b, find p l = Some b.
Proof.
  intros Hin Hp. destruct (find p l) as [b|] eqn:Hf; [eauto|].
  rewrite (find_none _ _ Hf a Hin) in Hp. discriminate.
Qed.

(** A run whose verification fails, failed runs not being kept, ends
    with a result without outputs. *)
Lemma run_cell_verification_failure (self : SCMTileRunner) (c : Cell)
      (s s1 s2 : state W) (rd : string) (cr : CompletedProcess)
      (f : string) :
  setup_openifs_scm self c s = (s1, inr rd) ->
  _scm_runner self rd s1 = (s2, inr cr) ->
  returncode cr = 0 ->
  In f expected_files ->
  missing_or_empty (pjoin rd f) (fst s2) = true ->
  archive_failed_runs self = false ->
  snd (shutil_rmtree rd (fst s2)) = inr tt ->
  exists s', run_cell self c s = (s', inr (MkCellResult c None)).
Proof.
  intros Hsetup Hrun Hrc Hin Hbad Hkeep Hrm.
  destruct (find_some_of_exists
              (fun f => missing_or_empty (pjoin rd f) (fst s2))
              expected_files f Hin Hbad) as [f' Hfind].
  assert (Hscm : exists e,
             run_openifs_scm self c rd s1 = (s2, inl e)
             /\ isinstance e SCMError = true).
  { eexists. split.
    - unfold run_openifs_scm, run_openifs_scm_try.
      rewrite Hrun, Hrc. cbn [Z.eqb negb].
      erewrite bind_inr by reflexivity.
      unfold _check_for_run_failures. rewrite check_files_find, Hfind.
      cbn [isinstance exn_cls subclass class_eqb orb].
      unfold archive_failed_run. rewrite Hkeep. reflexivity.
    - reflexivity. }
  destruct Hscm as [e [Hscm He]].
  erewrite run_cell_staged by exact Hsetup.
  erewrite bind_inl by exact Hscm.
  rewrite SCMError_is_caught by exact He. rewrite Hkeep.
  unfold after_rmtree, logged. cbn [fst snd]. rewrite Hrm.
  eexists. reflexivity.
Qed.

Lemma drop_list_read (s : state W) :
  (forall e, read_dropvars (fst s) = inl e -> isinstance e OSError = true) ->
  try_except (read read_dropvars)
             [ ([OSError], fun _ : exn => @ret W (list string) []) ] s
  = (s, inr (drop_list_in (fst s))).
Proof.
  intros H. unfold try_except, read, drop_list_in.
  destruct (read_dropvars (fst s)) as [e|l]; [|reflexivity].
  cbn [dispatch isinstance_any existsb]. now rewrite (H e eq_refl).
Qed.

(** An Error stops [post_process] before anything is written. *)
Lemma post_process_unreadable (path : string) (n : Z) (delete : bool)
      (s : state W) (config : SCMTilesConfig) (templates : Templates)
      (tile : Tile) (c : Cell) (f : string) (e0 : exn) :
  1 <= n ->
  config_from_file path (fst s) = inr config ->
  open_coordinates (pjoin (input_directory config) (input_file_name config))
                   config (fst s) = inr templates ->
  (forall e, read_dropvars (fst s) = inl e -> isinstance e OSError = true) ->
  (forall p e,
      xr_open_dataset p (drop_list_in (fst s)) (fst s) = inl e ->
      isinstance_any e [OSError; RuntimeError] = true) ->
  Forall (fun t => Forall (in_grid templates) (tile_cells t)
                   /\ tile_cells t <> [])
         (decompose_by_rows (xsize config) (ysize config) (ysize config)) ->
  In tile (decompose_by_rows (xsize config) (ysize config) (ysize config)) ->
  In c (tile_cells tile) ->
  In f SCM_OUT_FILES ->
  xr_open_dataset (pjoin (cell_directory config c) f)
                  (drop_list_in (fst s)) (fst s) = inl e0 ->
  exists s' e,
    post_process path n delete s = (s', inl e)
    /\ fst s' = fst s /\ isinstance e Error = true.
Proof.
  intros Hn Hconfig Hcoord Hdrop Hopen Hgrid Htile Hc Hf Hbad.
  unfold post_process.
  destruct (Z.ltb_spec n 1) as [Hlt|_]; [lia|].
  erewrite bind_inr by reflexivity.
  erewrite bind_inr.
  2:{ apply try_except_inr. unfold read. rewrite Hconfig. reflexivity. }
  rewrite bind_logger.
  erewrite bind_inr.
  2:{ unfold load_coordinate_templates. apply try_except_inr.
      unfold read, logged. cbn [fst]. rewrite Hcoord. reflexivity. }
  erewrite bind_inr.
  2:{ apply drop_list_read. exact Hdrop. }
  rewrite bind_logger.
  edestruct (@pool_map_unreadable
               W os config (Time.strftime_Ymd_HMS (start_time config))
               templates (drop_list_in (fst s)) (fst s) Hopen
               _ tile c f e0 Hgrid Htile Hc Hf Hbad)
    as [s' [e [Hpool [Hw He]]]].
  2:{ exists s', e. split; [|split; [exact Hw | exact He]].
      apply bind_inl. exact Hpool. }
  reflexivity.
Qed.

(** C9, as amended: a cell whose verification fails yields a result
    without outputs, [run_cell] returning normally, so that the cells
    after it are run; the post-processor loads every cell of every tile,
    and when an output file of one cell cannot be opened it stops with
    an Error: no grid is assembled, nothing is written or deleted, the
    error is logged and the exit status is 1. *)
Theorem unreadable_cell_fails_post_processing :
  (forall (self : SCMTileRunner) (c : Cell) (s s1 s2 : state W)
          (rd : string) (cr : CompletedProcess) (f : string),
      setup_openifs_scm self c s = (s1, inr rd) ->
      _scm_runner self rd s1 = (s2, inr cr) ->
      returncode cr = 0 ->
      In f ["onecol.r"; "progvar.nc"; "diagvar.nc"; "diagvar2.nc"] ->
      missing_or_empty (pjoin rd f) (fst s2) = true ->
      archive_failed_runs self = false ->
      snd (shutil_rmtree rd (fst s2)) = inr tt ->
      exists s', run_cell self c s = (s', inr (MkCellResult c None)))
  /\ (forall (argv0 path : string) (n : Z) (delete : bool) (s : state W)
             (config : SCMTilesConfig) (templates : Templates)
             (tile : Tile) (c : Cell) (f : string) (e0 : exn),
         1 <= n ->
         config_from_file path (fst s) = inr config ->
         open_coordinates
           (pjoin (input_directory config) (input_file_name config))
           config (fst s) = inr templates ->
         (forall e, read_dropvars (fst s) = inl e ->
                    isinstance e OSError = true) ->
         (forall p e,
             xr_open_dataset p (drop_list_in (fst s)) (fst s) = inl e ->
             isinstance_any e [OSError; RuntimeError] = true) ->
         Forall (fun t => Forall (in_grid templates) (tile_cells t)
                          /\ tile_cells t <> [])
                (decompose_by_rows (xsize config) (ysize config)
                                   (ysize config)) ->
         In tile (decompose_by_rows (xsize config) (ysize config)
                                    (ysize config)) ->
         In c (tile_cells tile) ->
         In f ["diagvar.nc"; "diagvar2.nc"; "progvar.nc"] ->
         xr_open_dataset (pjoin (cell_directory config c) f)
                         (drop_list_in (fst s)) (fst s) = inl e0 ->
         exists s' records msg,
           main argv0 path n delete s = (s', inr 1)
           /\ fst s' = fst s
           /\ snd s' = records ++ [(ERROR, ("error: " ++ msg)%string)]).
Proof.
  split.
  - intros. eapply run_cell_verification_failure; eauto.
  - intros argv0 path n delete s config templates tile c f e0
           Hn Hconfig Hcoord Hdrop Hopen Hgrid Htile Hc Hf Hbad.
    unfold main.
    set (s0 := logged (INFO, ("Backend scmtiles is version "
                              ++ scmtiles_version)%string)
                      (logged (INFO, ("Running " ++ argv0 ++ " at version "
                                      ++ __version__)%string) s)).
    edestruct (@post_process_unreadable path n delete s0 config templates
                 tile c f e0) as [s' [e [Hpp [Hw He]]]]; eauto.
    exists (logged (ERROR, ("error: " ++ exn_msg e)%string) s'),
      (snd s'), (exn_msg e).
    split; [|split; [exact Hw | reflexivity]].
    erewrite try_except_inl.
    2:{ rewrite !bind_logger. apply bind_inl. exact Hpp. }
    cbn [dispatch isinstance_any existsb]. rewrite He. reflexivity.
Qed.

End AssemblyFailure.

Section AssemblyExamples.

Import SCM PP Disk Scenario.

Lemma unreadable_cell_fails_post_processing_witness :
  exists s' records msg,
    main "pp" "scm.cfg" 1 false (pp_world [c00; c10; c01], [])
    = (s', inr 1)
    /\ fst s' = pp_world [c00; c10; c01]
    /\ snd s' = (records ++ [(ERROR, ("error: " ++ msg)%string)])%list.
Proof.
  destruct (@unreadable_cell_fails_post_processing world disk_os)
    as [_ H].
  apply (H "pp" "scm.cfg" 1 false (pp_world [c00; c10; c01], []) cfg grid
           (MkTile 1 [c01; c11]) c11 "diagvar.nc"
           (Raise FileNotFoundError "No such file or directory")).
  - lia.
  - reflexivity.
  - reflexivity.
  - intros e He. vm_compute in He. injection He as <-. reflexivity.
  - intros p e He. cbn [fst xr_open_dataset disk_os] in He.
    unfold open_dataset in He.
    destruct (lookup p (pp_world [c00; c10; c01])) as [[d|d|b]|];
      try destruct (String.eqb d ""); inversion He; reflexivity.
  - vm_compute decompose_by_rows. unfold in_grid.
    repeat constructor; cbn; try lia; discriminate.
  - vm_compute. auto.
  - cbn. auto.
  - cbn. auto.
  - vm_compute. reflexivity.
Defined.

(** C9, as stated, fails: of four cells one fails verification because
    its diagvar.nc is empty; the three others succeed and that cell
    yields a result without outputs; the post-processor, run on what the
    four runs left and also run with the output of the three good cells
    where it looks for it, stops with an error at exit status 1 and
    writes no grid file. *)
Lemma one_failed_cell_fails_assembly :
  let runs :=
    run_cells (runner false) [c00; c10; c01; c11]
              (run_world [] complete_run complete_run complete_run
                         empty_diagvar, []) in
  let pp := main "pp" "scm.cfg" 1 false (pp_world [c00; c10; c01], []) in
  (exists o0 o1 o2,
      snd runs = inr [MkCellResult c00 (Some o0); MkCellResult c10 (Some o1);
                      MkCellResult c01 (Some o2); MkCellResult c11 None])
  /\ snd (main "pp" "scm.cfg" 1 false (fst (fst runs), [])) = inr 1
  /\ snd pp = inr 1
  /\ lookup "/out/scm_out.20090406_010000.nc" (fst (fst pp)) = None.
Proof.
  cbv zeta. split; [|split; [|split]].
  - do 3 eexists. vm_compute. reflexivity.
  - vm_compute. reflexivity.
  - vm_compute. reflexivity.
  - vm_compute. reflexivity.
Qed.

(** C2: the grid file cannot be written (its path is taken by a
    directory, the write raises RuntimeError) and deletion of the cell
    files was asked for.  [post_process] builds the Error without
    raising it: [main] returns exit status 0, no error is logged, and
    the directories of all four cells have been deleted. *)
Theorem write_failure_is_ignored :
  let output_path := "/out/scm_out.20090406_010000.nc" in
  let pp := main "pp" "scm.cfg" 1 true (blocked_output_world, []) in
  (forall ds, snd (to_netcdf output_path ds blocked_output_world)
              = inl (Raise RuntimeError "Is a directory"))
  /\ snd pp = inr 0
  /\ Forall (fun r => fst r = INFO) (snd (fst pp))
  /\ Forall (fun c => lookup (cell_directory cfg c) blocked_output_world
                      = Some (Dir true)
                      /\ lookup (cell_directory cfg c) (fst (fst pp)) = None)
            [c00; c10; c01; c11].
Proof.
  cbv zeta. split; [|split; [|split]].
  - intros ds. vm_compute. reflexivity.
  - vm_compute. reflexivity.
  - vm_compute. repeat constructor.
  - repeat constructor; vm_compute; reflexivity.
Qed.

End AssemblyExamples.

(** ** More on the time coordinate *)

Section TimeExtras.

Import Time.

(** On time points that are whole seconds and start at the reference
    time, the transform to model form followed by the rebase gives the
    time points back. *)
Theorem whole_second_round_trip (ref : datetime) (first : Z)
        (rest : list Z) :
  first = base_time ref ->
  time_round_trip ref (map (fun s => s * ns_per_s) (first :: rest))
  = inr (first :: rest).
Proof.
  intros Hfirst. cbn [map]. rewrite time_round_trip_value.
  rewrite np_round_div_exact. f_equal.
  change (first * ns_per_s :: map (fun s => s * ns_per_s) rest)
    with (map (fun s => s * ns_per_s) (first :: rest)).
  rewrite map_map. rewrite <- (map_id (first :: rest)) at 2.
  apply map_ext. intros s.
  rewrite np_round_div_exact. lia.
Qed.

Lemma whole_second_round_trip_witness :
  time_round_trip (Datetime 2009 4 6 1 0 0 0)
                  [1238979600000000000; 1238980500000000000]
  = inr [1238979600; 1238980500].
Proof.
  exact (@whole_second_round_trip (Datetime 2009 4 6 1 0 0 0)
           1238979600 [1238980500] eq_refl).
Defined.

(** The relative time coordinate starts at 0 and, for time points in
    non-decreasing order, is in non-decreasing order and not negative. *)
Theorem relative_time_is_monotone (ref : datetime) (tile_time : list Z)
        (c : ifs_coords) :
  StronglySorted Z.le tile_time ->
  _time_to_ifs ref tile_time = inr c ->
  hd_error (time_coord c) = Some 0
  /\ StronglySorted Z.le (time_coord c)
  /\ Forall (fun t => 0 <= t) (time_coord c).
Proof.
  intros Hs Hc. destruct tile_time as [|t0 rest]; [discriminate|].
  unfold _time_to_ifs in Hc. cbn [map] in Hc. injection Hc as <-.
  cbn [time_coord]. inversion Hs as [|? ? Hrest Hall]; subst.
  split; [cbn; f_equal; lia|].
  assert (Hpos : Forall (fun t => 0 <= t)
                   (map (fun t => t - np_round_div t0 ns_per_s)
                        (map (fun x => np_round_div x ns_per_s) rest))).
  { rewrite map_map, Forall_map. eapply Forall_impl; [|exact Hall].
    intros t Ht. cbv beta.
    pose proof (@np_round_div_monotone t0 t Ht). lia. }
  split.
  - constructor.
    + clear Hall Hpos Hs. rewrite map_map.
      induction Hrest as [|t rest Hrest IH Ht]; cbn; [constructor|].
      constructor; [exact IH|].
      rewrite Forall_map. eapply Forall_impl; [|exact Ht].
      intros u Hu. cbv beta.
      pose proof (@np_round_div_monotone t u Hu). lia.
    + eapply Forall_impl; [|exact Hpos]. intros t Ht. cbv beta in *. lia.
  - constructor; [lia | exact Hpos].
Qed.

Lemma relative_time_is_monotone_witness :
  exists c,
    _time_to_ifs (Datetime 2009 4 6 1 0 0 0)
                 [1238979600400000000; 1238979600600000000;
                  1238979601400000000] = inr c
    /\ time_coord c = [0; 1; 1].
Proof.
  eexists. split; [reflexivity|].
  destruct (@relative_time_is_monotone
              (Datetime 2009 4 6 1 0 0 0)
              [1238979600400000000; 1238979600600000000;
               1238979601400000000] _
              ltac:(repeat constructor; discriminate) eq_refl)
    as [_ _].
  reflexivity.
Defined.

(** The date and second coordinates name the reference time that the
    post-processor adds back: the base time is midnight of the date,
    in seconds, plus the second coordinate, which lies within one day. *)
Theorem second_coordinate_gives_base_time (ref : datetime)
        (tile_time : list Z) (c : ifs_coords) :
  valid_datetime ref = true ->
  _time_to_ifs ref tile_time = inr c ->
  Forall (fun s =>
            0 <= s < 86400
            /\ base_time ref
               = days_from_civil (year ref) (month ref) (day ref) * 86400
                 + s)
         (second_coord c).
Proof.
  intros Hv Hc. destruct tile_time as [|t0 rest]; [discriminate|].
  unfold _time_to_ifs in Hc. injection Hc as <-. cbn [second_coord].
  rewrite timedelta_seconds_since_midnight by exact Hv.
  apply valid_datetime_bounds in Hv. destruct Hv as [_ Hv].
  apply Forall_forall. intros s Hs.
  assert (s = hour ref * 3600 + minute ref * 60 + second ref) as ->
    by (destruct Hs as [Hs|Hs]; [now symmetry | now apply repeat_spec in Hs]).
  split; [lia|].
  unfold base_time, to_microseconds.
  set (d := days_from_civil (year ref) (month ref) (day ref)).
  replace ((((d * 24 + hour ref) * 60 + minute ref) * 60 + second ref)
           * 1000000 + microsecond ref)
    with ((d * 86400 + (hour ref * 3600 + minute ref * 60 + second ref))
          * 1000000 + microsecond ref) by lia.
  rewrite Z.div_add_l by lia. rewrite Z.div_small by lia. lia.
Qed.

Lemma second_coordinate_gives_base_time_witness :
  exists c,
    _time_to_ifs (Datetime 2009 4 6 1 0 0 0) [1238979600000000000] = inr c
    /\ Forall (fun s => 0 <= s < 86400
                        /\ 1238979600 = 14340 * 86400 + s)
              (second_coord c).
Proof.
  eexists. split; [reflexivity|].
  exact (@second_coordinate_gives_base_time
           (Datetime 2009 4 6 1 0 0 0) [1238979600000000000] _
           eq_refl eq_refl).
Defined.

End TimeExtras.

(** ** More on the runner *)

Section Silent.

Context {W : Type}.

Lemma silent_ret {A} (a : A) : silent (@ret W A a).
Proof. intros s. reflexivity. Qed.

Lemma silent_raise {A} (c : exn_class) (msg : string) :
  silent (@raise W A c msg).
Proof. intros s. reflexivity. Qed.

Lemma silent_reraise {A} (e : exn) : silent (@reraise W A e).
Proof. intros s. reflexivity. Qed.

Lemma silent_call {A} (op : W -> W * (exn + A)) : silent (call op).
Proof. intros s. unfold call. now destruct (op (fst s)). Qed.

Lemma silent_read {A} (op : W -> exn + A) : silent (read op).
Proof. intros s. reflexivity. Qed.

Lemma silent_get {A} (f : W -> A) : silent (get f).
Proof. intros s. reflexivity. Qed.

Lemma silent_local {A} (name : string) (v : option A) :
  silent (@local W A name v).
Proof. intros s. now destruct v. Qed.

Lemma silent_bind {A B} (m : M W A) (k : A -> M W B) :
  silent m -> (forall a, silent (k a)) -> silent (bind m k).
Proof.
  intros Hm Hk s. unfold bind. specialize (Hm s).
  destruct (m s) as [s' [e|a]]; cbn in Hm; [exact Hm|].
  rewrite Hk. exact Hm.
Qed.

Lemma silent_dispatch {A} (e : exn)
      (clauses : list (list exn_class * (exn -> M W A))) :
  Forall (fun cl => forall e', silent (snd cl e')) clauses ->
  silent (dispatch e clauses).
Proof.
  induction 1 as [|[cs h] clauses Hh _ IH]; cbn [dispatch].
  - apply silent_reraise.
  - destruct (isinstance_any e cs); [apply Hh | exact IH].
Qed.

Lemma silent_try_except {A} (body : M W A)
      (clauses : list (list exn_class * (exn -> M W A))) :
  silent body ->
  Forall (fun cl => forall e', silent (snd cl e')) clauses ->
  silent (try_except body clauses).
Proof.
  intros Hb Hc s. unfold try_except. specialize (Hb s).
  destruct (body s) as [s' [e|a]]; cbn in Hb; [|exact Hb].
  rewrite silent_dispatch by exact Hc. exact Hb.
Qed.

End Silent.

Ltac silent_step :=
  first
    [ apply silent_ret | apply silent_raise | apply silent_reraise
    | apply silent_call | apply silent_read | apply silent_get
    | apply silent_local
    | apply silent_bind; [|intros ?]
    | apply silent_try_except; [|repeat constructor; intros ?] ].

Section RunnerExtras.

Import SCM.
Local Open Scope list_scope.

Context {W : Type} {os : OS W}.

Lemma setup_openifs_scm_silent (self : SCMTileRunner) (c : Cell) :
  silent (setup_openifs_scm self c).
Proof. unfold setup_openifs_scm, write_scm_input. repeat silent_step. Qed.

Lemma _scm_runner_silent (self : SCMTileRunner) (rd : string) :
  silent (_scm_runner self rd).
Proof. unfold _scm_runner. repeat silent_step. Qed.

Lemma archive_failed_run_silent (self : SCMTileRunner) (c : Cell)
      (rd : string) (cro : option CompletedProcess) :
  silent (archive_failed_run self c rd cro).
Proof.
  unfold archive_failed_run, dump_output, relocate.
  destruct (archive_failed_runs self); repeat silent_step.
Qed.

Lemma run_openifs_scm_silent (self : SCMTileRunner) (c : Cell)
      (rd : string) :
  silent (run_openifs_scm self c rd).
Proof.
  intros s. unfold run_openifs_scm, run_openifs_scm_try.
  pose proof (_scm_runner_silent self rd s) as Hrun.
  destruct (_scm_runner self rd s) as [s1 [e|cr]]; cbn [fst snd] in Hrun.
  - destruct (isinstance e SCMError); [|exact Hrun].
    rewrite silent_bind;
      [exact Hrun | apply archive_failed_run_silent
       | intros; apply silent_reraise].
  - unfold _check_for_run_failures.
    destruct (negb (returncode cr =? 0)).
    + erewrite bind_inl by reflexivity.
      cbn [isinstance exn_cls subclass class_eqb orb]. exact Hrun.
    + erewrite bind_inr by reflexivity. rewrite check_files_find.
      destruct (find _ expected_files) as [f|]; [|exact Hrun].
      cbn [isinstance exn_cls subclass class_eqb orb].
      rewrite silent_bind;
        [exact Hrun | apply archive_failed_run_silent
         | intros; apply silent_reraise].
Qed.

Lemma archive_results_silent (self : SCMTileRunner) (c : Cell)
      (rd : string) :
  silent (archive_results self c rd).
Proof.
  unfold archive_results. generalize (@nil string).
  induction archive_files as [|af files IH]; intros archived;
    cbn [archive_loop]; repeat silent_step. apply IH.
Qed.

(** Whenever [run_cell] returns, it has logged exactly one record: the
    record of success when the result has outputs, a record of failure
    that names the cell and the message of the exception otherwise. *)
Theorem run_cell_logs_one_record (self : SCMTileRunner) (c : Cell)
        (s s' : state W) (r : CellResult) :
  run_cell self c s = (s', inr r) ->
  cell r = c
  /\ match outputs r with
     | Some _ => snd s' = snd s ++ [success_record c]
     | None =>
         exists e, isinstance e TileRunError = true
                   /\ snd s' = snd s ++ [failure_record c e]
     end.
Proof.
  intros Hrun.
  assert (Hcaught : forall e,
             isinstance_any e [SCMError; TileRunError] = true ->
             isinstance e TileRunError = true).
  { intros [[] msg]; cbn; intros H; try discriminate; reflexivity. }
  assert (Hend : forall rd (t : state W) (res : CellResult),
             after_rmtree rd t res = inr r -> r = res).
  { intros rd t res. unfold after_rmtree.
    destruct (snd (shutil_rmtree rd (fst t))) as [e|[]];
      [destruct (isinstance e UnboundLocalError)|];
      intros H; try discriminate; now injection H. }
  pose proof (setup_openifs_scm_silent self c s) as Hsetup_log.
  destruct (setup_openifs_scm self c s) as [s1 [e|rd]] eqn:Hsetup;
    cbn [fst snd] in Hsetup_log.
  - destruct (isinstance_any e [SCMError; TileRunError]) eqn:He.
    + erewrite run_cell_not_staged in Hrun by eassumption.
      injection Hrun as <- <-. split; [reflexivity|]. cbn [outputs].
      exists e. split; [now apply Hcaught|].
      cbn. now rewrite Hsetup_log.
    + pose proof Hsetup as H.
      eapply run_cell_not_staged_other in H; [|exact He].
      destruct H as [e' H]. rewrite H in Hrun. discriminate.
  - erewrite run_cell_staged in Hrun by exact Hsetup.
    assert (Hlog : silent (run_openifs_scm self c rd ;;;
                           archive_results self c rd)).
    { apply silent_bind; [apply run_openifs_scm_silent|].
      intros _. apply archive_results_silent. }
    specialize (Hlog s1).
    destruct ((run_openifs_scm self c rd ;;; archive_results self c rd) s1)
      as [s2 [e|files]]; cbn [fst snd] in Hlog.
    + destruct (isinstance_any e [SCMError; TileRunError]) eqn:He;
        [|discriminate].
      assert (Hr : r = MkCellResult c None
                   /\ snd s' = snd s2 ++ [failure_record c e]).
      { destruct (archive_failed_runs self).
        - injection Hrun as <- <-. now split.
        - injection Hrun as <- Hres. apply Hend in Hres. now split. }
      destruct Hr as [-> Hs']. split; [reflexivity|]. cbn [outputs].
      exists e. split; [now apply Hcaught|]. now rewrite Hs', Hlog, Hsetup_log.
    + injection Hrun as <- Hres. apply Hend in Hres. subst r.
      split; [reflexivity|]. cbn. now rewrite Hlog, Hsetup_log.
Qed.

End RunnerExtras.

Section RunnerErrors.

Import SCM.
Local Open Scope list_scope.

Context {W : Type} {os : OS W}.

(** A failure to start the model that is an OSError becomes an SCMError:
    with the message about the missing executable for a
    FileNotFoundError, with the general message for every other OSError;
    this includes PermissionError, whose own clause comes after the
    clause for OSError and is never reached.  Any other exception
    passes unchanged. *)
Theorem scm_runner_launch_errors (self : SCMTileRunner) (rd : string)
        (s : state W) (w' : W) (e : exn) :
  subprocess_run rd (fst s) = (w', inl e) ->
  let missing :=
    Raise SCMError
          ("Cannot locate executable master1c.exe in the template "
           ++ "directory: " ++ template_directory (config self))%string in
  let general :=
    Raise SCMError
          ("Failed to run the executable master1c.exe, check the "
           ++ "program to ensure it is working")%string in
  (isinstance e FileNotFoundError = true ->
   _scm_runner self rd s = ((w', snd s), inl missing))
  /\ (isinstance e OSError = true ->
      isinstance e FileNotFoundError = false ->
      _scm_runner self rd s = ((w', snd s), inl general))
  /\ (exn_cls e = PermissionError ->
      _scm_runner self rd s = ((w', snd s), inl general))
  /\ (isinstance e OSError = false ->
      _scm_runner self rd s = ((w', snd s), inl e)).
Proof.
  intros Hrun missing general.
  assert (Hbody : (command_result <- call (subprocess_run rd) ;;
                   ret command_result) s = ((w', snd s), inl e)).
  { apply bind_inl. unfold call. now rewrite Hrun. }
  unfold _scm_runner. erewrite try_except_inl by exact Hbody.
  cbn [dispatch isinstance_any existsb]. rewrite !orb_false_r.
  split; [|split; [|split]].
  - intros ->. reflexivity.
  - intros Hos Hnf. now rewrite Hnf, Hos.
  - intros Hcls. unfold isinstance. rewrite Hcls. reflexivity.
  - intros Hos.
    assert (isinstance e FileNotFoundError = false
            /\ isinstance e PermissionError = false) as [-> ->].
    { destruct e as [[] msg]; cbn in *; auto; discriminate. }
    now rewrite Hos.
Qed.

Lemma scm_runner_returns (self : SCMTileRunner) (rd : string)
      (s : state W) (w' : W) (cr : CompletedProcess) :
  subprocess_run rd (fst s) = (w', inr cr) ->
  _scm_runner self rd s = ((w', snd s), inr cr).
Proof.
  intros Hrun. unfold _scm_runner. apply try_except_inr.
  erewrite bind_inr by (unfold call; rewrite Hrun; reflexivity).
  reflexivity.
Qed.

(** An exception that [run_cell] does not catch is lost: when the
    staging raises an exception that is not a TileRunError, and when the
    model exits with a status other than 0 (the message of the SCMError
    names exit_code, which does not exist, so that a NameError is
    raised), [run_cell] ends with an UnboundLocalError for
    run_successful; it logs nothing and neither deletes nor moves the
    run directory. *)
Theorem run_cell_loses_uncaught_exception (self : SCMTileRunner)
        (c : Cell) (s : state W) :
  let unbound :=
    Raise UnboundLocalError
          "local variable 'run_successful' referenced before assignment" in
  (forall s1 e,
      setup_openifs_scm self c s = (s1, inl e) ->
      isinstance e TileRunError = false ->
      run_cell self c s = (s1, inl unbound) /\ snd s1 = snd s)
  /\ (forall s1 rd w2 cr,
         setup_openifs_scm self c s = (s1, inr rd) ->
         subprocess_run rd (fst s1) = (w2, inr cr) ->
         returncode cr <> 0 ->
         run_cell self c s = ((w2, snd s), inl unbound)).
Proof.
  intros unbound. split.
  - intros s1 e Hsetup He.
    pose proof (setup_openifs_scm_silent self c s) as Hlog.
    rewrite Hsetup in Hlog. cbn in Hlog.
    split; [|exact Hlog].
    unfold run_cell, run_cell_try. rewrite Hsetup.
    assert (isinstance_any e [SCMError; TileRunError] = false) as ->.
    { destruct e as [[] msg]; cbn in *; auto; discriminate. }
    reflexivity.
  - intros s1 rd w2 cr Hsetup Hrun Hrc.
    pose proof (setup_openifs_scm_silent self c s) as Hlog.
    rewrite Hsetup in Hlog. cbn in Hlog.
    erewrite run_cell_staged by exact Hsetup.
    erewrite bind_inl.
    2:{ unfold run_openifs_scm, run_openifs_scm_try.
        erewrite scm_runner_returns by exact Hrun.
        apply Z.eqb_neq in Hrc. rewrite Hrc. cbn [negb].
        erewrite bind_inl by reflexivity.
        cbn [isinstance exn_cls subclass class_eqb orb]. reflexivity. }
    cbn [isinstance_any existsb isinstance exn_cls subclass class_eqb orb].
    now rewrite Hlog.
Qed.

Lemma find_split {A} (p : A -> bool) (l : list A) (a : A) :
  find p l = Some a ->
  exists before after,
    l = before ++ a :: after
    /\ (forall b, In b before -> p b = false)
    /\ p a = true.
Proof.
  induction l as [|x l IH]; cbn; [discriminate|].
  destruct (p x) eqn:Hx.
  - intros H. injection H as <-. exists [], l. repeat split; auto.
    intros b [].
  - intros H. destruct (IH H) as [before [after [-> [Hb Ha]]]].
    exists (x :: before), after. repeat split; auto.
    intros b [<-|Hin]; auto.
Qed.

(** The verification changes nothing, and when it fails its message
    names the first file, in the order onecol.r, progvar.nc, diagvar.nc,
    diagvar2.nc, that is missing or empty; the files after it are not
    looked at. *)
Theorem verification_names_first_bad_file (self : SCMTileRunner)
        (rd : string) (s s' : state W) (e : exn) :
  _check_for_run_failures self rd s = (s', inl e) ->
  s' = s
  /\ exists before f after,
       ["onecol.r"; "progvar.nc"; "diagvar.nc"; "diagvar2.nc"]
       = before ++ f :: after
       /\ (forall g, In g before ->
                     missing_or_empty (pjoin rd g) (fst s) = false)
       /\ missing_or_empty (pjoin rd f) (fst s) = true
       /\ e = Raise SCMError
                    ("SCM run did not complete correctly, " ++ dquote
                     ++ pjoin rd f ++ dquote ++ " missing or empty.")%string.
Proof.
  unfold _check_for_run_failures. rewrite check_files_find.
  fold expected_files.
  destruct (find _ expected_files) as [f|] eqn:Hf; [|discriminate].
  intros H. injection H as <- <-. split; [reflexivity|].
  apply find_split in Hf. destruct Hf as [before [after [Hl [Hb Ha]]]].
  exists before, f, after. repeat split; auto.
Qed.

(** When [archive_results] raises, the files it had already moved stay
    in the output directory: the moves of the files before the one that
    failed have been made and are not undone.  A PermissionError or
    FileNotFoundError of the failing move is raised as an SCMError, any
    other exception as it is. *)
Theorem archive_results_is_not_undone (self : SCMTileRunner) (c : Cell)
        (rd : string) (s s' : state W) (e : exn) :
  archive_results self c rd s = (s', inl e) ->
  exists done af rest w1 e0,
    ["diagvar.nc"; "diagvar2.nc"; "progvar.nc"] = done ++ af :: rest
    /\ moved (archive_pairs self c rd done) (fst s) w1
    /\ shutil_move (pjoin rd af)
                   (pjoin (output_directory (config self))
                          (target_name self c af)) w1
       = (fst s', inl e0)
    /\ snd s' = snd s
    /\ (if isinstance_any e0 [PermissionError; FileNotFoundError]
        then exn_cls e = SCMError
        else e = e0).
Proof.
  unfold archive_results. fold archive_files.
  generalize (@nil string) as archived. revert s.
  induction archive_files as [|af files IH]; intros s archived H.
  - discriminate.
  - cbn [archive_loop] in H. apply bind_inv_inl in H.
    destruct H as [H|[s1 [[] [Hmove Hrest]]]].
    + exists [], af, files. unfold try_except, call in H.
      destruct (shutil_move (pjoin rd af) _ (fst s)) as [w1 [e0|[]]] eqn:Hm;
        [|discriminate].
      exists (fst s), e0. cbn [dispatch] in H.
      split; [reflexivity|]. split; [reflexivity|].
      cbn [isinstance_any existsb] in *. rewrite !orb_false_r in *.
      destruct (isinstance e0 PermissionError).
      * injection H as <- <-. now rewrite Hm.
      * destruct (isinstance e0 FileNotFoundError);
          injection H as <- <-; now rewrite Hm.
    + unfold try_except, call in Hmove.
      destruct (shutil_move (pjoin rd af) _ (fst s)) as [w1 [e0|[]]] eqn:Hm.
      * cbn [dispatch] in Hmove.
        destruct (isinstance_any e0 [PermissionError]); [discriminate|].
        destruct (isinstance_any e0 [FileNotFoundError]); discriminate.
      * injection Hmove as <-.
        destruct (IH _ _ Hrest)
          as [done [af' [rest [w2 [e0 [Hl [Hmoved [Hfail [Hlog Hcls]]]]]]]]].
        exists (af :: done), af', rest, w2, e0.
        split; [cbn; now rewrite Hl|].
        split; [exists w1; split; [exact Hm | exact Hmoved]|].
        repeat split; auto.
Qed.

End RunnerErrors.

Section Names.

Import SCM.

Lemma string_app_inv_length (a1 a2 b1 b2 : string) :
  String.length a1 = String.length a2 ->
  (a1 ++ b1)%string = (a2 ++ b2)%string -> a1 = a2 /\ b1 = b2.
Proof.
  revert a2. induction a1 as [|c a1 IH]; intros [|c' a2] Hlen H;
    try discriminate.
  - now split.
  - cbn in H. injection H as -> H. injection Hlen as Hlen.
    destruct (IH _ Hlen H) as [-> ->]. now split.
Qed.

Lemma format_04d_inj (a b : N) :
  (a < 10000)%N -> (b < 10000)%N ->
  format_0wd 4 a = format_0wd 4 b -> a = b.
Proof.
  intros Ha Hb H.
  destruct (@format_04d_reads_back (Z.of_N a)) as [_ Ia]; [lia|].
  destruct (@format_04d_reads_back (Z.of_N b)) as [_ Ib]; [lia|].
  rewrite N2Z.id in Ia, Ib. rewrite H in Ia. lia.
Qed.

Lemma format_04d_length (a : N) :
  (a < 10000)%N -> String.length (format_0wd 4 a) = 4%nat.
Proof.
  intros Ha.
  destruct (@format_04d_reads_back (Z.of_N a)) as [La _]; [lia|].
  now rewrite N2Z.id in La.
Qed.

(** On a grid of fewer than 10000 rows and columns, different cells
    have different identifiers, and so different directories for their
    failed runs. *)
Theorem cell_id_is_injective (self : SCMTileRunner) (c1 c2 : Cell) :
  (x_global c1 < 10000)%N -> (y_global c1 < 10000)%N ->
  (x_global c2 < 10000)%N -> (y_global c2 < 10000)%N ->
  (cell_id c1 = cell_id c2 -> c1 = c2)
  /\ (archive_name self c1 = archive_name self c2 -> c1 = c2).
Proof.
  intros Hx1 Hy1 Hx2 Hy2.
  assert (Hid : cell_id c1 = cell_id c2 -> c1 = c2).
  { unfold cell_id. intros H. cbn [append] in H. injection H as H.
    apply string_app_inv_length in H;
      [|now rewrite !format_04d_length].
    destruct H as [Hy H]. cbn [append] in H. injection H as Hx.
    apply format_04d_inj in Hy; auto. apply format_04d_inj in Hx; auto.
    destruct c1, c2. cbn in *. now subst. }
  split; [exact Hid|].
  unfold archive_name. intros H. apply Hid.
  cbn [append] in H.
  repeat match type of H with
         | String _ _ = String _ _ => injection H as H
         end.
  apply string_app_inv_head in H. injection H as H.
  unfold cell_id. cbn [append]. f_equal. exact H.
Qed.

Lemma cell_id_is_injective_witness :
  cell_id (MkCell 12 3) = "y0003x0012"
  /\ (cell_id (MkCell 12 3) = cell_id (MkCell 12 3) ->
      MkCell 12 3 = MkCell 12 3).
Proof.
  split; [reflexivity|].
  apply (@cell_id_is_injective (Scenario.runner false)
                               (MkCell 12 3) (MkCell 12 3));
    reflexivity.
Defined.

End Names.

Section RunnerExtraExamples.

Import SCM Disk Scenario MoreScenarios.

Lemma run_cell_logs_one_record_witness :
  exists s',
    run_cell (runner false) c10
             (run_world [] empty_diagvar complete_run complete_run
                        complete_run, [])
    = (s', inr (MkCellResult c10 None))
    /\ exists e, isinstance e TileRunError = true
                 /\ snd s' = [failure_record c10 e].
Proof.
  set (s := (run_world [] empty_diagvar complete_run complete_run
                       complete_run, @nil log_record)).
  exists (fst (run_cell (runner false) c10 s)).
  split; [vm_compute; reflexivity|].
  destruct (@run_cell_logs_one_record
              world disk_os (runner false) c10 s
              (fst (run_cell (runner false) c10 s))
              (MkCellResult c10 None)) as [_ H];
    [vm_compute; reflexivity|].
  exact H.
Defined.

Lemma scm_runner_launch_errors_witness :
  _scm_runner (runner false) "/work/run0" (not_executable_world, [])
  = ((not_executable_world, []),
     inl (Raise SCMError
                ("Failed to run the executable master1c.exe, check the "
                 ++ "program to ensure it is working"))).
Proof.
  destruct (@scm_runner_launch_errors
              world disk_os (runner false) "/work/run0"
              (not_executable_world, []) not_executable_world
              (Raise PermissionError "Permission denied") eq_refl)
    as (_ & _ & H & _).
  apply H. reflexivity.
Defined.

Lemma run_cell_loses_uncaught_exception_witness :
  exists w,
    run_cell (runner true) c10
             (run_world [] exit_1 complete_run complete_run complete_run,
              [])
    = ((w, []),
       inl (Raise UnboundLocalError
                  "local variable 'run_successful' referenced before assignment"))
    /\ lookup "/work/run0" w = Some (Dir true).
Proof.
  set (s := (run_world [] exit_1 complete_run complete_run complete_run,
             @nil log_record)).
  destruct (@run_cell_loses_uncaught_exception world disk_os
              (runner true) c10 s) as [_ H].
  eexists. split.
  - eapply H.
    + vm_compute. reflexivity.
    + lazy. reflexivity.
    + discriminate.
  - vm_compute. reflexivity.
Defined.

Lemma verification_names_first_bad_file_witness :
  exists e,
    _check_for_run_failures (runner false) "/work/run0"
                            (verified [] empty_diagvar)
    = (verified [] empty_diagvar, inl e)
    /\ exn_msg e
       = "SCM run did not complete correctly, " ++ dquote
         ++ "/work/run0/diagvar.nc" ++ dquote ++ " missing or empty.".
Proof.
  eexists. split; [vm_compute; reflexivity|].
  destruct (@verification_names_first_bad_file
              world disk_os (runner false) "/work/run0"
              (verified [] empty_diagvar) (verified [] empty_diagvar)
              (Raise SCMError
                     ("SCM run did not complete correctly, " ++ dquote
                      ++ "/work/run0/diagvar.nc" ++ dquote
                      ++ " missing or empty.")))
    as [_ _]; [vm_compute; reflexivity|].
  reflexivity.
Defined.

Lemma archive_results_is_not_undone_witness :
  exists s' e,
    archive_results (runner false) c10 "/work/run0"
                    (verified locked_diagvar2 complete_run)
    = (s', inl e)
    /\ exn_cls e = SCMError
    /\ lookup "/out/diagvar.20090406_010000.y0000x0001.nc" (fst s')
       = Some (File "d")
    /\ lookup "/work/run0/diagvar.nc" (fst s') = None
    /\ lookup "/work/run0/progvar.nc" (fst s') = Some (File "p").
Proof.
  set (s := verified locked_diagvar2 complete_run).
  exists (fst (archive_results (runner false) c10 "/work/run0" s)).
  eexists.
  split; [vm_compute; reflexivity|].
  destruct (@archive_results_is_not_undone
              world disk_os (runner false) c10 "/work/run0" s
              (fst (archive_results (runner false) c10 "/work/run0" s))
              (Raise SCMError
                     ("Cannot archive data to " ++ dquote ++ "/out"
                      ++ dquote ++ ", permission denied.")))
    as [done _]; [vm_compute; reflexivity|].
  repeat split; vm_compute; reflexivity.
Defined.

End RunnerExtraExamples.

(** ** More on the post-processor *)

Section KeepsWorld.

Context {W : Type}.

Lemma keeps_world_ret {A} (a : A) : keeps_world (@ret W A a).
Proof. intros s. reflexivity. Qed.

Lemma keeps_world_raise {A} (c : exn_class) (msg : string) :
  keeps_world (@raise W A c msg).
Proof. intros s. reflexivity. Qed.

Lemma keeps_world_reraise {A} (e : exn) : keeps_world (@reraise W A e).
Proof. intros s. reflexivity. Qed.

Lemma keeps_world_read {A} (op : W -> exn + A) : keeps_world (read op).
Proof. intros s. reflexivity. Qed.

Lemma keeps_world_logger (l : level) (msg : string) :
  keeps_world (@logger W l msg).
Proof. intros s. reflexivity. Qed.

Lemma keeps_world_bind {A B} (m : M W A) (k : A -> M W B) :
  keeps_world m -> (forall a, keeps_world (k a)) -> keeps_world (bind m k).
Proof.
  intros Hm Hk s. unfold bind. specialize (Hm s).
  destruct (m s) as [s' [e|a]]; cbn in Hm; [exact Hm|].
  rewrite Hk. exact Hm.
Qed.

Lemma keeps_world_dispatch {A} (e : exn)
      (clauses : list (list exn_class * (exn -> M W A))) :
  Forall (fun cl => forall e', keeps_world (snd cl e')) clauses ->
  keeps_world (dispatch e clauses).
Proof.
  induction 1 as [|[cs h] clauses Hh _ IH]; cbn [dispatch].
  - apply keeps_world_reraise.
  - destruct (isinstance_any e cs); [apply Hh | exact IH].
Qed.

Lemma keeps_world_try_except {A} (body : M W A)
      (clauses : list (list exn_class * (exn -> M W A))) :
  keeps_world body ->
  Forall (fun cl => forall e', keeps_world (snd cl e')) clauses ->
  keeps_world (try_except body clauses).
Proof.
  intros Hb Hc s. unfold try_except. specialize (Hb s).
  destruct (body s) as [s' [e|a]]; cbn in Hb; [|exact Hb].
  rewrite keeps_world_dispatch by exact Hc. exact Hb.
Qed.

(** A computation that keeps the world either raises, or hands its
    result on to what follows, in the same world. *)
Lemma bind_keeps_world_cases {A B} (m : M W A) (k : A -> M W B)
      (s : state W) :
  keeps_world m ->
  (exists s1 e, bind m k s = (s1, inl e) /\ fst s1 = fst s)
  \/ (exists s1 a, m s = (s1, inr a) /\ fst s1 = fst s
                   /\ bind m k s = k a s1).
Proof.
  intros Hm. unfold bind. specialize (Hm s).
  destruct (m s) as [s1 [e|a]]; cbn in Hm; [left | right]; eauto.
Qed.

End KeepsWorld.

Ltac keeps_world_step :=
  first
    [ apply keeps_world_ret | apply keeps_world_raise
    | apply keeps_world_reraise | apply keeps_world_read
    | apply keeps_world_logger
    | apply keeps_world_bind; [|intros ?]
    | apply keeps_world_try_except; [|repeat constructor; intros ?] ].

Section PostProcessorExtras.

Import PP.
Local Open Scope list_scope.

Context {W : Type} {os : OS W}.

Lemma open_datasets_keeps_world (fps drop_list : list string) :
  keeps_world (open_datasets (W:=W) fps drop_list).
Proof.
  induction fps as [|fp fps IH]; cbn [open_datasets];
    repeat keeps_world_step. exact IH.
Qed.

Lemma pp_cell_keeps_world (c : Cell) (timestamp : string)
      (templates : Templates) (drop_list : list string)
      (config : SCMTilesConfig) :
  keeps_world (pp_cell (W:=W) c timestamp templates drop_list config).
Proof.
  intros s. now rewrite pp_cell_state.
Qed.

Lemma pp_tile_cells_keeps_world (config : SCMTilesConfig)
      (timestamp : string) (templates : Templates)
      (drop_list : list string) (cells : list Cell) :
  forall od fps,
    keeps_world (pp_tile_cells (W:=W) config timestamp templates drop_list
                               cells od fps).
Proof.
  induction cells as [|c cells IH]; intros od fps; cbn [pp_tile_cells].
  - apply keeps_world_ret.
  - apply keeps_world_bind; [apply pp_cell_keeps_world|].
    intros [cell_ds fp]. apply IH.
Qed.

Lemma concat_rows_keeps_world (od : grid_rows_t) :
  keeps_world (concat_rows (W:=W) od).
Proof.
  induction od as [|[k row] od IH]; cbn [concat_rows];
    repeat keeps_world_step. exact IH.
Qed.

Lemma pp_tile_keeps_world (config : SCMTilesConfig) (timestamp : string)
      (templates : Templates) (drop_list : list string) (tile : Tile) :
  keeps_world (pp_tile (W:=W) config timestamp templates drop_list tile).
Proof.
  unfold pp_tile.
  apply keeps_world_bind; [apply pp_tile_cells_keeps_world|].
  intros [grid_rows filepaths].
  apply keeps_world_bind; [apply concat_rows_keeps_world|]. intros values.
  apply keeps_world_bind.
  - destruct (1 <? Datatypes.length values)%nat; [apply keeps_world_read|].
    destruct values as [|d [|d' values]]; repeat keeps_world_step.
  - intros tile_ds. repeat keeps_world_step.
Qed.

Lemma pool_map_keeps_world {A B} (f : A -> M W B) (l : list A) :
  (forall a, keeps_world (f a)) -> keeps_world (pool_map f l).
Proof.
  intros Hf. induction l as [|a l IH]; cbn [pool_map];
    repeat keeps_world_step; auto.
Qed.

(** A number of processes below 1 is refused before anything is read:
    [main] logs the error and returns exit status 1, in every world. *)
Theorem main_refuses_no_processes (argv0 path : string) (n : Z)
        (delete : bool) (s : state W) :
  n < 1 ->
  main argv0 path n delete s
  = ((fst s,
      snd s
      ++ [(INFO, ("Running " ++ argv0 ++ " at version 1.0.alpha1")%string);
          (INFO, ("Backend scmtiles is version "
                  ++ scmtiles_version)%string);
          (ERROR, "error: number of processes must be positive")]),
     inr 1).
Proof.
  intros Hn. unfold main.
  erewrite try_except_inl.
  2:{ rewrite !bind_logger. apply bind_inl. unfold post_process.
      apply bind_inl. apply Z.ltb_lt in Hn. rewrite Hn. reflexivity. }
  cbn [dispatch isinstance_any existsb isinstance exn_cls subclass
       class_eqb orb].
  rewrite bind_logger. unfold ret, logged. cbn [fst snd exn_msg].
  now rewrite <- !app_assoc.
Qed.

(** [load_coordinate_templates] changes nothing and raises neither a
    RuntimeError nor a ValueError: both become an Error; every other
    exception of the opening of the input file passes unchanged. *)
Theorem load_coordinate_templates_errors (config : SCMTilesConfig)
        (s : state W) :
  let filepath := pjoin (input_directory config) (input_file_name config) in
  fst (load_coordinate_templates config s) = s
  /\ match open_coordinates filepath config (fst s),
           snd (load_coordinate_templates config s) with
     | inr t, r => r = inr t
     | inl e, inl e' =>
         isinstance e' RuntimeError = false
         /\ isinstance e' ValueError = false
         /\ (if isinstance e RuntimeError || isinstance e ValueError
             then exn_cls e' = Error else e' = e)
     | inl _, inr _ => False
     end.
Proof.
  intros filepath. unfold load_coordinate_templates.
  fold filepath. unfold try_except, read.
  destruct (open_coordinates filepath config (fst s)) as [e|t];
    [|split; reflexivity].
  cbn [dispatch isinstance_any existsb]. rewrite !orb_false_r.
  destruct (isinstance e RuntimeError) eqn:Hr.
  - split; [reflexivity|]. cbn. auto.
  - destruct (isinstance e ValueError) eqn:Hv.
    + split; [reflexivity|]. cbn. auto.
    + split; [reflexivity|]. cbn. auto.
Qed.

(** The loops that delete the cell directories: when they end without
    an exception every listed directory has been removed, in order, and
    one record is logged for each; an exception of [shutil.rmtree] ends
    them at once and passes unchanged, the directories before it are
    removed and those after it are not touched. *)
Theorem delete_directories_in_order (dirs : list string)
        (s s' : state W) (r : exn + unit) :
  delete_directories dirs s = (s', r) ->
  match r with
  | inr _ =>
      removed_all dirs (fst s) (fst s')
      /\ snd s' = snd s ++ map (fun dp => (INFO, ("deleted: " ++ dp)%string))
                               dirs
  | inl e =>
      exists done dp rest w1,
        dirs = done ++ dp :: rest
        /\ removed_all done (fst s) w1
        /\ shutil_rmtree dp w1 = (fst s', inl e)
        /\ snd s' = snd s
                    ++ map (fun dp => (INFO, ("deleted: " ++ dp)%string))
                           done
  end.
Proof.
  revert s. induction dirs as [|dp dirs IH]; intros s H.
  - cbn in H. injection H as <- <-. cbn. now rewrite app_nil_r.
  - cbn [delete_directories] in H. unfold bind at 1, call at 1 in H.
    destruct (shutil_rmtree dp (fst s)) as [w1 [e|[]]] eqn:Hrm.
    + injection H as <- <-. exists [], dp, dirs, (fst s).
      cbn. rewrite app_nil_r. repeat split; auto.
    + rewrite bind_logger in H. apply IH in H.
      destruct r as [e|u].
      * destruct H as [done [dp' [rest [w2 [Hd [Hrem [Hfail Hlog]]]]]]].
        exists (dp :: done), dp', rest, w2.
        split; [cbn; now rewrite Hd|].
        split; [exists w1; split; [exact Hrm | exact Hrem]|].
        split; [exact Hfail|].
        rewrite Hlog. cbn. now rewrite <- app_assoc.
      * destruct H as [Hrem Hlog]. split.
        -- exists w1. split; [exact Hrm | exact Hrem].
        -- rewrite Hlog. cbn. now rewrite <- app_assoc.
Qed.

End PostProcessorExtras.

Section PostProcessorWorld.

Import PP.
Local Open Scope list_scope.

Context {W : Type} {os : OS W}.

Lemma config_read (path : string) (s s1 : state W)
      (config : SCMTilesConfig) :
  try_except (read (config_from_file path))
             [ ([ConfigurationError],
                fun e : exn => @raise W SCMTilesConfig Error (exn_msg e)) ] s
  = (s1, inr config) ->
  config_from_file path (fst s) = inr config.
Proof.
  unfold try_except, read.
  destruct (config_from_file path (fst s)) as [e|c].
  - cbn [dispatch]. destruct (isinstance_any e [ConfigurationError]);
      discriminate.
  - intros H. now injection H as <- <-.
Qed.

Lemma to_netcdf_written (path : string) (ds : Dataset) (s : state W)
      (k : M W unit) :
  keeps_world k ->
  fst (fst ((try_except (call (to_netcdf path ds))
                        [ ([RuntimeError], fun _ : exn => ret tt) ] ;;; k) s))
  = fst (to_netcdf path ds (fst s)).
Proof.
  intros Hk. unfold bind, try_except, call.
  destruct (to_netcdf path ds (fst s)) as [w1 [e|[]]]; cbn [fst snd].
  - cbn [dispatch]. destruct (isinstance_any e [RuntimeError]).
    + unfold ret. rewrite Hk. reflexivity.
    + reflexivity.
  - rewrite Hk. reflexivity.
Qed.

(** Without the deletion of the cell files, [post_process] changes the
    world by one thing at most: the writing of the grid to
    scm_out.<timestamp>.nc in the output directory.  Whatever happens
    before that is reading and logging. *)
Theorem post_process_only_writes (path : string) (n : Z)
        (s s' : state W) (r : exn + unit) :
  post_process path n false s = (s', r) ->
  fst s' = fst s
  \/ exists config ds,
       config_from_file path (fst s) = inr config
       /\ fst s'
          = fst (to_netcdf
                   (pjoin (output_directory config)
                          ("scm_out."
                           ++ Time.strftime_Ymd_HMS (start_time config)
                           ++ ".nc")%string)
                   ds (fst s)).
Proof.
  intros H. unfold post_process in H.
  (* the number of processes *)
  match type of H with
  | bind ?m ?k s = _ =>
      destruct (@bind_keeps_world_cases W _ _ m k s)
        as [[s1 [e [H1 Hw1]]]|[s1 [[] [_ [Hw1 H1]]]]]
  end.
  { destruct (n <? 1); [apply keeps_world_raise | apply keeps_world_ret]. }
  { rewrite H1 in H. injection H as <- _. now left. }
  rewrite H1 in H. clear H1.
  (* the configuration *)
  match type of H with
  | bind ?m ?k s1 = _ =>
      destruct (@bind_keeps_world_cases W _ _ m k s1)
        as [[s2 [e [H2 Hw2]]]|[s2 [config [Hconfig [Hw2 H2]]]]]
  end.
  { repeat keeps_world_step. }
  { rewrite H2 in H. injection H as <- _. left. congruence. }
  rewrite H2 in H. clear H2. apply config_read in Hconfig.
  rewrite Hw1 in Hconfig.
  rewrite bind_logger in H.
  (* the coordinate templates *)
  match type of H with
  | bind ?m ?k ?t = _ =>
      destruct (@bind_keeps_world_cases W _ _ m k t)
        as [[s3 [e [H3 Hw3]]]|[s3 [templates [_ [Hw3 H3]]]]]
  end.
  { unfold load_coordinate_templates. repeat keeps_world_step. }
  { rewrite H3 in H. injection H as <- _. left. cbn in Hw3. congruence. }
  rewrite H3 in H. clear H3. cbn [logged fst] in Hw3.
  (* the list of variables to drop *)
  match type of H with
  | bind ?m ?k s3 = _ =>
      destruct (@bind_keeps_world_cases W _ _ m k s3)
        as [[s4 [e [H4 Hw4]]]|[s4 [drop_list [_ [Hw4 H4]]]]]
  end.
  { repeat keeps_world_step. }
  { rewrite H4 in H. injection H as <- _. left. congruence. }
  rewrite H4 in H. clear H4. rewrite bind_logger in H.
  (* the tiles *)
  match type of H with
  | bind ?m ?k ?t = _ =>
      destruct (@bind_keeps_world_cases W _ _ m k t)
        as [[s5 [e [H5 Hw5]]]|[s5 [results [_ [Hw5 H5]]]]]
  end.
  { apply pool_map_keeps_world. intros tile. apply pp_tile_keeps_world. }
  { rewrite H5 in H. injection H as <- _. left. cbn in Hw5. congruence. }
  rewrite H5 in H. clear H5. cbn [logged fst] in Hw5.
  (* the grid *)
  match type of H with
  | bind ?m ?k s5 = _ =>
      destruct (@bind_keeps_world_cases W _ _ m k s5)
        as [[s6 [e [H6 Hw6]]]|[s6 [dataset [_ [Hw6 H6]]]]]
  end.
  { apply keeps_world_read. }
  { rewrite H6 in H. injection H as <- _. left. congruence. }
  rewrite H6 in H. clear H6. rewrite bind_logger in H.
  (* the writing *)
  right. exists config. eexists. split; [exact Hconfig|].
  apply (f_equal (fun x => fst (fst x))) in H. cbn [fst] in H.
  rewrite <- H. rewrite to_netcdf_written by apply keeps_world_ret.
  cbn [logged fst].
  replace (fst s6) with (fst s) by congruence. reflexivity.
Qed.

(** When the grid is decomposed into no tile at all, there is nothing
    to concatenate: [post_process] stops with the ValueError of
    [xr.concat], which [main] does not catch, so that [main] gives no
    exit status; nothing has been written. *)
Theorem main_without_tiles (argv0 path : string) (n : Z) (delete : bool)
        (s : state W) (config : SCMTilesConfig) (templates : Templates) :
  1 <= n ->
  config_from_file path (fst s) = inr config ->
  open_coordinates (pjoin (input_directory config) (input_file_name config))
                   config (fst s) = inr templates ->
  (forall e, read_dropvars (fst s) = inl e -> isinstance e OSError = true) ->
  decompose_by_rows (xsize config) (ysize config) (ysize config) = [] ->
  exists s',
    main argv0 path n delete s
    = (s', inl (Raise ValueError
                      "must supply at least one object to concatenate"))
    /\ fst s' = fst s.
Proof.
  intros Hn Hconfig Hcoord Hdrop Htiles.
  unfold main.
  eexists. split.
  - erewrite try_except_inl.
    2:{ rewrite !bind_logger. apply bind_inl. unfold post_process.
        destruct (Z.ltb_spec n 1) as [Hlt|_]; [lia|].
        erewrite bind_inr by reflexivity.
        erewrite bind_inr.
        2:{ apply try_except_inr. unfold read. cbn [logged fst].
            rewrite Hconfig. reflexivity. }
        rewrite bind_logger.
        erewrite bind_inr.
        2:{ unfold load_coordinate_templates. apply try_except_inr.
            unfold read, logged. cbn [fst]. rewrite Hcoord. reflexivity. }
        erewrite bind_inr.
        2:{ apply drop_list_read. exact Hdrop. }
        rewrite bind_logger. rewrite Htiles. cbn [pool_map].
        erewrite bind_inr by reflexivity.
        apply bind_inl. reflexivity. }
    reflexivity.
  - reflexivity.
Qed.

End PostProcessorWorld.

(** ** Tiles in any order of their cells *)

Section AnyOrder.

Import PP.
Local Open Scope list_scope.

Lemma row_key_snoc (row : list loaded_cell) (p : loaded_cell) :
  row <> [] -> row_key (row ++ [p]) = row_key row.
Proof. destruct row; [contradiction | reflexivity]. Qed.

Lemma od_append_add_to_rows (p : loaded_cell)
      (rows : list (list loaded_cell)) :
  Forall (fun row => row <> []) rows ->
  od_append (row_index p) (dataset_of p) (dict_of_rows rows)
  = dict_of_rows (add_to_rows p rows).
Proof.
  induction 1 as [|row rows Hne _ IH]; [reflexivity|].
  cbn [dict_of_rows map od_append add_to_rows].
  change (match row with [] => 0%N | q :: _ => row_index q end)
    with (row_key row).
  destruct (N.eqb (row_key row) (row_index p)).
  - cbn [map]. rewrite map_app.
    change (match row ++ [p] with [] => 0%N | q :: _ => row_index q end)
      with (row_key (row ++ [p])).
    now rewrite row_key_snoc.
  - cbn [map]. unfold dict_of_rows in IH. now rewrite IH.
Qed.

Lemma add_to_rows_perm (p : loaded_cell) (rows : list (list loaded_cell)) :
  Permutation (List.concat (add_to_rows p rows)) (p :: List.concat rows).
Proof.
  induction rows as [|row rows IH]; cbn [add_to_rows List.concat].
  - cbn. reflexivity.
  - destruct (N.eqb (row_key row) (row_index p)); cbn [List.concat].
    + rewrite <- app_assoc. cbn. symmetry. apply Permutation_middle.
    + rewrite IH. symmetry. apply Permutation_middle.
Qed.

Lemma add_to_rows_uniform (p : loaded_cell)
      (rows : list (list loaded_cell)) :
  Forall row_uniform rows -> Forall row_uniform (add_to_rows p rows).
Proof.
  induction 1 as [|row rows [Hne Hrow] Hrows IH]; cbn [add_to_rows].
  - repeat constructor; [discriminate|]. intros q [<-|[]]. reflexivity.
  - destruct (N.eqb_spec (row_key row) (row_index p)) as [Heq|Hneq].
    + constructor; [|exact Hrows]. split.
      * now destruct row.
      * intros q Hq. rewrite row_key_snoc by exact Hne.
        apply in_app_iff in Hq. destruct Hq as [Hq|[<-|[]]]; auto.
    + constructor; [now split | exact IH].
Qed.

Lemma add_to_rows_keys (p : loaded_cell) (rows : list (list loaded_cell)) :
  Forall (fun row => row <> []) rows ->
  map row_key (add_to_rows p rows)
  = if existsb (fun row => N.eqb (row_key row) (row_index p)) rows
    then map row_key rows
    else map row_key rows ++ [row_index p].
Proof.
  induction 1 as [|row rows Hne _ IH]; [reflexivity|].
  cbn [add_to_rows existsb].
  destruct (N.eqb (row_key row) (row_index p)); cbn [orb map].
  - now rewrite row_key_snoc.
  - rewrite IH. now destruct (existsb _ rows).
Qed.

Lemma add_to_rows_distinct (p : loaded_cell)
      (rows : list (list loaded_cell)) :
  Forall (fun row => row <> []) rows ->
  NoDup (map row_key rows) -> NoDup (map row_key (add_to_rows p rows)).
Proof.
  intros Hne Hnd. rewrite add_to_rows_keys by exact Hne.
  destruct (existsb _ rows) eqn:Hex; [exact Hnd|].
  apply NoDup_app_remove_l with (l := []). cbn.
  apply Permutation_NoDup with (l := row_index p :: map row_key rows).
  - apply Permutation_cons_append.
  - constructor; [|exact Hnd].
    intros Hin. apply in_map_iff in Hin. destruct Hin as [row [Hk Hin]].
    assert (existsb (fun row => N.eqb (row_key row) (row_index p)) rows
            = true).
    { apply existsb_exists. exists row. split; [exact Hin|].
      now apply N.eqb_eq. }
    congruence.
Qed.

Lemma uniform_nonempty (rows : list (list loaded_cell)) :
  Forall row_uniform rows -> Forall (fun row => row <> []) rows.
Proof. apply Forall_impl. now intros row [H _]. Qed.

(** The dictionary after the loop over cells in any order. *)
Lemma group_any_order (items : list loaded_cell) :
  forall rows,
    Forall row_uniform rows -> NoDup (map row_key rows) ->
    exists rows',
      fold_left group_step items (dict_of_rows rows) = dict_of_rows rows'
      /\ Permutation (List.concat rows') (List.concat rows ++ items)
      /\ Forall row_uniform rows'
      /\ NoDup (map row_key rows').
Proof.
  induction items as [|p items IH]; intros rows Hu Hnd.
  - exists rows. rewrite app_nil_r. repeat split; auto.
  - cbn [fold_left]. unfold group_step at 2.
    rewrite od_append_add_to_rows by now apply uniform_nonempty.
    destruct (IH (add_to_rows p rows)) as [rows' [Hf [Hp [Hu' Hnd']]]].
    + now apply add_to_rows_uniform.
    + apply add_to_rows_distinct; [now apply uniform_nonempty | exact Hnd].
    + exists rows'. repeat split; auto.
      rewrite Hp, add_to_rows_perm. cbn [app].
      apply Permutation_middle.
Qed.

Context {W : Type} {os : OS W}.

Lemma dataset_of_combine (cells : list Cell)
      (results : list (CellDataset * string)) :
  List.length cells = List.length results ->
  map dataset_of (combine cells results) = map fst results.
Proof.
  revert results. induction cells as [|c cells IH]; intros [|r results] H;
    try discriminate; [reflexivity|].
  cbn. f_equal. apply IH. now injection H.
Qed.

(** Whatever the order in which [tile.cells()] yields the cells, when
    they all load [pp_tile] returns a tile that holds the dataset of
    every cell exactly once, in rows that each consist of the cells of
    one y_global, different rows having different y_global; the paths
    it returns are those of the cells in the order of the cells. *)
Theorem pp_tile_keeps_every_cell (config : SCMTilesConfig)
        (timestamp : string) (templates : Templates)
        (drop_list : list string) (tile : Tile)
        (results : list (CellDataset * string)) (s : state W) :
  tile_cells tile <> [] ->
  Forall2 (fun c r =>
             snd (pp_cell c timestamp templates drop_list config s)
             = inr r) (tile_cells tile) results ->
  exists tile_ds rows s',
    pp_tile config timestamp templates drop_list tile s
    = (s', inr (tile_ds, map snd results))
    /\ fst s' = fst s
    /\ ds_rows tile_ds = map (map dataset_of) rows
    /\ Permutation (List.concat rows) (combine (tile_cells tile) results)
    /\ Permutation (List.concat (ds_rows tile_ds)) (map fst results)
    /\ Forall row_uniform rows
    /\ NoDup (map row_key rows).
Proof.
  intros Hne Hall.
  destruct (group_any_order (combine (tile_cells tile) results)
                            (Forall_nil _) (NoDup_nil _))
    as [rows [Hod [Hperm [Hu Hnd]]]].
  cbn [List.concat app dict_of_rows map] in Hod, Hperm.
  assert (Hlen : List.length (tile_cells tile) = List.length results)
    by (eapply Forall2_length; exact Hall).
  assert (Hrows : rows <> []).
  { intros ->. cbn in Hperm. apply Permutation_nil in Hperm.
    destruct (tile_cells tile); [now apply Hne|].
    destruct results; discriminate. }
  assert (Hflat : Permutation (List.concat (map (map dataset_of) rows))
                              (map fst results)).
  { rewrite <- concat_map, Hperm. now rewrite dataset_of_combine. }
  unfold pp_tile. unfold bind at 1.
  erewrite pp_tile_cells_ok by exact Hall. cbn [app]. rewrite Hod.
  unfold bind at 1.
  erewrite concat_rows_ok by (now apply uniform_nonempty).
  rewrite length_map.
  destruct rows as [|row0 [|row1 rows]]; [now contradiction Hrows| |].
  - exists (row_dataset row0), [row0]. eexists.
    split; [reflexivity|]. repeat split; auto.
  - eexists. exists (row0 :: row1 :: rows). eexists.
    split; [reflexivity|]. cbn [ds_rows].
    rewrite flat_map_row_dataset. repeat split; auto.
Qed.

End AnyOrder.

(** ** The sort of the tiles *)

Section SortExtras.

Import PP.
Local Open Scope list_scope.

Variable A : Type.

Lemma with_key_insert (k : Z) (x : Z * A) (l : list (Z * A)) :
  with_key k (insert_by_key x l)
  = if fst x =? k then x :: with_key k l else with_key k l.
Proof.
  unfold with_key.
  induction l as [|y l IH]; cbn [insert_by_key filter].
  - reflexivity.
  - destruct (Z.leb_spec (fst x) (fst y)) as [Hle|Hgt]; cbn [filter].
    + reflexivity.
    + rewrite IH.
      destruct (Z.eqb_spec (fst x) k) as [Hx|Hx]; [|reflexivity].
      destruct (Z.eqb_spec (fst y) k) as [Hy|Hy]; [lia | reflexivity].
Qed.

Lemma with_key_sort (k : Z) (l : list (Z * A)) :
  with_key k (sort_by_key l) = with_key k l.
Proof.
  induction l as [|x l IH]; [reflexivity|].
  unfold sort_by_key in *. cbn [fold_right].
  rewrite with_key_insert, IH. unfold with_key. cbn [filter].
  reflexivity.
Qed.

Variable key : A -> exn + Z.

Lemma decorate_in (l : list A) (kl : list (Z * A)) :
  decorate key l = inr kl ->
  forall p, In p kl -> key (snd p) = inr (fst p).
Proof.
  revert kl. induction l as [|a l IH]; cbn; intros kl H.
  - injection H as <-. intros p [].
  - destruct (key a) as [e|k] eqn:Hk; [discriminate|].
    destruct (decorate key l) as [e|kl'] eqn:Hd; [discriminate|].
    injection H as <-. intros p [<-|Hin]; [exact Hk|].
    now apply (IH kl').
Qed.

Lemma filter_has_key (k : Z) (kl : list (Z * A)) :
  (forall p, In p kl -> key (snd p) = inr (fst p)) ->
  filter (has_key key k) (map snd kl) = map snd (with_key k kl).
Proof.
  unfold with_key. induction kl as [|p kl IH]; intros H; [reflexivity|].
  cbn [map filter]. unfold has_key at 1.
  rewrite (H p (or_introl eq_refl)).
  rewrite IH by (intros q Hq; apply H; now right).
  now destruct (fst p =? k).
Qed.

(** [sorted] with a key returns the elements of the list in ascending
    order of their keys, each exactly once, and it is stable: elements
    of equal key keep the order they had in the list. *)
Theorem sorted_is_stable (l l' : list A) :
  sorted key l = inr l' ->
  Permutation l l'
  /\ (exists keys,
         map key l' = map (fun k => inr k) keys
         /\ StronglySorted Z.le keys)
  /\ forall k, filter (has_key key k) l' = filter (has_key key k) l.
Proof.
  unfold sorted. destruct (decorate key l) as [e|kl] eqn:Hd; [discriminate|].
  intros H. injection H as <-.
  destruct (decorate_keys key l Hd) as [Hl _].
  pose proof (decorate_in l Hd) as Hkeys.
  assert (Hkeys' : forall p, In p (sort_by_key kl) ->
                             key (snd p) = inr (fst p)).
  { intros p Hp. apply Hkeys.
    eapply Permutation_in; [|exact Hp].
    apply Permutation_sym, sort_by_key_perm. }
  split; [|split].
  - rewrite <- Hl. apply Permutation_map, sort_by_key_perm.
  - exists (map fst (sort_by_key kl)). split.
    + rewrite !map_map. apply map_ext_in. exact Hkeys'.
    + pose proof (sort_by_key_sorted kl) as Hs.
      induction Hs as [|x xs Hs IH Hx]; cbn [map]; [constructor|].
      constructor.
      * apply IH. intros p Hp. apply Hkeys'. now right.
      * rewrite Forall_map. exact Hx.
  - intros k. rewrite filter_has_key by exact Hkeys'.
    rewrite with_key_sort. rewrite <- Hl.
    now rewrite filter_has_key by exact Hkeys.
Qed.

End SortExtras.

Section GridExtras.

Import PP.
Local Open Scope list_scope.

Lemma y_values_max_defined (d : Dataset) :
  List.concat (ds_rows d) <> [] -> exists k, y_values_max d = inr k.
Proof.
  unfold y_values_max. destruct (List.concat (ds_rows d)); [contradiction|].
  intros _. cbn. eauto.
Qed.

Lemma y_values_max_cells (d : Dataset) (k : Z) :
  y_values_max d = inr k -> List.concat (ds_rows d) <> [].
Proof.
  unfold y_values_max. destruct (List.concat (ds_rows d)); cbn;
    [discriminate | intros _; discriminate].
Qed.

Lemma decorate_defined {A} (key : A -> exn + Z) (l : list A) :
  Forall (fun a => exists k, key a = inr k) l ->
  exists kl, decorate key l = inr kl.
Proof.
  induction 1 as [|a l [k Hk] _ [kl IH]]; cbn; [eauto|].
  rewrite Hk, IH. eauto.
Qed.

Lemma assemble_grid_succeeds (ts : list Dataset) :
  ts <> [] -> Forall (fun t => List.concat (ds_rows t) <> []) ts ->
  exists g, assemble_grid ts = inr g.
Proof.
  intros Hne Hall. unfold assemble_grid, sorted.
  destruct (@decorate_defined _ y_values_max ts) as [kl Hd].
  { eapply Forall_impl; [|exact Hall].
    intros t. apply y_values_max_defined. }
  rewrite Hd.
  destruct (map snd (sort_by_key kl)) as [|d l'] eqn:Hs.
  - exfalso. apply Hne.
    destruct (decorate_keys y_values_max ts Hd) as [<- _].
    apply (f_equal (@List.length _)) in Hs. rewrite length_map in Hs.
    rewrite <- (Permutation_length (sort_by_key_perm kl)) in Hs.
    destruct kl; [reflexivity | discriminate].
  - cbn. eauto.
Qed.

Lemma assemble_grid_rows (ts : list Dataset) (g : Dataset) :
  assemble_grid ts = inr g ->
  exists ordered, Permutation ts ordered
                  /\ ds_rows g = flat_map ds_rows ordered.
Proof.
  intros Hg. unfold assemble_grid in Hg.
  destruct (sorted y_values_max ts) as [e|ordered] eqn:Hs; [discriminate|].
  unfold sorted in Hs.
  destruct (decorate y_values_max ts) as [e|kl] eqn:Hd; [discriminate|].
  injection Hs as <-.
  destruct (decorate_keys y_values_max ts Hd) as [Hl _].
  assert (Hperm : Permutation ts (map snd (sort_by_key kl))).
  { rewrite <- Hl at 1. apply Permutation_map, sort_by_key_perm. }
  unfold xr_concat_y in Hg.
  destruct (map snd (sort_by_key kl)) as [|d rest] eqn:Hm; [discriminate|].
  injection Hg as <-. exists (d :: rest). split; [exact Hperm | reflexivity].
Qed.

(** The grid is assembled exactly when there is at least one tile and
    every tile holds at least one cell; it then has every row of every
    tile exactly once, and its rows are those of the tiles taken one
    tile after the other. *)
Theorem assemble_grid_keeps_rows (ts : list Dataset) :
  ((exists g, assemble_grid ts = inr g)
   <-> ts <> [] /\ Forall (fun t => List.concat (ds_rows t) <> []) ts)
  /\ forall g,
       assemble_grid ts = inr g ->
       Permutation (ds_rows g) (flat_map ds_rows ts)
       /\ exists ordered,
            Permutation ts ordered
            /\ ds_rows g = flat_map ds_rows ordered.
Proof.
  split.
  - split.
    + intros [g Hg]. unfold assemble_grid, sorted in Hg.
      destruct (decorate y_values_max ts) as [e|kl] eqn:Hd; [discriminate|].
      destruct (decorate_keys y_values_max ts Hd) as [Hl Hk].
      split.
      * intros ->. cbn in Hd. injection Hd as <-. discriminate.
      * apply Forall_forall. intros t Ht.
        assert (Hin : In (y_values_max t) (map y_values_max ts))
          by now apply in_map.
        rewrite Hk in Hin. apply in_map_iff in Hin.
        destruct Hin as [p [Hp _]]. symmetry in Hp.
        eapply y_values_max_cells. exact Hp.
    + intros [Hne Hall]. now apply assemble_grid_succeeds.
  - intros g Hg. destruct (assemble_grid_rows ts Hg) as [ordered [Hp Hr]].
    split.
    + rewrite Hr. symmetry. exact (Permutation_flat_map ds_rows Hp).
    + exists ordered. split; [exact Hp | exact Hr].
Qed.

End GridExtras.

(** ** A complete post-processing *)

Section CompletePostProcessing.

Import PP.
Local Open Scope list_scope.

Context {W : Type} {os : OS W}.

Variables (config : SCMTilesConfig) (templates : Templates)
          (drop_list : list string).

Let timestamp : string := Time.strftime_Ymd_HMS (start_time config).

Lemma open_datasets_loads (fps : list string) (s : state W) :
  Forall (fun fp => exists d, xr_open_dataset fp drop_list (fst s) = inr d)
         fps ->
  exists l, open_datasets fps drop_list s = (s, inr l).
Proof.
  induction 1 as [|fp fps [d Hd] _ [l IH]]; cbn [open_datasets].
  - eexists. reflexivity.
  - eexists. erewrite bind_inr.
    2:{ unfold read. rewrite Hd. reflexivity. }
    erewrite bind_inr by exact IH. reflexivity.
Qed.

Lemma pp_cell_loads (c : Cell) (s : state W) :
  cell_loads config templates drop_list (fst s) c ->
  exists cd,
    pp_cell c timestamp templates drop_list config s
    = (s, inr (cd, cell_directory config c)).
Proof.
  intros [[Hx Hy] Hfiles]. unfold pp_cell.
  match goal with
  | |- context [open_datasets ?fps drop_list] =>
      destruct (@open_datasets_loads fps s) as [l Hl]
  end.
  { apply Forall_forall. intros fp Hfp. apply in_map_iff in Hfp.
    destruct Hfp as [f [<- Hf]]. apply Hfiles. exact Hf. }
  erewrite bind_inr.
  2:{ apply try_except_inr. erewrite bind_inr by exact Hl. reflexivity. }
  destruct (getitem_in_range (x_coord templates) (x_global c) s Hx)
    as [x Hgx].
  destruct (getitem_in_range (y_coord templates) (y_global c) s Hy)
    as [y Hgy].
  erewrite bind_inr by exact Hgx. erewrite bind_inr by exact Hgy.
  eexists. reflexivity.
Qed.

Lemma cells_load (cells : list Cell) (s : state W) :
  Forall (cell_loads config templates drop_list (fst s)) cells ->
  exists results,
    Forall2 (fun c r =>
               snd (pp_cell c timestamp templates drop_list config s)
               = inr r) cells results
    /\ map snd results = map (cell_directory config) cells.
Proof.
  induction 1 as [|c cells Hc _ [results [IH Hdirs]]].
  - exists []. split; [constructor | reflexivity].
  - destruct (pp_cell_loads s Hc) as [cd Hpp].
    exists ((cd, cell_directory config c) :: results). split.
    + constructor; [now rewrite Hpp | exact IH].
    + cbn. now rewrite Hdirs.
Qed.

(** A tile all of whose cells load. *)
Lemma pp_tile_loads (tile : Tile) (s : state W) :
  tile_cells tile <> [] ->
  Forall (cell_loads config templates drop_list (fst s)) (tile_cells tile) ->
  exists tile_ds s',
    pp_tile config timestamp templates drop_list tile s
    = (s', inr (tile_ds, map (cell_directory config) (tile_cells tile)))
    /\ fst s' = fst s
    /\ List.length (List.concat (ds_rows tile_ds))
       = List.length (tile_cells tile).
Proof.
  intros Hne Hall.
  destruct (cells_load s Hall) as [results [Hres Hdirs]].
  destruct (group_any_order (combine (tile_cells tile) results)
                            (Forall_nil _) (NoDup_nil _))
    as [rows [Hod [Hperm [Hu Hnd]]]].
  cbn [List.concat app dict_of_rows map] in Hod, Hperm.
  assert (Hlen : List.length (tile_cells tile) = List.length results)
    by (eapply Forall2_length; exact Hres).
  assert (Hrows : rows <> []).
  { intros ->. cbn in Hperm. apply Permutation_nil in Hperm.
    destruct (tile_cells tile); [now apply Hne|].
    destruct results; discriminate. }
  assert (Hflat : List.length (List.concat (map (map dataset_of) rows))
                  = List.length (tile_cells tile)).
  { rewrite <- concat_map, length_map, (Permutation_length Hperm).
    etransitivity; [apply length_combine | lia]. }
  unfold pp_tile. unfold bind at 1.
  erewrite pp_tile_cells_ok by exact Hres. cbn [app]. rewrite Hod.
  unfold bind at 1.
  erewrite concat_rows_ok by (now apply uniform_nonempty).
  rewrite length_map, Hdirs.
  destruct rows as [|row0 [|row1 rows]]; [now contradiction Hrows| |].
  - do 2 eexists. split; [reflexivity|]. split; [reflexivity|]. exact Hflat.
  - do 2 eexists. split; [reflexivity|]. split; [reflexivity|].
    cbn [ds_rows]. rewrite flat_map_row_dataset. exact Hflat.
Qed.

Lemma pool_map_loads (w : W) (tiles : list Tile) :
  Forall (fun t => tile_cells t <> []
                   /\ Forall (cell_loads config templates drop_list w)
                             (tile_cells t)) tiles ->
  forall s, fst s = w ->
  exists results s',
    pool_map (pp_tile config timestamp templates drop_list) tiles s
    = (s', inr results)
    /\ fst s' = w
    /\ map snd results
       = map (fun t => map (cell_directory config) (tile_cells t)) tiles
    /\ Forall2 (fun t r => List.length (List.concat (ds_rows (fst r)))
                           = List.length (tile_cells t)) tiles results.
Proof.
  induction 1 as [|t tiles [Hne Ht] _ IH]; intros s Hw; cbn [pool_map].
  - exists [], s. repeat split; auto.
  - rewrite <- Hw in Ht.
    destruct (pp_tile_loads t s Hne Ht) as [tile_ds [s1 [Hpp [Hw1 Hlen]]]].
    erewrite bind_inr by exact Hpp.
    destruct (IH s1) as [results [s' [Hpool [Hw' [Hdirs Hlens]]]]];
      [congruence|].
    erewrite bind_inr by exact Hpool.
    exists ((tile_ds, map (cell_directory config) (tile_cells t)) :: results),
      s'.
    split; [reflexivity|]. split; [exact Hw'|]. split.
    + cbn. now rewrite Hdirs.
    + constructor; [exact Hlen | exact Hlens].
Qed.

Lemma delete_directories_succeeds (dirs : list string) (s : state W)
      (w' : W) :
  removed_all dirs (fst s) w' ->
  delete_directories dirs s
  = ((w', snd s ++ map (fun dp => (INFO, ("deleted: " ++ dp)%string)) dirs),
     inr tt).
Proof.
  revert s. induction dirs as [|dp dirs IH]; intros [w log]; cbn [fst snd].
  - cbn. intros ->. now rewrite app_nil_r.
  - intros [w1 [Hrm Hrest]]. cbn [delete_directories].
    unfold bind at 1, call at 1. cbn [fst snd]. rewrite Hrm.
    rewrite bind_logger.
    rewrite (IH (logged (INFO, ("deleted: " ++ dp)%string) (w1, log)))
      by exact Hrest.
    unfold logged. cbn [fst snd map]. now rewrite <- app_assoc.
Qed.

Lemma concat_length_flat_map {A B} (f : A -> list (list B)) (l : list A)
      (cells : list (list B)) :
  Permutation cells (flat_map f l) ->
  List.length (List.concat cells)
  = list_sum (map (fun a => List.length (List.concat (f a))) l).
Proof.
  intros Hp.
  assert (Hc : List.length (List.concat cells)
               = List.length (List.concat (flat_map f l))).
  { induction Hp as [|x a b _ IH|x y a|a b c _ IH1 _ IH2]; cbn;
      rewrite ?length_app; lia. }
  rewrite Hc. clear.
  induction l as [|a l IH]; cbn; [reflexivity|].
  now rewrite concat_app, length_app, IH.
Qed.

Lemma Forall2_In_right {A B} (P : A -> B -> Prop) (l : list A)
      (l' : list B) (b : B) :
  Forall2 P l l' -> In b l' -> exists a, In a l /\ P a b.
Proof.
  induction 1 as [|a0 b0 l l' H0 _ IH]; [contradiction|].
  intros [<-|Hin].
  - exists a0. split; [now left | exact H0].
  - destruct (IH Hin) as [a [Ha Hp]]. exists a. split; [now right | exact Hp].
Qed.

Lemma lengths_sum (tiles : list Tile) (results : list (Dataset * list string)) :
  Forall2 (fun t r => List.length (List.concat (ds_rows (fst r)))
                      = List.length (tile_cells t)) tiles results ->
  list_sum (map (fun d => List.length (List.concat (ds_rows d)))
                (map fst results))
  = List.length (flat_map tile_cells tiles).
Proof.
  induction 1 as [|t r tiles results Hlen _ IH]; [reflexivity|].
  unfold list_sum in *. cbn [map flat_map fold_right].
  rewrite length_app, IH. now rewrite Hlen.
Qed.

End CompletePostProcessing.

Section CompleteMain.

Import PP.
Local Open Scope list_scope.

Context {W : Type} {os : OS W}.

(** When the configuration and the templates are read, every tile has a
    cell and the three output files of every cell open, a grid is
    assembled that holds one dataset for every cell of every tile.
    Once it has been written [main] returns 0; without the option to
    delete the world is then as the writing left it, and with it the
    directories of the cells are removed after the writing, tile by
    tile in the order of the cells, when each removal succeeds. *)
Theorem main_writes_grid_then_cleans (argv0 path : string) (n : Z)
        (s : state W) (config : SCMTilesConfig) (templates : Templates) :
  let tiles :=
    decompose_by_rows (xsize config) (ysize config) (ysize config) in
  let output_filepath :=
    pjoin (output_directory config)
          ("scm_out." ++ Time.strftime_Ymd_HMS (start_time config)
           ++ ".nc")%string in
  1 <= n ->
  config_from_file path (fst s) = inr config ->
  open_coordinates (pjoin (input_directory config) (input_file_name config))
                   config (fst s) = inr templates ->
  (forall e, read_dropvars (fst s) = inl e -> isinstance e OSError = true) ->
  tiles <> [] ->
  Forall (fun t => tile_cells t <> []
                   /\ Forall (cell_loads config templates
                                         (drop_list_in (fst s)) (fst s))
                             (tile_cells t)) tiles ->
  exists g,
    List.length (List.concat (ds_rows g))
    = List.length (flat_map tile_cells tiles)
    /\ forall w1,
         to_netcdf output_filepath
                   (MkDataset (Time.rebase_time (start_time config)
                                                (ds_time g))
                              (ds_rows g)) (fst s) = (w1, inr tt) ->
         (exists log, main argv0 path n false s = ((w1, log), inr 0))
         /\ forall w2,
              removed_all
                (flat_map (fun t => map (cell_directory config)
                                        (tile_cells t)) tiles) w1 w2 ->
              exists log, main argv0 path n true s = ((w2, log), inr 0).
Proof.
  intros tiles output_filepath Hn Hconfig Hcoord Hdrop Hne Hall.
  set (s0 := logged (INFO, ("Backend scmtiles is version "
                            ++ scmtiles_version)%string)
                    (logged (INFO, ("Running " ++ argv0 ++ " at version "
                                    ++ __version__)%string) s)).
  set (s1 := logged (INFO, ("dispatching tiles to " ++ str_Z n
                            ++ " workers")%string)
                    (logged (INFO, "loading coordinate templates"%string)
                            s0)).
  destruct (@pool_map_loads W os config templates (drop_list_in (fst s))
              (fst s) tiles Hall s1 eq_refl)
    as [results [s2 [Hpool [Hw2 [Hdirs Hlens]]]]].
  destruct (assemble_grid_succeeds (ts := map fst results)) as [g Hg].
  { intros Hnil. apply map_eq_nil in Hnil. subst results.
    apply Forall2_length in Hlens. destruct tiles; [now apply Hne|].
    discriminate. }
  { apply Forall_forall. intros d Hd. apply in_map_iff in Hd.
    destruct Hd as [r [<- Hr]].
    destruct (@Forall2_In_right _ _ _ _ _ _ Hlens Hr) as [t [Ht Hlen]].
    destruct (proj1 (Forall_forall _ _) Hall t Ht) as [Hcells _].
    intros Hnil. rewrite Hnil in Hlen. destruct (tile_cells t);
      [now apply Hcells | discriminate]. }
  exists g. split.
  - destruct (assemble_grid_rows _ Hg) as [ordered [Hp Hr]].
    rewrite (@concat_length_flat_map _ _ ds_rows (map fst results)).
    2:{ rewrite Hr. symmetry. exact (Permutation_flat_map ds_rows Hp). }
    apply lengths_sum. exact Hlens.
  - intros w1 Hwrite.
    assert (Hpp : forall delete,
               post_process path n delete s0
               = (if delete
                  then delete_directories
                         (List.concat (map snd results))
                         (logged (INFO,
                                  "deleting individual column files"%string)
                                 (w1, snd (logged
                                      (INFO,
                                       ("writing combined output file: "
                                        ++ output_filepath)%string) s2)))
                  else ((w1, snd (logged
                                    (INFO,
                                     ("writing combined output file: "
                                      ++ output_filepath)%string) s2)),
                        inr tt))).
    { intros delete. unfold post_process.
      destruct (Z.ltb_spec n 1) as [Hlt|_]; [lia|].
      erewrite bind_inr by reflexivity.
      erewrite bind_inr.
      2:{ apply try_except_inr. unfold read, s0, logged. cbn [fst].
          rewrite Hconfig. reflexivity. }
      rewrite bind_logger.
      erewrite bind_inr.
      2:{ unfold load_coordinate_templates. apply try_except_inr.
          unfold read, s0, logged. cbn [fst]. rewrite Hcoord.
          reflexivity. }
      erewrite bind_inr.
      2:{ apply drop_list_read. exact Hdrop. }
      rewrite bind_logger.
      erewrite bind_inr by exact Hpool.
      erewrite bind_inr.
      2:{ unfold read. rewrite Hg. reflexivity. }
      rewrite bind_logger.
      erewrite bind_inr.
      2:{ apply try_except_inr. unfold call, logged. cbn [fst snd].
          rewrite Hw2. fold output_filepath. rewrite Hwrite. reflexivity. }
      destruct delete; [|reflexivity].
      rewrite bind_logger. reflexivity. }
    split.
    + eexists. unfold main. apply try_except_inr. rewrite !bind_logger.
      erewrite bind_inr by (apply (Hpp false)). reflexivity.
    + intros w2 Hrem. eexists. unfold main. apply try_except_inr.
      rewrite !bind_logger.
      erewrite bind_inr.
      2:{ etransitivity; [exact (Hpp true)|].
          apply delete_directories_succeeds.
          cbn [logged fst snd]. rewrite Hdirs, <- flat_map_concat_map.
          exact Hrem. }
      reflexivity.
Qed.

End CompleteMain.

Section PostProcessorExtraExamples.

Import SCM PP Disk Scenario MoreScenarios.
Local Open Scope list_scope.

Lemma main_refuses_no_processes_witness :
  snd (main "pp" "scm.cfg" 0 true (pp_world [], [])) = inr 1.
Proof.
  rewrite (@main_refuses_no_processes
             world disk_os "pp" "scm.cfg" 0 true (pp_world [], [])).
  - reflexivity.
  - lia.
Defined.

Lemma delete_directories_in_order_witness :
  exists s',
    delete_directories [cell_directory cfg c00; cell_directory cfg c10]
                       (pp_world [c00; c10], [])
    = (s', inr tt)
    /\ removed_all [cell_directory cfg c00; cell_directory cfg c10]
                   (pp_world [c00; c10]) (fst s')
    /\ lookup "/out/20090406_010000.y0000x0001/diagvar.nc" (fst s') = None
    /\ snd s' = [(INFO, "deleted: /out/20090406_010000.y0000x0000"%string);
                 (INFO, "deleted: /out/20090406_010000.y0000x0001"%string)].
Proof.
  set (dirs := [cell_directory cfg c00; cell_directory cfg c10]).
  set (s := (pp_world [c00; c10], @nil log_record)).
  exists (fst (delete_directories dirs s)).
  split; [vm_compute; reflexivity|].
  destruct (@delete_directories_in_order
              world disk_os dirs s (fst (delete_directories dirs s))
              (inr tt)) as [Hrem Hlog]; [vm_compute; reflexivity|].
  split; [exact Hrem|]. split; [vm_compute; reflexivity|].
  rewrite Hlog. vm_compute. reflexivity.
Defined.

Lemma post_process_only_writes_witness :
  exists s',
    post_process "scm.cfg" 1 false (pp_world [c00; c10; c01; c11], [])
    = (s', inr tt)
    /\ lookup "/out/scm_out.20090406_010000.nc" (fst s')
       = Some (File "netcdf")
    /\ (fst s' = pp_world [c00; c10; c01; c11]
        \/ exists config ds,
             config_from_file "scm.cfg" (pp_world [c00; c10; c01; c11])
             = inr config
             /\ fst s'
                = fst (to_netcdf
                         (pjoin (output_directory config)
                                ("scm_out."
                                 ++ Time.strftime_Ymd_HMS (start_time config)
                                 ++ ".nc")%string)
                         ds (pp_world [c00; c10; c01; c11]))).
Proof.
  set (s := (pp_world [c00; c10; c01; c11], @nil log_record)).
  exists (fst (post_process "scm.cfg" 1 false s)).
  split; [vm_compute; reflexivity|].
  split; [vm_compute; reflexivity|].
  apply (@post_process_only_writes
           world disk_os "scm.cfg" 1 s
           (fst (post_process "scm.cfg" 1 false s)) (inr tt)).
  vm_compute. reflexivity.
Defined.

Lemma main_without_tiles_witness :
  exists s',
    main "pp" "empty.cfg" 1 false (empty_grid_world, [])
    = (s', inl (Raise ValueError
                      "must supply at least one object to concatenate"))
    /\ fst s' = empty_grid_world.
Proof.
  apply (@main_without_tiles
           world disk_os "pp" "empty.cfg" 1 false (empty_grid_world, [])
           empty_cfg grid).
  - lia.
  - reflexivity.
  - reflexivity.
  - intros e He. vm_compute in He. injection He as <-. reflexivity.
  - reflexivity.
Defined.

Lemma pp_tile_keeps_every_cell_witness :
  exists tile_ds rows s',
    pp_tile cfg "20090406_010000" grid [] (MkTile 0 [c10; c01; c00; c11])
            (pp_world [c00; c10; c01; c11], [])
    = (s', inr (tile_ds,
                map snd [loaded c10 10 101; loaded c01 20 100;
                         loaded c00 10 100; loaded c11 20 101]))
    /\ fst s' = pp_world [c00; c10; c01; c11]
    /\ ds_rows tile_ds = map (map dataset_of) rows
    /\ Permutation (List.concat rows)
                   (combine [c10; c01; c00; c11]
                            [loaded c10 10 101; loaded c01 20 100;
                             loaded c00 10 100; loaded c11 20 101])
    /\ Permutation (List.concat (ds_rows tile_ds))
                   (map fst [loaded c10 10 101; loaded c01 20 100;
                             loaded c00 10 100; loaded c11 20 101])
    /\ Forall row_uniform rows
    /\ NoDup (map row_key rows).
Proof.
  apply (@pp_tile_keeps_every_cell
           world disk_os cfg "20090406_010000" grid []
           (MkTile 0 [c10; c01; c00; c11])
           [loaded c10 10 101; loaded c01 20 100;
            loaded c00 10 100; loaded c11 20 101]
           (pp_world [c00; c10; c01; c11], [])).
  - discriminate.
  - repeat constructor; vm_compute; reflexivity.
Defined.

Lemma sorted_is_stable_witness :
  Permutation [north_tile; south_tile; north_tile]
              [south_tile; north_tile; north_tile]
  /\ (exists keys,
         map y_values_max [south_tile; north_tile; north_tile]
         = map (fun k => inr k) keys
         /\ StronglySorted Z.le keys)
  /\ forall k,
       filter (has_key y_values_max k) [south_tile; north_tile; north_tile]
       = filter (has_key y_values_max k) [north_tile; south_tile; north_tile].
Proof.
  apply (@sorted_is_stable Dataset y_values_max
           [north_tile; south_tile; north_tile]
           [south_tile; north_tile; north_tile]).
  vm_compute. reflexivity.
Defined.

Lemma assemble_grid_keeps_rows_witness :
  exists g,
    assemble_grid [north_tile; south_tile] = inr g
    /\ Permutation (ds_rows g) (flat_map ds_rows [north_tile; south_tile]).
Proof.
  destruct (assemble_grid_keeps_rows [north_tile; south_tile])
    as [[_ Hdef] Hrows].
  destruct Hdef as [g Hg].
  - split; [discriminate|]. repeat constructor; discriminate.
  - exists g. split; [exact Hg|]. apply (Hrows g Hg).
Defined.

Lemma main_writes_grid_then_cleans_witness :
  exists w2 log,
    main "pp" "scm.cfg" 1 true (pp_world [c00; c10; c01; c11], [])
    = ((w2, log), inr 0)
    /\ lookup "/out/scm_out.20090406_010000.nc" w2 = Some (File "netcdf")
    /\ lookup "/out/20090406_010000.y0000x0000" w2 = None
    /\ lookup "/out/20090406_010000.y0001x0001/progvar.nc" w2 = None.
Proof.
  set (w := pp_world [c00; c10; c01; c11]).
  set (w1 := fst (write_netcdf "/out/scm_out.20090406_010000.nc"
                               (MkDataset [] []) w)).
  set (dirs := [cell_directory cfg c00; cell_directory cfg c10;
                cell_directory cfg c01; cell_directory cfg c11]).
  set (w2 := fst (fst (delete_directories dirs (w1, [])))).
  destruct (@main_writes_grid_then_cleans
              world disk_os "pp" "scm.cfg" 1 (w, []) cfg grid)
    as [g [_ H]].
  - lia.
  - reflexivity.
  - reflexivity.
  - intros e He. vm_compute in He. injection He as <-. reflexivity.
  - discriminate.
  - vm_compute decompose_by_rows. unfold cell_loads, in_grid.
    repeat constructor; try discriminate; try (cbn; lia);
      intros f [<-|[<-|[<-|[]]]]; eexists; vm_compute; reflexivity.
  - destruct (H w1) as [_ Hdel]; [vm_compute; reflexivity|].
    destruct (Hdel w2) as [log Hmain].
    + cbn [removed_all].
      do 4 (eexists; split; [lazy; reflexivity|]).
      vm_compute. reflexivity.
    + exists w2, log. split; [exact Hmain|].
      repeat split; vm_compute; reflexivity.
Defined.

End PostProcessorExtraExamples.

(** ** The collection of job results *)

(** The statements of this part apply [date_from_job_id] and
    [from_name_and_id] to variables; implicit arguments are not
    computed for them, which would normalise these applications. *)
Unset Implicit Arguments.

Section CollectProperties.

Import Collect.
Local Open Scope list_scope.

Context {host : Host}.

Lemma split_nonempty (sep : ascii) (s : string) : split sep s <> [].
Proof.
  induction s as [|c s IH]; cbn; [discriminate|].
  destruct (Ascii.eqb c sep); [discriminate|].
  destruct (split sep s); [contradiction | discriminate].
Qed.

Lemma ints_map (l : list string) (ns : list Z) :
  ints l = inr ns <-> map int l = map Some ns.
Proof.
  revert ns. induction l as [|x l IH]; intros ns; cbn.
  - split; intros H.
    + now injection H as <-.
    + destruct ns; [reflexivity | discriminate].
  - destruct (int x) as [n|]; [|split; [discriminate | now destruct ns]].
    destruct (ints l) as [e|ns'].
    + split; [discriminate|]. destruct ns as [|n' ns]; [discriminate|].
      cbn. intros H. injection H as _ H. apply IH in H. discriminate.
    + split; intros H.
      * injection H as <-. cbn. f_equal. now apply IH.
      * destruct ns as [|n' ns]; [discriminate|]. cbn in H.
        injection H as -> H. apply IH in H. now injection H as ->.
Qed.

Lemma ints_error (l : list string) (e : exc) :
  ints l = inl e ->
  exc_cls e = ValueError /\ exists x, In x l /\ int x = None.
Proof.
  induction l as [|x l IH]; cbn; [discriminate|].
  destruct (int x) as [n|] eqn:Hx.
  - destruct (ints l) as [e'|ns]; [|discriminate].
    intros H. injection H as <-. destruct (IH eq_refl) as [Hc [y [Hy Hn]]].
    split; [exact Hc|]. exists y. split; [now right | exact Hn].
  - intros H. injection H as <-. split; [reflexivity|].
    exists x. split; [now left | exact Hx].
Qed.

Lemma range_in (a b x : Z) : In x (range a b) <-> a <= x < b.
Proof.
  unfold range. rewrite in_map_iff. split.
  - intros [i [<- Hi]]. apply in_seq in Hi. lia.
  - intros H. exists (Z.to_nat (x - a)). split; [lia|].
    apply in_seq. lia.
Qed.

Lemma insert_unique_in (x y : Z) (l : list Z) :
  In y (insert_unique x l) <-> y = x \/ In y l.
Proof.
  induction l as [|z l IH]; cbn.
  - intuition.
  - destruct (Z.ltb_spec x z); [cbn; intuition|].
    destruct (Z.eqb_spec x z); cbn; [subst; intuition|].
    rewrite IH. intuition.
Qed.

Lemma insert_unique_sorted (x : Z) (l : list Z) :
  StronglySorted Z.lt l -> StronglySorted Z.lt (insert_unique x l).
Proof.
  induction 1 as [|z l Hs IH Hz]; cbn.
  - repeat constructor.
  - destruct (Z.ltb_spec x z) as [Hlt|Hge].
    + constructor; [now constructor|]. constructor; [exact Hlt|].
      eapply Forall_impl; [|exact Hz]. intros; lia.
    + destruct (Z.eqb_spec x z) as [Heq|Hne]; [now constructor|].
      constructor; [exact IH|]. apply Forall_forall. intros y Hy.
      apply insert_unique_in in Hy. destruct Hy as [->|Hy]; [lia|].
      now apply (proj1 (Forall_forall _ _) Hz).
Qed.

Lemma sorted_set_in (l : list Z) (y : Z) : In y (sorted_set l) <-> In y l.
Proof.
  induction l as [|x l IH]; cbn; [tauto|].
  rewrite insert_unique_in, IH. intuition.
Qed.

Lemma sorted_set_sorted (l : list Z) : StronglySorted Z.lt (sorted_set l).
Proof.
  induction l as [|x l IH]; cbn; [constructor|].
  now apply insert_unique_sorted.
Qed.

(** The loop of [parse_array_spec], when it ends. *)
Lemma parse_sub_specs_ids (array_spec : string) (sub_specs : list string) :
  forall job_ids ids,
    parse_sub_specs array_spec sub_specs job_ids = inr ids ->
    forall x, In x (List.concat ids)
              <-> In x (List.concat job_ids)
                  \/ exists sub_spec, In sub_spec sub_specs
                                      /\ covers sub_spec x.
Proof.
  induction sub_specs as [|sub rest IH]; intros job_ids ids H x.
  - cbn in H. injection H as <-. split; [now left|].
    intros [Hx|[s [[] _]]]. exact Hx.
  - cbn [parse_sub_specs] in H.
    destruct (ints (split "-" sub)) as [e|items] eqn:Hi; [discriminate|].
    apply ints_map in Hi.
    destruct items as [|a [|b [|c items]]]; try discriminate.
    + rewrite (IH _ _ H x). rewrite concat_app, in_app_iff. cbn.
      split.
      * intros [[Hx|[<-|[]]]|[s [Hs Hc]]].
        -- now left.
        -- right. exists sub. split; [now left|]. left. now exists a.
        -- right. exists s. split; [now right | exact Hc].
      * intros [Hx|[s [[<-|Hs] Hc]]].
        -- left. now left.
        -- left. right. left. destruct Hc as [[a' [Ha ->]]|[a' [b' [Ha _]]]].
           ++ rewrite Hi in Ha. now injection Ha.
           ++ rewrite Hi in Ha. discriminate.
        -- right. exists s. split; [exact Hs | exact Hc].
    + rewrite (IH _ _ H x). rewrite concat_app, in_app_iff. cbn.
      rewrite app_nil_r, range_in. split.
      * intros [[Hx|Hx]|[s [Hs Hc]]].
        -- now left.
        -- right. exists sub. split; [now left|]. right. exists a, b.
           split; [exact Hi | lia].
        -- right. exists s. split; [now right | exact Hc].
      * intros [Hx|[s [[<-|Hs] Hc]]].
        -- left. now left.
        -- left. right. destruct Hc as [[a' [Ha _]]|[a' [b' [Ha Hx]]]].
           ++ rewrite Hi in Ha. discriminate.
           ++ rewrite Hi in Ha. injection Ha as <- <-. lia.
        -- right. exists s. split; [exact Hs | exact Hc].
Qed.

(** The job ids that [parse_array_spec] returns are in strictly
    ascending order, so that none occurs twice, and they are exactly
    the numbers that one of the comma-separated sub-specifications
    names: the number itself for [a], the numbers from [a] to [b] for
    [a-b] (none when [b] is below [a]). *)
Theorem parse_array_spec_ids (array_spec : string) (ids : list Z) :
  parse_array_spec array_spec = inr ids ->
  StronglySorted Z.lt ids
  /\ forall x, In x ids
               <-> exists sub_spec, In sub_spec (split "," array_spec)
                                    /\ covers sub_spec x.
Proof.
  unfold parse_array_spec.
  destruct (parse_sub_specs array_spec (split "," array_spec) [])
    as [e|job_ids] eqn:Hp; [discriminate|].
  intros H. injection H as <-. split; [apply sorted_set_sorted|].
  intros x. rewrite sorted_set_in, (parse_sub_specs_ids _ _ _ _ Hp x).
  cbn. tauto.
Qed.

Lemma parse_sub_specs_error (array_spec : string) (sub_specs : list string) :
  forall job_ids e,
    parse_sub_specs array_spec sub_specs job_ids = inl e ->
    (exc_cls e = ValueError
     /\ exists sub_spec x, In sub_spec sub_specs
                           /\ In x (split "-" sub_spec) /\ int x = None)
    \/ (exists sub_spec,
           In sub_spec sub_specs
           /\ (3 <= List.length (split "-" sub_spec))%nat
           /\ Forall (fun x => int x <> None) (split "-" sub_spec)
           /\ e = Exc Usage ("invalid array specification: " ++ dquote
                             ++ sub_spec ++ dquote ++ " in " ++ dquote
                             ++ array_spec)%string).
Proof.
  induction sub_specs as [|sub rest IH]; intros job_ids e H;
    [discriminate|].
  cbn [parse_sub_specs] in H.
  assert (Hrest : forall acc,
             parse_sub_specs array_spec rest acc = inl e ->
             (exc_cls e = ValueError
              /\ exists sub_spec x, In sub_spec (sub :: rest)
                                    /\ In x (split "-" sub_spec)
                                    /\ int x = None)
             \/ (exists sub_spec,
                    In sub_spec (sub :: rest)
                    /\ (3 <= List.length (split "-" sub_spec))%nat
                    /\ Forall (fun x => int x <> None)
                              (split "-" sub_spec)
                    /\ e = Exc Usage ("invalid array specification: "
                                      ++ dquote ++ sub_spec ++ dquote
                                      ++ " in " ++ dquote
                                      ++ array_spec)%string)).
  { intros acc Hacc.
    destruct (IH _ _ Hacc) as [[Hc [s [x [Hs Hx]]]]|[s [Hs Hu]]].
    - left. split; [exact Hc|]. exists s, x. split; [now right | exact Hx].
    - right. exists s. split; [now right | exact Hu]. }
  destruct (ints (split "-" sub)) as [e'|items] eqn:Hi.
  - injection H as <-. destruct (ints_error _ _ Hi) as [Hc [x [Hx Hn]]].
    left. split; [exact Hc|]. exists sub, x. split; [now left | auto].
  - apply ints_map in Hi.
    assert (Hlen : List.length (split "-" sub) = List.length items).
    { apply (f_equal (@List.length _)) in Hi. now rewrite !length_map in Hi. }
    destruct items as [|a [|b [|c items]]].
    + exfalso. apply (split_nonempty "-" sub).
      now destruct (split "-" sub).
    + eapply Hrest. exact H.
    + eapply Hrest. exact H.
    + injection H as <-. right. exists sub.
      split; [now left|]. split; [rewrite Hlen; cbn; lia|].
      split; [|reflexivity].
      apply Forall_forall. intros x Hx Hn.
      apply (in_map int) in Hx. rewrite Hi, Hn in Hx.
      apply in_map_iff in Hx. destruct Hx as [n [Hn' _]]. discriminate.
Qed.

Lemma parse_array_spec_failure (array_spec : string) (e : exc) :
  parse_array_spec array_spec = inl e ->
  exc_cls e = ValueError \/ exc_cls e = Usage.
Proof.
  unfold parse_array_spec.
  destruct (parse_sub_specs array_spec (split "," array_spec) [])
    as [e'|job_ids] eqn:Hp; [|discriminate].
  intros H. injection H as <-.
  destruct (parse_sub_specs_error _ _ _ _ Hp)
    as [[Hc _]|[s (_ & _ & _ & ->)]]; [now left | now right].
Qed.

(** [parse_array_spec] fails in two ways only: with the ValueError of
    [int] for a part that is not an integer, or with a Usage error for
    a sub-specification of three parts or more; the parts are converted
    first, so that the Usage error is raised only when all of them are
    integers. *)
Theorem parse_array_spec_errors (array_spec : string) (e : exc) :
  parse_array_spec array_spec = inl e ->
  (exc_cls e = ValueError
   /\ exists sub_spec x, In sub_spec (split "," array_spec)
                         /\ In x (split "-" sub_spec) /\ int x = None)
  \/ (exc_cls e = Usage
      /\ exists sub_spec,
           In sub_spec (split "," array_spec)
           /\ (3 <= List.length (split "-" sub_spec))%nat
           /\ Forall (fun x => int x <> None) (split "-" sub_spec)
           /\ exc_msg e
              = ("invalid array specification: " ++ dquote ++ sub_spec
                 ++ dquote ++ " in " ++ dquote ++ array_spec)%string).
Proof.
  unfold parse_array_spec.
  destruct (parse_sub_specs array_spec (split "," array_spec) [])
    as [e'|job_ids] eqn:Hp; [|discriminate].
  intros H. injection H as <-.
  destruct (parse_sub_specs_error _ _ _ _ Hp)
    as [[Hc Hx]|[s [Hs [Hlen [Hall ->]]]]].
  - left. split; [exact Hc | exact Hx].
  - right. split; [reflexivity|]. exists s. repeat split; auto.
Qed.

Lemma pp_status_stages (nm : string) (jid : Z) (j0 : JobInfo) :
  pp_generate j0 = None -> pp_cleanup j0 = None ->
  pp_status nm jid j0 <> inr None
  /\ forall j,
       pp_status nm jid j0 = inr (Some j) ->
       name j = name j0 /\ id j = id j0 /\ date j = date j0
       /\ run j = run j0
       /\ (pp_cleanup j <> None -> pp_generate j = Some true).
Proof.
  intros Hg Hc. unfold pp_status.
  destruct (negb (os_path_exists _)).
  { split; [discriminate|]. intros j H. injection H as <-.
    repeat split. rewrite Hc. congruence. }
  destruct (lsb_run_complete _) as [e|[|]].
  - split; [discriminate|]. intros j H. discriminate.
  - split; [discriminate|]. intros j H. injection H as <-.
    repeat split.
  - destruct (strftime _ _) as [e|stamp].
    { split; [discriminate|]. intros j H. discriminate. }
    destruct (os_path_exists _).
    + split; [discriminate|]. intros j H. injection H as <-. repeat split.
    + split; [discriminate|]. intros j H. injection H as <-.
      repeat split. cbn. rewrite Hc. congruence.
Qed.

Lemma from_name_and_id_invariant (nm : string) (jid : Z) (pp_only : bool)
      (j : JobInfo) :
  from_name_and_id nm jid pp_only = inr (Some j) ->
  name j = nm /\ id j = jid /\ date_from_job_id jid = inr (date j)
  /\ (exists b, run j = Some b)
  /\ (run j = Some false -> pp_only = false)
  /\ (pp_generate j <> None -> run j = Some true)
  /\ (pp_cleanup j <> None -> pp_generate j = Some true).
Proof.
  unfold from_name_and_id, __init__.
  destruct (date_from_job_id jid) as [e|d]; [discriminate|].
  set (j0 := MkJobInfo nm jid None None None d).
  assert (Hpp : pp_status nm jid (set_run true j0) = inr (Some j) ->
                name j = nm /\ id j = jid /\ @inr exc _ d = inr (date j)
                /\ (exists b, run j = Some b)
                /\ (run j = Some false -> False)
                /\ (pp_generate j <> None -> run j = Some true)
                /\ (pp_cleanup j <> None -> pp_generate j = Some true)).
  { intros H.
    destruct (@pp_status_stages nm jid (set_run true j0) eq_refl eq_refl)
      as [_ Hs].
    destruct (Hs j H) as (Hn & Hi & Hd & Hr & Hc).
    cbn in Hn, Hi, Hd, Hr. rewrite Hr.
    repeat split; auto; [congruence | now exists true | discriminate]. }
  destruct pp_only.
  - intros H. destruct (Hpp H) as (? & ? & ? & ? & Hf & ? & ?).
    repeat split; auto. intros Hr. now destruct (Hf Hr).
  - destruct (negb (os_path_exists _)); [discriminate|].
    destruct (lsb_run_complete _) as [e|[|]]; [discriminate| |].
    + intros H. destruct (Hpp H) as (? & ? & ? & ? & Hf & ? & ?).
      repeat split; auto.
    + intros H. injection H as <-. cbn.
      repeat split; auto; [now exists false | congruence | congruence].
Qed.

(** [from_name_and_id] gives no job exactly when the run is looked at
    and has no log.  The job that it gives carries the name, the id and
    the date of the id; whether it ran is always known, a run that is
    reported as failed was looked at, and the stages are reported in
    order: the generation of the output only for a run that completed,
    the cleanup only when the output was generated. *)
Theorem from_name_and_id_stages (nm : string) (jid : Z) (pp_only : bool) :
  (from_name_and_id nm jid pp_only = inr None
   <-> pp_only = false /\ os_path_exists (run_log nm jid) = false
       /\ exists d, date_from_job_id jid = inr d)
  /\ forall j,
       from_name_and_id nm jid pp_only = inr (Some j) ->
       name j = nm /\ id j = jid /\ date_from_job_id jid = inr (date j)
       /\ (exists b, run j = Some b)
       /\ (run j = Some false -> pp_only = false)
       /\ (pp_generate j <> None -> run j = Some true)
       /\ (pp_cleanup j <> None -> pp_generate j = Some true).
Proof.
  split; [|intros j; apply from_name_and_id_invariant].
  unfold from_name_and_id, __init__, run_log.
  destruct (date_from_job_id jid) as [e|d].
  { split; [discriminate|]. intros (_ & _ & d & Hd). discriminate. }
  set (j0 := MkJobInfo nm jid None None None d).
  destruct (@pp_status_stages nm jid (set_run true j0) eq_refl eq_refl)
    as [Hsome _].
  destruct pp_only.
  - split; [intros H; now destruct (Hsome H)|]. intros [H _]. discriminate.
  - destruct (os_path_exists _) eqn:Hex; cbn [negb].
    + split; [|intros (_ & H & _); discriminate].
      destruct (lsb_run_complete _) as [e|[|]]; try discriminate.
      intros H. now destruct (Hsome H).
    + split; [|reflexivity]. intros _. repeat split. now exists d.
Qed.

Lemma civil_round_trip (z : Z) :
  let '(y, m, d) := civil_from_days z in
  Time.days_from_civil y m d = z /\ 1 <= m <= 12 /\ 1 <= d <= 31.
Proof.
  unfold civil_from_days, Time.days_from_civil.
  set (z0 := z + 719468).
  set (era := z0 / 146097).
  set (doe := z0 - era * 146097).
  assert (Hdoe : 0 <= doe < 146097).
  { unfold doe, era. pose proof (Z.mod_pos_bound z0 146097 ltac:(lia)) as H.
    rewrite Z.mod_eq in H by lia. lia. }
  set (yoe := (doe - doe / 1460 + doe / 36524 - doe / 146096) / 365).
  assert (Hyoe : 0 <= yoe <= 399).
  { unfold yoe. Z.div_mod_to_equations. lia. }
  set (doy := doe - (365 * yoe + yoe / 4 - yoe / 100)).
  assert (Hdoy : 0 <= doy <= 365).
  { unfold doy, yoe. Z.div_mod_to_equations. lia. }
  set (mp := (5 * doy + 2) / 153).
  assert (Hmp : 0 <= mp <= 11).
  { unfold mp. Z.div_mod_to_equations. lia. }
  set (d := doy - (153 * mp + 2) / 5 + 1).
  assert (Hd : 1 <= d <= 31).
  { unfold d, mp. Z.div_mod_to_equations. lia. }
  destruct (Z.ltb_spec mp 10) as [Hlt|Hge].
  - destruct (Z.leb_spec (mp + 3) 2) as [H2|H2]; [lia|].
    split; [|lia].
    replace (mp + 3 - 3) with mp by lia.
    replace ((yoe + era * 400) / 400) with era
      by (Z.div_mod_to_equations; lia).
    replace (yoe + era * 400 - era * 400) with yoe by lia.
    replace ((153 * mp + 2) / 5 + d - 1) with doy by (unfold d; lia).
    unfold doy, doe, z0. lia.
  - destruct (Z.leb_spec (mp - 9) 2) as [H2|H2]; [|lia].
    split; [|lia].
    replace (mp - 9 + 9) with mp by lia.
    replace (yoe + era * 400 + 1 - 1) with (yoe + era * 400) by lia.
    replace ((yoe + era * 400) / 400) with era
      by (Z.div_mod_to_equations; lia).
    replace (yoe + era * 400 - era * 400) with yoe by lia.
    replace ((153 * mp + 2) / 5 + d - 1) with doy by (unfold d; lia).
    unfold doy, doe, z0. lia.
Qed.

Lemma days_before_year (y m d y0 : Z) :
  1 <= m <= 12 -> 1 <= d <= 31 -> y < y0 ->
  Time.days_from_civil y m d < Time.days_from_civil y0 1 1.
Proof.
  intros Hm Hd Hy. unfold Time.days_from_civil.
  destruct (Z.leb_spec m 2);
    cbn [Z.leb Z.compare Pos.compare Pos.compare_cont];
    Z.div_mod_to_equations; lia.
Qed.

(** The sum of a datetime and a number of minutes, when it is a date. *)
Lemma add_minutes_fields (t d : Time.datetime) (m : Z) :
  add_minutes t m = inr d ->
  Time.to_microseconds d = Time.to_microseconds t + m * 60000000
  /\ 1 <= Time.year d <= 9999
  /\ 1 <= Time.month d <= 12 /\ 1 <= Time.day d <= 31
  /\ 0 <= Time.hour d < 24 /\ 0 <= Time.minute d < 60
  /\ 0 <= Time.second d < 60 /\ 0 <= Time.microsecond d < 1000000.
Proof.
  unfold add_minutes. cbv zeta.
  generalize (Time.to_microseconds t + m * 60000000). intros us.
  pose proof (Z.div_mod us 86400000000 ltac:(lia)) as Hdm.
  pose proof (Z.mod_pos_bound us 86400000000 ltac:(lia)) as Hb.
  revert Hdm Hb.
  generalize (us / 86400000000) (us mod 86400000000).
  intros days rest Hdm Hb.
  pose proof (civil_round_trip days) as Hc.
  destruct (civil_from_days days) as [[y mo] dd].
  destruct Hc as (Hdays & Hmo & Hdd).
  destruct ((1 <=? y) && (y <=? 9999)) eqn:Hy; [|discriminate].
  apply andb_true_iff in Hy. destruct Hy as [Hy1 Hy2].
  apply Z.leb_le in Hy1, Hy2.
  intros H. injection H as <-.
  unfold Time.to_microseconds.
  cbn [Time.year Time.month Time.day Time.hour Time.minute Time.second
       Time.microsecond].
  rewrite Hdays. clear Hdays.
  pose proof (Z.div_mod rest 3600000000 ltac:(lia)) as H1.
  pose proof (Z.mod_pos_bound rest 3600000000 ltac:(lia)) as B1.
  pose proof (Z.div_mod rest 60000000 ltac:(lia)) as H2.
  pose proof (Z.mod_pos_bound rest 60000000 ltac:(lia)) as B2.
  pose proof (Z.div_mod (rest / 60000000) 60 ltac:(lia)) as H3.
  pose proof (Z.mod_pos_bound (rest / 60000000) 60 ltac:(lia)) as B3.
  pose proof (Z.div_mod rest 1000000 ltac:(lia)) as H4.
  pose proof (Z.mod_pos_bound rest 1000000 ltac:(lia)) as B4.
  pose proof (Z.div_mod (rest / 1000000) 60 ltac:(lia)) as H5.
  pose proof (Z.mod_pos_bound (rest / 1000000) 60 ltac:(lia)) as B5.
  revert H1 B1 H2 B2 H3 B3 H4 B4 H5 B5.
  generalize (rest / 3600000000) (rest mod 3600000000)
             ((rest / 60000000) mod 60) ((rest / 60000000) / 60)
             ((rest / 1000000) mod 60) ((rest / 1000000) / 60).
  generalize (rest / 60000000) (rest mod 60000000)
             (rest / 1000000) (rest mod 1000000).
  intros. repeat split; lia.
Qed.

(** The date of a job lies 15 minutes after the date of the job
    before it, the date of job 1 being 2009-04-06 01:00:00; it is a
    valid datetime, of the year 2009 or later for a job id that is not
    negative, and no two job ids have the same date. *)
Theorem date_from_job_id_offset (jid : Z) (d : Time.datetime) :
  date_from_job_id jid = inr d ->
  Time.valid_datetime d = true
  /\ Time.to_microseconds d
     = Time.to_microseconds (Time.Datetime 2009 4 6 1 0 0 0)
       + 900000000 * (jid - 1)
  /\ (0 <= jid -> 2009 <= Time.year d)
  /\ forall jid', date_from_job_id jid' = inr d -> jid' = jid.
Proof.
  intros H. unfold date_from_job_id in H.
  destruct (add_minutes_fields _ _ _ H)
    as (Hus & Hy & Hmo & Hd & Hh & Hmi & Hs & Hu).
  split; [|split; [|split]].
  - unfold Time.valid_datetime.
    repeat (apply andb_true_intro; split);
      try apply Z.leb_le; try apply Z.ltb_lt; lia.
  - rewrite Hus. lia.
  - intros Hjid.
    destruct (Z.lt_ge_cases (Time.year d) 2009) as [Hlt|Hge]; [|lia].
    pose proof (days_before_year (Time.year d) (Time.month d)
                                 (Time.day d) 2009 Hmo Hd Hlt) as Hdays.
    exfalso. revert Hus. unfold Time.to_microseconds.
    change (Time.days_from_civil 2009 1 1) with 14245 in Hdays.
    cbn [Time.year Time.month Time.day Time.hour Time.minute Time.second
         Time.microsecond].
    change (Time.days_from_civil 2009 4 6) with 14340. lia.
  - intros jid' H'. unfold date_from_job_id in H'.
    destruct (add_minutes_fields _ _ _ H') as (Hus' & _). lia.
Qed.

Lemma string_of_uint_nonempty (d : Decimal.uint) :
  String.eqb (NilZero.string_of_uint d) "" = false.
Proof. destruct d; reflexivity. Qed.

Lemma str_Z_nonempty (n : Z) : String.eqb (PP.str_Z n) "" = false.
Proof.
  unfold PP.str_Z, NilZero.string_of_int.
  destruct (Z.to_int n); [apply string_of_uint_nonempty | reflexivity].
Qed.

Lemma append_nonempty (a b : string) (c : ascii) :
  String.eqb (a ++ String c b) "" = false.
Proof. destruct a; reflexivity. Qed.

(** The fields of the line of a job that [from_name_and_id] gave are
    never shifted: after the id and the date come the statuses that are
    known, and the known ones are the first one, two or three of run,
    generation and cleanup, so that the position of a field tells which
    status it is. *)
Theorem csv_fields_are_aligned (nm : string) (jid : Z) (pp_only : bool)
        (j : JobInfo) :
  from_name_and_id nm jid pp_only = inr (Some j) ->
  1900 <= Time.year (date j) ->
  exists statuses,
    statuses <> []
    /\ (List.length statuses <= 3)%nat
    /\ [run j; pp_generate j; pp_cleanup j]
       = map Some statuses ++ repeat None (3 - List.length statuses)
    /\ job_info_to_csv j
       = inr (join "," (PP.str_Z jid :: format_F_T (date j)
                        :: map yes_no statuses)).
Proof.
  intros H Hy.
  destruct (from_name_and_id_invariant _ _ _ _ H)
    as (_ & Hid & _ & [r Hr] & _ & Hg & Hc).
  unfold job_info_to_csv, strftime.
  destruct (Z.ltb_spec (Time.year (date j)) 1900) as [Hlt|_]; [lia|].
  unfold filter_None. cbn [flat_map].
  rewrite str_Z_nonempty. unfold format_F_T at 1.
  cbn [String.append]. rewrite append_nonempty.
  fold (format_F_T (date j)). rewrite Hid.
  destruct (pp_generate j) as [g|] eqn:Hgen.
  - rewrite Hg in Hr by discriminate. injection Hr as <-.
    rewrite Hg by discriminate.
    destruct (pp_cleanup j) as [c|] eqn:Hcl.
    + assert (g = true) by (specialize (Hc ltac:(discriminate)); congruence).
      subst g. exists [true; true; c]. repeat split; try (cbn; lia);
        [discriminate | now destruct c].
    + exists [true; g]. repeat split; try (cbn; lia);
        [discriminate | now destruct g].
  - destruct (pp_cleanup j) as [c|] eqn:Hcl.
    { specialize (Hc ltac:(discriminate)). discriminate. }
    rewrite Hr. exists [r]. repeat split; try (cbn; lia);
      [discriminate | now destruct r].
Qed.

Lemma lsb_run_complete_error (log : string) (e : exc) :
  lsb_run_complete log = inl e ->
  exc_cls e = Error /\ readlines log = inl (exc_msg e).
Proof.
  unfold lsb_run_complete. destruct (readlines log) as [msg|lines];
    [|discriminate].
  intros H. injection H as <-. split; reflexivity.
Qed.

Lemma strftime_error (format : Time.datetime -> string)
      (t : Time.datetime) (e : exc) :
  strftime format t = inl e -> exc_cls e = ValueError.
Proof.
  unfold strftime. destruct (Time.year t <? 1900); [|discriminate].
  intros H. now injection H as <-.
Qed.

Lemma date_from_job_id_error (jid : Z) (e : exc) :
  date_from_job_id jid = inl e -> exc_cls e = OverflowError.
Proof.
  unfold date_from_job_id, add_minutes.
  destruct (civil_from_days _) as [[y mo] d].
  destruct (_ && _); [discriminate|].
  intros H. now injection H as <-.
Qed.

(** How [from_name_and_id] fails. *)
Lemma from_name_and_id_raises (nm : string) (jid : Z) (pp_only : bool)
      (e : exc) :
  from_name_and_id nm jid pp_only = inl e ->
  exc_cls e = OverflowError \/ exc_cls e = ValueError
  \/ (exc_cls e = Error
      /\ exists log,
           (log = run_log nm jid \/ log = pp_log nm jid)
           /\ os_path_exists log = true
           /\ readlines log = inl (exc_msg e)).
Proof.
  unfold from_name_and_id, __init__.
  destruct (date_from_job_id jid) as [e0|d] eqn:Hd.
  { intros H. injection H as <-. left.
    eapply date_from_job_id_error. exact Hd. }
  set (j0 := MkJobInfo nm jid None None None d).
  assert (Hpp : forall j1, pp_status nm jid j1 = inl e ->
                exc_cls e = OverflowError \/ exc_cls e = ValueError
                \/ (exc_cls e = Error
                    /\ exists log,
                         (log = run_log nm jid \/ log = pp_log nm jid)
                         /\ os_path_exists log = true
                         /\ readlines log = inl (exc_msg e))).
  { intros j1. unfold pp_status. fold (pp_log nm jid).
    destruct (os_path_exists (pp_log nm jid)) eqn:Hex; cbn [negb];
      [|discriminate].
    destruct (lsb_run_complete (pp_log nm jid)) as [e1|[|]] eqn:Hl.
    - intros H. injection H as <-.
      destruct (lsb_run_complete_error _ _ Hl) as [Hc Hr].
      right. right. split; [exact Hc|]. exists (pp_log nm jid). auto.
    - discriminate.
    - destruct (strftime _ _) as [e1|stamp] eqn:Hs.
      + intros H. injection H as <-. right. left.
        eapply strftime_error. exact Hs.
      + intros H. destruct (os_path_exists (pjoin _ _)); discriminate. }
  destruct pp_only; [apply Hpp|].
  fold (run_log nm jid).
  destruct (os_path_exists (run_log nm jid)) eqn:Hex; cbn [negb];
    [|discriminate].
  destruct (lsb_run_complete (run_log nm jid)) as [e1|[|]] eqn:Hl.
  - intros H. injection H as <-.
    destruct (lsb_run_complete_error _ _ Hl) as [Hc Hr].
    right. right. split; [exact Hc|]. exists (run_log nm jid). auto.
  - apply Hpp.
  - discriminate.
Qed.

Lemma all_jobs_error (nm : string) (ids : list Z) (pp_only : bool)
      (e : exc) :
  all_jobs nm ids pp_only = inl e ->
  exists jid, In jid ids /\ from_name_and_id nm jid pp_only = inl e.
Proof.
  induction ids as [|jid ids IH]; cbn; [discriminate|].
  destruct (from_name_and_id nm jid pp_only) as [e0|j] eqn:Hj.
  - intros H. injection H as <-. exists jid. split; [now left | exact Hj].
  - destruct (all_jobs nm ids pp_only) as [e0|js]; [|discriminate].
    intros H. injection H as <-. destruct (IH eq_refl) as [k [Hk He]].
    exists k. split; [now right | exact He].
Qed.

Lemma print_jobs_result (info : list JobInfo) :
  forall out0 out r,
    print_jobs info out0 = (out, r) ->
    match r with
    | inr _ => List.length out = (List.length out0 + List.length info)%nat
    | inl e => exc_cls e = ValueError
    end.
Proof.
  induction info as [|j info IH]; intros out0 out r H; cbn in H.
  - injection H as <- <-. cbn. lia.
  - unfold job_info_to_csv in H.
    destruct (strftime format_F_T (date j)) as [e|d] eqn:Hs.
    + injection H as <- <-. eapply strftime_error. exact Hs.
    + apply IH in H. destruct r as [e|u]; [exact H|].
      rewrite H, length_app. cbn. lia.
Qed.

(** The exit status of [main] is 0, 1 or 2.  It is 1 for the Usage
    error of the array specification and 2 when a log that exists
    cannot be read; in both cases nothing has been printed on the
    standard output, since every job is looked at before the first
    line is printed.  At exit status 0 one line has been printed for
    every job that was not skipped.  A part of the specification that
    is not an integer is not a usage error: the ValueError of [int]
    leaves [main], as does the OverflowError of a date out of range. *)
Theorem main_exit_status (pp : bool) (nm array_spec : string) :
  match main pp nm array_spec with
  | ((out, err), inr code) =>
      (code = 0 /\ err = []
       /\ exists ids l,
            parse_array_spec array_spec = inr ids
            /\ all_jobs nm ids pp = inr l
            /\ List.length out = List.length (filter_jobs l))
      \/ (code = 1 /\ out = []
          /\ exists e,
               parse_array_spec array_spec = inl e
               /\ exc_cls e = Usage
               /\ err = [("error: " ++ exc_msg e)%string;
                         "  use -h or --help for help"%string])
      \/ (code = 2 /\ out = []
          /\ exists ids jid log msg,
               parse_array_spec array_spec = inr ids
               /\ In jid ids
               /\ (log = run_log nm jid \/ log = pp_log nm jid)
               /\ os_path_exists log = true
               /\ readlines log = inl msg
               /\ err = [("error: " ++ msg)%string])
  | ((out, err), inl e) =>
      err = [] /\ (exc_cls e = ValueError \/ exc_cls e = OverflowError)
  end.
Proof.
  unfold main.
  destruct (parse_array_spec array_spec) as [e|ids] eqn:Hp.
  - cbn [fst snd].
    destruct (parse_array_spec_failure _ _ Hp) as [Hc|Hc]; rewrite Hc.
    + split; [reflexivity | now left].
    + right. left. repeat split. exists e. repeat split. exact Hc.
  - unfold collect_jobs.
    destruct (all_jobs nm ids pp) as [e|l] eqn:Ha.
    + cbn [fst snd].
      destruct (all_jobs_error _ _ _ _ Ha) as [jid [Hin Hj]].
      destruct (from_name_and_id_raises _ _ _ _ Hj)
        as [Hc|[Hc|[Hc [log [Hlog [Hex Hr]]]]]]; rewrite Hc.
      * split; [reflexivity | now right].
      * split; [reflexivity | now left].
      * right. right. repeat split.
        exists ids, jid, log, (exc_msg e). repeat split; auto.
    + destruct (print_jobs (filter_jobs l) []) as [out [e|[]]] eqn:Hpr;
        cbn [fst snd]; apply print_jobs_result in Hpr.
      * rewrite Hpr. split; [reflexivity | now left].
      * left. repeat split. exists ids, l.
        split; [reflexivity|]. split; [exact Ha | exact Hpr].
Qed.

End CollectProperties.

Set Implicit Arguments.

Section CollectExamples.

Import Collect.
Local Open Scope list_scope.

Lemma parse_array_spec_ids_witness :
  @parse_array_spec three_jobs "5-3,7,1-2,2" = inr [1; 2; 7]
  /\ StronglySorted Z.lt [1; 2; 7]
  /\ forall x, In x [1; 2; 7]
               <-> exists sub_spec,
                     In sub_spec ["5-3"; "7"; "1-2"; "2"]%string
                     /\ @covers three_jobs sub_spec x.
Proof.
  split; [vm_compute; reflexivity|].
  apply (@parse_array_spec_ids three_jobs "5-3,7,1-2,2" [1; 2; 7]).
  vm_compute. reflexivity.
Defined.

Lemma parse_array_spec_errors_witness :
  exists e,
    @parse_array_spec three_jobs "1,2-3-4" = inl e
    /\ exc_cls e = Usage
    /\ exc_msg e = ("invalid array specification: " ++ dquote ++ "2-3-4"
                    ++ dquote ++ " in " ++ dquote ++ "1,2-3-4")%string.
Proof.
  eexists. split; [vm_compute; reflexivity|].
  destruct (@parse_array_spec_errors
              three_jobs "1,2-3-4"
              (Exc Usage ("invalid array specification: " ++ dquote
                          ++ "2-3-4" ++ dquote ++ " in " ++ dquote
                          ++ "1,2-3-4")%string))
    as [[Hc _]|[Hc _]]; [vm_compute; reflexivity | discriminate |].
  split; [exact Hc | reflexivity].
Defined.

Lemma from_name_and_id_stages_witness :
  @from_name_and_id three_jobs "scm" 3 false = inr None
  /\ exists j,
       @from_name_and_id three_jobs "scm" 2 false = inr (Some j)
       /\ id j = 2 /\ run j = Some true /\ pp_generate j = None
       /\ (pp_cleanup j <> None -> pp_generate j = Some true).
Proof.
  split.
  - apply (proj1 (@from_name_and_id_stages three_jobs "scm" 3 false)).
    split; [reflexivity|]. split; [vm_compute; reflexivity|].
    eexists. vm_compute. reflexivity.
  - eexists. split; [vm_compute; reflexivity|].
    destruct (proj2 (@from_name_and_id_stages three_jobs "scm" 2 false)
                    (MkJobInfo "scm" 2 (Some true) None None
                               (Time.Datetime 2009 4 6 1 15 0 0)))
      as (_ & Hid & _ & _ & _ & _ & Hc); [vm_compute; reflexivity|].
    split; [exact Hid|]. split; [reflexivity|]. split; [reflexivity|].
    exact Hc.
Defined.

Lemma date_from_job_id_offset_witness :
  date_from_job_id 97 = inr (Time.Datetime 2009 4 7 1 0 0 0)
  /\ Time.valid_datetime (Time.Datetime 2009 4 7 1 0 0 0) = true
  /\ Time.to_microseconds (Time.Datetime 2009 4 7 1 0 0 0)
     = Time.to_microseconds (Time.Datetime 2009 4 6 1 0 0 0)
       + 900000000 * (97 - 1)
  /\ (0 <= 97 -> 2009 <= 2009)
  /\ forall jid',
       date_from_job_id jid' = inr (Time.Datetime 2009 4 7 1 0 0 0) ->
       jid' = 97.
Proof.
  split; [vm_compute; reflexivity|].
  apply (@date_from_job_id_offset 97 (Time.Datetime 2009 4 7 1 0 0 0)).
  vm_compute. reflexivity.
Defined.

Lemma csv_fields_are_aligned_witness :
  exists j statuses,
    @from_name_and_id three_jobs "scm" 2 false = inr (Some j)
    /\ statuses <> []
    /\ (List.length statuses <= 3)%nat
    /\ [run j; pp_generate j; pp_cleanup j]
       = map Some statuses ++ repeat None (3 - List.length statuses)
    /\ job_info_to_csv j
       = inr (join "," (PP.str_Z 2 :: format_F_T (date j)
                        :: map yes_no statuses))
    /\ job_info_to_csv j = inr "2,2009-04-06 01:15:00,yes"%string.
Proof.
  set (j := MkJobInfo "scm" 2 (Some true) None None
                      (Time.Datetime 2009 4 6 1 15 0 0)).
  destruct (@csv_fields_are_aligned three_jobs "scm" 2 false j)
    as [statuses (Hne & Hlen & Hst & Hcsv)].
  - vm_compute. reflexivity.
  - cbn. lia.
  - exists j, statuses. split; [vm_compute; reflexivity|].
    repeat split; auto.
Defined.

Lemma main_exit_status_witness :
  @main unreadable_log false "scm" "1-3"
  = (([], ["error: [Errno 13] Permission denied"%string]), inr 2)
  /\ exists ids jid log msg,
       @parse_array_spec unreadable_log "1-3" = inr ids
       /\ In jid ids
       /\ (log = run_log "scm" jid \/ log = pp_log "scm" jid)
       /\ @os_path_exists unreadable_log log = true
       /\ @readlines unreadable_log log = inl msg.
Proof.
  split; [vm_compute; reflexivity|].
  pose proof (@main_exit_status unreadable_log false "scm" "1-3") as H.
  replace (@main unreadable_log false "scm" "1-3")
    with (@nil string, ["error: [Errno 13] Permission denied"%string],
          @inr exc Z 2) in H by (vm_compute; reflexivity).
  destruct H as [[H0 _]|[[H1 _]|(_ & _ & ids & jid & log & msg & H)]];
    [discriminate | discriminate |].
  exists ids, jid, log, msg.
  destruct H as (Hp & Hin & Hlog & Hex & Hr & _). repeat split; auto.
Defined.

End CollectExamples.
